(** * XDR name/value lists of the ZFS boot environment (stand/libsa/zfs/nvlist.c)

    A shallow embedding of the nvlist engine of the FreeBSD boot loader.
    The C code edits a serialized byte buffer in place; the embedding keeps
    that buffer as a list of bytes and every pointer as an offset into the
    memory block it points to.  An access outside the block is a [Fault]
    (undefined behaviour in C), which is kept apart from the error codes
    the functions return. *)

From Stdlib Require Import ZArith List Lia Bool.
From Stdlib Require Strings.String.
From Stdlib Require DecimalString HexadecimalString.
From coqutil Require Import Byte Word.LittleEndianList.
Import ListNotations.
Local Open Scope Z_scope.

(** ** Outcomes of a computation on raw memory *)

Inductive outcome (A : Type) : Type :=
| Done (a : A)
| Fault
| OutOfFuel.

Arguments Done {A} a.
Arguments Fault {A}.
Arguments OutOfFuel {A}.

Definition bind {A B : Type} (c : outcome A) (k : A -> outcome B) : outcome B :=
  match c with
  | Done a => k a
  | Fault => Fault
  | OutOfFuel => OutOfFuel
  end.

Notation "x <- c ;; k" := (bind c (fun x => k))
  (at level 61, c at next level, right associativity).
Notation "' p <- c ;; k" := (bind c (fun x => let p := x in k))
  (at level 61, p pattern, c at next level, right associativity).

(** ** Memory blocks *)

Definition mem := list byte.

Definition zeros (n : nat) : mem := repeat Byte.x00 n.

Definition in_bounds (m : mem) (off len : Z) : bool :=
  (0 <=? off) && (0 <=? len) && (off + len <=? Z.of_nat (length m)).

Definition mem_read (m : mem) (off len : Z) : outcome (list byte) :=
  if in_bounds m off len
  then Done (firstn (Z.to_nat len) (skipn (Z.to_nat off) m))
  else Fault.

Definition mem_write (m : mem) (off : Z) (bs : list byte) : outcome mem :=
  if in_bounds m off (Z.of_nat (length bs))
  then Done (firstn (Z.to_nat off) m ++ bs ++
             skipn (Z.to_nat off + length bs) m)
  else Fault.

(** [bzero(p, n)] *)
Definition bzero (m : mem) (off n : Z) : outcome mem :=
  if 0 <=? n then mem_write m off (zeros (Z.to_nat n)) else Fault.

(** [bcopy(src, dst, n)]: the regions may overlap, the source is read
    before the destination is written. *)
Definition bcopy (m : mem) (src dst n : Z) : outcome mem :=
  bs <- mem_read m src n ;;
  mem_write m dst bs.

(** ** Host integers *)

(** [_BYTE_ORDER] of the machine the code is compiled for. *)
Inductive byte_order := LittleEndian | BigEndian.

Definition wrap32 (z : Z) : Z := z mod 2 ^ 32.
Definition wrap64 (z : Z) : Z := z mod 2 ^ 64.

(** Conversion to [int]: two's complement wrap-around. *)
Definition to_int (z : Z) : Z :=
  let u := wrap32 z in if u <? 2 ^ 31 then u else u - 2 ^ 32.

(** Conversion to [unsigned]. *)
Definition to_uint (z : Z) : Z := wrap32 z.

Definition be_combine (bs : list byte) : Z := le_combine (rev bs).
Definition be_split (n : nat) (z : Z) : list byte := rev (le_split n z).

Definition native_combine (host : byte_order) (bs : list byte) : Z :=
  match host with
  | LittleEndian => le_combine bs
  | BigEndian => be_combine bs
  end.

Definition native_split (host : byte_order) (n : nat) (z : Z) : list byte :=
  match host with
  | LittleEndian => le_split n z
  | BigEndian => be_split n z
  end.

(** [be32dec(buf)] and a store of [htobe32(v)]. *)
Definition be32dec (m : mem) (off : Z) : outcome Z :=
  bs <- mem_read m off 4 ;; Done (be_combine bs).

Definition be32enc (m : mem) (off : Z) (v : Z) : outcome mem :=
  mem_write m off (be_split 4 v).

(** [*(unsigned * )p] and [*(unsigned * )p = v] in the host's byte order. *)
Definition load32 (host : byte_order) (m : mem) (off : Z) : outcome Z :=
  bs <- mem_read m off 4 ;; Done (native_combine host bs).

Definition store32 (host : byte_order) (m : mem) (off : Z) (v : Z) : outcome mem :=
  mem_write m off (native_split host 4 v).

(** [*(uint64_t * )p] and [*(uint64_t * )p = v]. *)
Definition load64 (host : byte_order) (m : mem) (off : Z) : outcome Z :=
  bs <- mem_read m off 8 ;; Done (native_combine host bs).

Definition store64 (host : byte_order) (m : mem) (off : Z) (v : Z) : outcome mem :=
  mem_write m off (native_split host 8 v).

Definition load8 (m : mem) (off : Z) : outcome byte :=
  bs <- mem_read m off 1 ;;
  match bs with b :: _ => Done b | [] => Fault end.

Definition store8 (m : mem) (off : Z) (v : Z) : outcome mem :=
  mem_write m off [byte.of_Z v].

(** [char] is a signed type (as on amd64 and i386). *)
Definition to_char (z : Z) : Z :=
  let u := z mod 2 ^ 8 in if u <? 2 ^ 7 then u else u - 2 ^ 8.

Definition to_short (z : Z) : Z :=
  let u := z mod 2 ^ 16 in if u <? 2 ^ 15 then u else u - 2 ^ 16.

Definition to_ushort (z : Z) : Z := z mod 2 ^ 16.

Definition to_int64 (z : Z) : Z :=
  let u := wrap64 z in if u <? 2 ^ 63 then u else u - 2 ^ 64.

Definition load16 (host : byte_order) (m : mem) (off : Z) : outcome Z :=
  bs <- mem_read m off 2 ;; Done (native_combine host bs).

Definition store16 (host : byte_order) (m : mem) (off : Z) (v : Z) : outcome mem :=
  mem_write m off (native_split host 2 v).

(** ** C strings

    A string argument is the list of the bytes at the pointer; the string
    ends at the first NUL byte, or at the end of the list, where the
    terminating NUL is. *)

Definition cstring := list byte.

Definition is_nul (b : byte) : bool :=
  match b with Byte.x00 => true | _ => false end.

Fixpoint cstr (s : cstring) : list byte :=
  match s with
  | [] => []
  | b :: t => if is_nul b then [] else b :: cstr t
  end.

Definition strlen (s : cstring) : Z := Z.of_nat (length (cstr s)).

(** The bytes in memory at a string argument: the list and its NUL. *)
Definition cstr_mem (s : cstring) : mem := s ++ [Byte.x00].

(** [strlcpy(dst, src, strlen(src) + 1)]: the string and its NUL. *)
Definition strlcpy (m : mem) (dst : Z) (src : cstring) : outcome mem :=
  mem_write m dst (cstr src ++ [Byte.x00]).

(** [memcmp(s1, s2, n)] on the bytes that start at [s1] and [s2]: bytes
    are compared in order up to the first difference; a byte that is
    needed and lies outside its block is a fault. *)
Fixpoint memcmp (s1 s2 : list byte) (n : Z) {struct s1} : outcome Z :=
  if n <=? 0 then Done 0
  else match s1, s2 with
       | a :: t1, b :: t2 =>
           if byte.unsigned a =? byte.unsigned b
           then memcmp t1 t2 (n - 1)
           else Done (byte.unsigned a - byte.unsigned b)
       | _, _ => Fault
       end.

(** ** The declarations of libzfs.h and zfsimpl.h *)

(** Modelled from the spec: the header that defines [NV_ALIGN4] is not
    part of the sources; section 4.4 gives it as 4-byte alignment, written
    here as the usual mask [(x + 3) & ~3]. *)
Definition NV_ALIGN4 (x : Z) : Z := Z.land (x + 3) (Z.lnot 3).

(** Modelled from the spec: the header that defines [NV_ALIGN] is not part
    of the sources; section 4.4 gives it as 8-byte alignment. *)
Definition NV_ALIGN (x : Z) : Z := Z.land (x + 7) (Z.lnot 7).

(** Modelled from the spec: sections 3.2 and 6.1 give the three constants
    of the absent header. *)
Definition NV_ENCODE_XDR : Z := 1.
Definition NV_VERSION : Z := 0.
Definition NV_UNIQUE_NAME : Z := 1.

(** [data_type_t]: the values are the indices of the [typenames] table of
    [nvlist_print]. *)
Definition DATA_TYPE_BOOLEAN : Z := 1.
Definition DATA_TYPE_BYTE : Z := 2.
Definition DATA_TYPE_INT16 : Z := 3.
Definition DATA_TYPE_UINT16 : Z := 4.
Definition DATA_TYPE_INT32 : Z := 5.
Definition DATA_TYPE_UINT32 : Z := 6.
Definition DATA_TYPE_INT64 : Z := 7.
Definition DATA_TYPE_UINT64 : Z := 8.
Definition DATA_TYPE_STRING : Z := 9.
Definition DATA_TYPE_NVLIST : Z := 19.
Definition DATA_TYPE_NVLIST_ARRAY : Z := 20.
Definition DATA_TYPE_BOOLEAN_VALUE : Z := 21.
Definition DATA_TYPE_INT8 : Z := 22.
Definition DATA_TYPE_UINT8 : Z := 23.

(** Error numbers of FreeBSD's errno.h. *)
Definition ENOENT : Z := 2.
Definition EIO : Z := 5.
Definition ENOMEM : Z := 12.
Definition EINVAL : Z := 22.
Definition ENOTSUP : Z := 45.

(** [nvp_header_t] is [{unsigned encoded_size; unsigned decoded_size}];
    [nvs_data_t] is [{unsigned nvl_version; unsigned nvl_nvflag;
    nvp_header_t nvl_pair}], as [nvlist_xdr_nvlist] and [nvlist_size]
    walk them. *)
Definition sizeof_unsigned : Z := 4.
Definition sizeof_nvp_header : Z := 8.
Definition sizeof_nvs_data : Z := 16.
Definition offsetof_nvl_nvflag : Z := 4.
Definition offsetof_nvl_pair : Z := 8.

(** [nv_string_t] is [{unsigned nv_size; uint8_t nv_data[]}];
    [nv_pair_data_t] is [{unsigned nv_type; unsigned nv_nelem;
    uint8_t nv_data[]}]. *)
Definition offsetof_string_data : Z := 4.
Definition offsetof_nv_nelem : Z := 4.
Definition offsetof_pair_data : Z := 8.

Record nvs_header_t := {
  nvh_encoding : byte;
  nvh_endian : byte;
  nvh_reserved1 : byte;
  nvh_reserved2 : byte
}.

(** The handle.  [nv_mem] is the memory block [nv_data] points into;
    [nv_data] and [nv_idx] are offsets into it, [None] is [NULL].  An
    owned list has [nv_data = Some 0] and a block of [nv_asize] bytes; a
    view returned by [nvlist_find] shares its parent's block. *)
Record nvlist_t := {
  nv_header : nvs_header_t;
  nv_asize : Z;
  nv_size : Z;
  nv_mem : mem;
  nv_data : option Z;
  nv_idx : option Z
}.

(** ** The allocator *)

(** [heap_plan] tells which of the coming requests are served ([true]);
    when it is used up every request is served.  [heap_live] counts the
    blocks handed out and not yet freed, [heap_junk] fills storage that
    [malloc] and [realloc] leave uninitialised. *)
Record heap := {
  heap_plan : list bool;
  heap_live : Z;
  heap_junk : byte
}.

Definition next_request (h : heap) : bool * list bool :=
  match heap_plan h with
  | [] => (true, [])
  | b :: t => (b, t)
  end.

(** [malloc] and [calloc]: whether the block was obtained. *)
Definition alloc (h : heap) : bool * heap :=
  let (ok, plan) := next_request h in
  (ok, {| heap_plan := plan;
          heap_live := if ok then heap_live h + 1 else heap_live h;
          heap_junk := heap_junk h |}).

(** [realloc] of a live block: the number of live blocks stays. *)
Definition realloc (h : heap) : bool * heap :=
  let (ok, plan) := next_request h in
  (ok, {| heap_plan := plan; heap_live := heap_live h; heap_junk := heap_junk h |}).

Definition free (h : heap) : heap :=
  {| heap_plan := heap_plan h; heap_live := heap_live h - 1; heap_junk := heap_junk h |}.

(** ** XDR primitives *)

Inductive xdr_op_t := XDR_OP_ENCODE | XDR_OP_DECODE.

(** A getter yields the value it stores through its second argument and
    its return value; a putter yields the memory and its return value.  A
    member that the initialiser leaves out is a null pointer. *)
Record xdr_t := {
  xdr_op : xdr_op_t;
  xdr_getint : option (mem -> Z -> outcome (Z * Z));
  xdr_putint : option (mem -> Z -> Z -> outcome (mem * Z));
  xdr_getuint : option (mem -> Z -> outcome (Z * Z));
  xdr_putuint : option (mem -> Z -> Z -> outcome (mem * Z))
}.

Definition call_get (f : option (mem -> Z -> outcome (Z * Z)))
    (m : mem) (buf : Z) : outcome (Z * Z) :=
  match f with Some g => g m buf | None => Fault end.

Definition call_put (f : option (mem -> Z -> Z -> outcome (mem * Z)))
    (m : mem) (buf : Z) (v : Z) : outcome (mem * Z) :=
  match f with Some g => g m buf v | None => Fault end.

Definition _getint (m : mem) (buf : Z) : outcome (Z * Z) :=
  v <- be32dec m buf ;; Done (to_int v, 4).

Definition _putint (m : mem) (buf : Z) (i : Z) : outcome (mem * Z) :=
  m' <- be32enc m buf i ;; Done (m', 4).

Definition _getuint (m : mem) (buf : Z) : outcome (Z * Z) :=
  v <- be32dec m buf ;; Done (to_uint v, 4).

Definition _putuint (m : mem) (buf : Z) (i : Z) : outcome (mem * Z) :=
  m' <- be32enc m buf i ;; Done (m', 4).

Section Host.

Variable host : byte_order.

(** Read native data without translation. *)
Definition mem_int (m : mem) (buf : Z) : outcome (Z * Z) :=
  v <- load32 host m buf ;; Done (to_int v, 4).

Definition mem_uint (m : mem) (buf : Z) : outcome (Z * Z) :=
  v <- load32 host m buf ;; Done (to_uint (to_int v), 4).

(** [xdr_int(xdr, buf, ip)]: [ip_val] is [*ip] at the call; the result is
    the memory, the return value and [*ip] at the return.  When decoding,
    the getter stores through [i = buf], so the word at [buf] becomes the
    host's representation of the value. *)
Definition xdr_int (x : xdr_t) (m : mem) (buf : Z) (ip_val : Z)
  : outcome (mem * Z * Z) :=
  match xdr_op x with
  | XDR_OP_ENCODE =>
      '(m1, rv) <- call_put (xdr_putint x) m buf ip_val ;;
      Done (m1, rv, ip_val)
  | XDR_OP_DECODE =>
      '(v, rv) <- call_get (xdr_getint x) m buf ;;
      m1 <- store32 host m buf v ;;
      Done (m1, rv, v)
  end.

Definition xdr_u_int (x : xdr_t) (m : mem) (buf : Z) (ip_val : Z)
  : outcome (mem * Z * Z) :=
  match xdr_op x with
  | XDR_OP_ENCODE =>
      '(m1, rv) <- call_put (xdr_putuint x) m buf ip_val ;;
      Done (m1, rv, ip_val)
  | XDR_OP_DECODE =>
      '(v, rv) <- call_get (xdr_getuint x) m buf ;;
      m1 <- store32 host m buf v ;;
      Done (m1, rv, v)
  end.

(** [xdr_short(xdr, buf, ip)] with [ip] a pointer into the memory. *)
Definition xdr_short (x : xdr_t) (m : mem) (buf : Z) (ip : Z)
  : outcome (mem * Z) :=
  s <- load16 host m ip ;;
  let i := to_short s in
  '(m1, rv, i1) <- xdr_int x m buf i ;;
  match xdr_op x with
  | XDR_OP_DECODE => m2 <- store16 host m1 ip i1 ;; Done (m2, rv)
  | XDR_OP_ENCODE => Done (m1, rv)
  end.

Definition xdr_u_short (x : xdr_t) (m : mem) (buf : Z) (ip : Z)
  : outcome (mem * Z) :=
  s <- load16 host m ip ;;
  let u := to_ushort s in
  '(m1, rv, u1) <- xdr_u_int x m buf u ;;
  match xdr_op x with
  | XDR_OP_DECODE => m2 <- store16 host m1 ip u1 ;; Done (m2, rv)
  | XDR_OP_ENCODE => Done (m1, rv)
  end.

(** [xdr_string(xdr, buf, s)] with [s] a pointer into the memory; the
    result is the memory and the size, an [int]. *)
Definition xdr_string (x : xdr_t) (m : mem) (buf : Z) (s : Z)
  : outcome (mem * Z) :=
  match xdr_op x with
  | XDR_OP_ENCODE =>
      n <- load32 host m s ;;
      let size := to_int n in
      '(m1, rv) <- call_put (xdr_putuint x) m s n ;;
      let size := to_int (size + rv) in
      Done (m1, to_int (NV_ALIGN4 size))
  | XDR_OP_DECODE =>
      '(v, rv) <- call_get (xdr_getuint x) m buf ;;
      m1 <- store32 host m s v ;;
      let size := rv in
      n <- load32 host m1 s ;;
      Done (m1, to_int (NV_ALIGN4 (to_uint (size + n))))
  end.

Definition xdr_int64 (x : xdr_t) (m : mem) (buf : Z) (lp : Z)
  : outcome (mem * Z) :=
  match xdr_op x with
  | XDR_OP_ENCODE =>
      l <- load64 host m lp ;;
      let hi := to_int (Z.shiftr (to_int64 l) 32) in
      let lo := to_uint (Z.land (to_int64 l) (2 ^ 32 - 1)) in
      '(m1, rv) <- call_put (xdr_putint x) m buf hi ;;
      '(m2, rv') <- call_put (xdr_putint x) m1 (buf + rv) (to_int lo) ;;
      Done (m2, rv + rv')
  | XDR_OP_DECODE =>
      '(hi, rv) <- call_get (xdr_getint x) m buf ;;
      '(lo, rv') <- call_get (xdr_getuint x) m (buf + rv) ;;
      m1 <- store64 host m lp (Z.lor (Z.shiftl hi 32) lo) ;;
      Done (m1, rv + rv')
  end.

Definition xdr_uint64 (x : xdr_t) (m : mem) (buf : Z) (lp : Z)
  : outcome (mem * Z) :=
  match xdr_op x with
  | XDR_OP_ENCODE =>
      l <- load64 host m lp ;;
      let hi := to_uint (Z.shiftr l 32) in
      let lo := to_uint (Z.land l (2 ^ 32 - 1)) in
      '(m1, rv) <- call_put (xdr_putint x) m buf (to_int hi) ;;
      '(m2, rv') <- call_put (xdr_putint x) m1 (buf + rv) (to_int lo) ;;
      Done (m2, rv + rv')
  | XDR_OP_DECODE =>
      '(hi, rv) <- call_get (xdr_getuint x) m buf ;;
      '(lo, rv') <- call_get (xdr_getuint x) m (buf + rv) ;;
      m1 <- store64 host m lp (Z.lor (Z.shiftl hi 32) lo) ;;
      Done (m1, rv + rv')
  end.

Definition xdr_char (x : xdr_t) (m : mem) (buf : Z) (cp : Z)
  : outcome (mem * Z) :=
  c <- load8 m cp ;;
  let i := to_char (byte.unsigned c) in
  '(m1, rv, i1) <- xdr_int x m buf i ;;
  match xdr_op x with
  | XDR_OP_DECODE => m2 <- store8 m1 cp i1 ;; Done (m2, rv)
  | XDR_OP_ENCODE => Done (m1, rv)
  end.

End Host.

(** ** The output of [printf] *)

Module Text.

Import Stdlib.Strings.String.

Local Open Scope string_scope.

Definition chars (s : string) : list byte := list_byte_of_string s.

(** The table [typenames] of [nvlist_print]. *)
Definition typenames : list (list byte) :=
  List.map chars
    ["DATA_TYPE_UNKNOWN"; "DATA_TYPE_BOOLEAN"; "DATA_TYPE_BYTE"; "DATA_TYPE_INT16";
     "DATA_TYPE_UINT16"; "DATA_TYPE_INT32"; "DATA_TYPE_UINT32"; "DATA_TYPE_INT64";
     "DATA_TYPE_UINT64"; "DATA_TYPE_STRING"; "DATA_TYPE_BYTE_ARRAY";
     "DATA_TYPE_INT16_ARRAY"; "DATA_TYPE_UINT16_ARRAY"; "DATA_TYPE_INT32_ARRAY";
     "DATA_TYPE_UINT32_ARRAY"; "DATA_TYPE_INT64_ARRAY"; "DATA_TYPE_UINT64_ARRAY";
     "DATA_TYPE_STRING_ARRAY"; "DATA_TYPE_HRTIME"; "DATA_TYPE_NVLIST";
     "DATA_TYPE_NVLIST_ARRAY"; "DATA_TYPE_BOOLEAN_VALUE"; "DATA_TYPE_INT8";
     "DATA_TYPE_UINT8"; "DATA_TYPE_BOOLEAN_ARRAY"; "DATA_TYPE_INT8_ARRAY";
     "DATA_TYPE_UINT8_ARRAY"].

Definition chars_uint64 : list byte := chars "DATA_TYPE_UINT64".
Definition chars_string : list byte := chars "DATA_TYPE_STRING".
Definition end_of_nvlist : list byte := chars "End of nvlist".
Definition open_bracket : list byte := chars " [".
Definition close_bracket : list byte := chars "] ".
Definition equals_hex : list byte := chars " = 0x".
Definition equals_quote : list byte := List.app (chars " = ") [Byte.x22].
Definition quote : list byte := [Byte.x22].
Definition newline : list byte := [Byte.x0a].
Definition space : list byte := chars " ".
Definition index_open : list byte := chars "[".
Definition index_close : list byte := chars "]".

(** [%d] and [%jx]. *)
Definition decimal (z : Z) : list byte :=
  chars (DecimalString.NilZero.string_of_int (Z.to_int z)).

Definition hexadecimal (z : Z) : list byte :=
  chars (HexadecimalString.NilZero.string_of_uint (N.to_hex_uint (Z.to_N z))).

End Text.

(** [n] times [printf(" ")]. *)
Definition spaces (n : Z) : list byte := repeat Byte.x20 (Z.to_nat n).

(** [%*s]: the string in a field of [width] characters; a negative width
    puts the string on the left. *)
Definition padded (width : Z) (s : list byte) : list byte :=
  if 0 <=? width then spaces (width - Z.of_nat (length s)) ++ s
  else s ++ spaces (- width - Z.of_nat (length s)).

(** [%.*s]: the bytes at the pointer up to the first NUL, and not more
    than the precision when it is not negative. *)
Fixpoint take_str (s : list byte) (n : nat) {struct n} : outcome (list byte) :=
  match n with
  | O => Done []
  | S n' =>
      match s with
      | [] => Fault
      | b :: t => if is_nul b then Done [] else r <- take_str t n' ;; Done (b :: r)
      end
  end.

Fixpoint until_nul (s : list byte) : outcome (list byte) :=
  match s with
  | [] => Fault
  | b :: t => if is_nul b then Done [] else r <- until_nul t ;; Done (b :: r)
  end.

(** [typenames[type]]; the table has 27 entries. *)
Definition typename (type : Z) : outcome (list byte) :=
  match nth_error Text.typenames (Z.to_nat type) with
  | Some s => Done s
  | None => Fault
  end.

(** ** nvlist management functions *)

Section Nvlist.

Variable host : byte_order.

(** [nvlist_destroy]: the data is freed if it was allocated by us, the
    handle is freed in any case ([free(NULL)] does nothing). *)
Definition nvlist_destroy (nvl : option nvlist_t) (h : heap) : heap :=
  match nvl with
  | Some l => free (if 0 <? nv_asize l then free h else h)
  | None => h
  end.

(** [nvstring_get(nvs)]: a block of [nv_size + 1] bytes is obtained, the
    bytes of the string are copied to it and a NUL is put behind them.
    [nvs] is the address of the [nv_string_t] in [m]; the result is the
    new block, or [None] for the null pointer. *)
Definition nvstring_get (m : mem) (nvs : Z) (h : heap)
  : outcome (option mem * heap) :=
  nv_size <- load32 host m nvs ;;
  let (got, h1) := alloc h in
  let s := repeat (heap_junk h) (Z.to_nat (to_uint (nv_size + 1))) in
  if negb got then Done (None, h1) else
  data <- mem_read m (nvs + offsetof_string_data) nv_size ;;
  s <- mem_write s 0 data ;;
  s <- store8 s nv_size 0 ;;
  Done (Some s, h1).

Definition NVH_ENDIAN : byte :=
  match host with LittleEndian => Byte.x01 | BigEndian => Byte.x00 end.

(** [nvlist_create]: an empty list, terminated by two zero words. *)
Definition nvlist_create (flag : Z) (h : heap) : outcome (option nvlist_t * heap) :=
  let (ok, h1) := alloc h in
  if negb ok then Done (None, h1) else
  let size := sizeof_nvs_data in
  let (ok, h2) := alloc h1 in
  if negb ok then Done (None, free h2) else
  let nvs := zeros (Z.to_nat size) in
  nvs <- store32 host nvs 0 NV_VERSION ;;
  nvs <- store32 host nvs offsetof_nvl_nvflag flag ;;
  Done (Some {| nv_header := {| nvh_encoding := byte.of_Z NV_ENCODE_XDR;
                                nvh_endian := NVH_ENDIAN;
                                nvh_reserved1 := Byte.x00;
                                nvh_reserved2 := Byte.x00 |};
                nv_asize := size;
                nv_size := size;
                nv_mem := nvs;
                nv_data := Some 0;
                nv_idx := None |}, h2).

(** The loop of [nvlist_size]; [p] is returned when a header has a zero
    word.  Every round moves [pair] forward, so the length of the block
    bounds the number of rounds. *)
Fixpoint nvlist_size_loop (fuel : nat) (x : xdr_t) (m : mem)
    (pair p encoded_size decoded_size : Z) : outcome Z :=
  if negb (encoded_size =? 0) && negb (decoded_size =? 0) then
    match fuel with
    | O => OutOfFuel
    | S fuel' =>
        let p := pair + encoded_size in
        let pair := p in
        '(encoded_size, rv) <- call_get (xdr_getuint x) m p ;;
        let p := p + rv in
        '(decoded_size, rv) <- call_get (xdr_getuint x) m p ;;
        let p := p + rv in
        nvlist_size_loop fuel' x m pair p encoded_size decoded_size
    end
  else Done p.

Definition nvlist_size (x : xdr_t) (m : mem) (stream : Z) : outcome Z :=
  let p := stream in
  let p := p + 2 * sizeof_unsigned in
  let pair := p in
  '(encoded_size, rv) <- call_get (xdr_getuint x) m p ;;
  let p := p + rv in
  '(decoded_size, rv) <- call_get (xdr_getuint x) m p ;;
  let p := p + rv in
  p <- nvlist_size_loop (length m) x m pair p encoded_size decoded_size ;;
  Done (to_int (p - stream)).

Definition xdrmem : xdr_t :=
  {| xdr_op := XDR_OP_DECODE;
     xdr_getint := Some (mem_int host);
     xdr_putint := None;
     xdr_getuint := Some (mem_uint host);
     xdr_putuint := None |}.

(** The header at [nvph] is translated: when encoding, the two words are
    read in the host's order and put at [idx]; when decoding they are got
    from the header and stored in it.  The result is the memory, the
    cursor and the two sizes. *)
Definition xdr_pair_header (x : xdr_t) (m : mem) (idx nvph : Z)
  : outcome (mem * Z * Z * Z) :=
  match xdr_op x with
  | XDR_OP_ENCODE =>
      encoded_size <- load32 host m nvph ;;
      decoded_size <- load32 host m (nvph + 4) ;;
      '(m, rv) <- call_put (xdr_putuint x) m idx encoded_size ;;
      let idx := idx + rv in
      '(m, rv) <- call_put (xdr_putuint x) m idx decoded_size ;;
      let idx := idx + rv in
      Done (m, idx, encoded_size, decoded_size)
  | XDR_OP_DECODE =>
      '(v, rv) <- call_get (xdr_getuint x) m nvph ;;
      m <- store32 host m nvph v ;;
      let idx := idx + rv in
      '(v, rv) <- call_get (xdr_getuint x) m (nvph + 4) ;;
      m <- store32 host m (nvph + 4) v ;;
      let idx := idx + rv in
      encoded_size <- load32 host m nvph ;;
      decoded_size <- load32 host m (nvph + 4) ;;
      Done (m, idx, encoded_size, decoded_size)
  end.

Definition is_type (type t : Z) : bool := type =? t.

(** [nvlist_xdr_nvlist], the loop over its pairs, [nvlist_xdr_nvp] and the
    loop of the latter over the lists of an array.  A stream can send
    the cursor backwards, so the walk is bounded by [fuel].  The results
    are the memory, [nv_idx] and the return value.  ([xdr_op_t] has the
    two operations only, so the [default] of the first [switch], which
    returns [EINVAL], has no counterpart.) *)
Fixpoint nvlist_xdr_nvlist (fuel : nat) (x : xdr_t) (m : mem) (data : Z)
    {struct fuel} : outcome (mem * Z * Z) :=
  match fuel with
  | O => OutOfFuel
  | S fuel' =>
      let idx := data in
      let nvph := data + offsetof_nvl_pair in
      '(m, idx) <-
        match xdr_op x with
        | XDR_OP_ENCODE =>
            v <- load32 host m data ;;
            '(m, rv) <- call_put (xdr_putuint x) m idx v ;;
            let idx := idx + rv in
            v <- load32 host m (data + offsetof_nvl_nvflag) ;;
            '(m, rv) <- call_put (xdr_putuint x) m idx v ;;
            Done (m, idx + rv)
        | XDR_OP_DECODE =>
            '(v, rv) <- call_get (xdr_getuint x) m idx ;;
            m <- store32 host m data v ;;
            let idx := idx + rv in
            '(v, rv) <- call_get (xdr_getuint x) m idx ;;
            m <- store32 host m (data + offsetof_nvl_nvflag) v ;;
            Done (m, idx + rv)
        end ;;
      '(m, idx, encoded_size, decoded_size) <-
        match xdr_op x with
        | XDR_OP_ENCODE => xdr_pair_header x m idx nvph
        | XDR_OP_DECODE =>
            '(v, rv) <- call_get (xdr_getuint x) m idx ;;
            m <- store32 host m nvph v ;;
            let idx := idx + rv in
            '(v, rv) <- call_get (xdr_getuint x) m idx ;;
            m <- store32 host m (nvph + 4) v ;;
            let idx := idx + rv in
            encoded_size <- load32 host m nvph ;;
            decoded_size <- load32 host m (nvph + 4) ;;
            Done (m, idx, encoded_size, decoded_size)
        end ;;
      nvlist_xdr_pairs fuel' x m idx encoded_size decoded_size
  end

with nvlist_xdr_pairs (fuel : nat) (x : xdr_t) (m : mem)
    (idx encoded_size decoded_size : Z) {struct fuel} : outcome (mem * Z * Z) :=
  if negb (encoded_size =? 0) && negb (decoded_size =? 0) then
    match fuel with
    | O => OutOfFuel
    | S fuel' =>
        '(m, idx, rv) <- nvlist_xdr_nvp fuel' x m idx ;;
        if negb (rv =? 0) then Done (m, idx, rv) else
        let nvph := idx in
        '(m, idx, encoded_size, decoded_size) <- xdr_pair_header x m idx nvph ;;
        nvlist_xdr_pairs fuel' x m idx encoded_size decoded_size
    end
  else Done (m, idx, 0)

with nvlist_xdr_nvp (fuel : nat) (x : xdr_t) (m : mem) (idx : Z)
    {struct fuel} : outcome (mem * Z * Z) :=
  match fuel with
  | O => OutOfFuel
  | S fuel' =>
      let nv_string := idx in
      '(m, size) <- xdr_string host x m nv_string nv_string ;;
      let idx := idx + size in
      let nvp_data := idx in
      type <- load32 host m nvp_data ;;
      nelem <- load32 host m (nvp_data + offsetof_nv_nelem) ;;
      '(m, rv, type) <- xdr_u_int host x m idx type ;;
      let idx := idx + rv in
      '(m, rv, nelem) <- xdr_u_int host x m idx nelem ;;
      let idx := idx + rv in
      let value := nvp_data + offsetof_pair_data in
      '(m, idx) <-
        if is_type type DATA_TYPE_NVLIST || is_type type DATA_TYPE_NVLIST_ARRAY then
          nvlist_xdr_array fuel' x m value idx 0 nelem
        else if is_type type DATA_TYPE_BOOLEAN then
          Done (m, idx)
        else if is_type type DATA_TYPE_BYTE || is_type type DATA_TYPE_INT8
                || is_type type DATA_TYPE_UINT8 then
          '(m, rv) <- xdr_char host x m value value ;; Done (m, idx + rv)
        else if is_type type DATA_TYPE_INT16 then
          '(m, rv) <- xdr_short host x m value value ;; Done (m, idx + rv)
        else if is_type type DATA_TYPE_UINT16 then
          '(m, rv) <- xdr_u_short host x m value value ;; Done (m, idx + rv)
        else if is_type type DATA_TYPE_BOOLEAN_VALUE || is_type type DATA_TYPE_INT32 then
          v <- load32 host m value ;;
          '(m, rv, _) <- xdr_int host x m value (to_int v) ;; Done (m, idx + rv)
        else if is_type type DATA_TYPE_UINT32 then
          v <- load32 host m value ;;
          '(m, rv, _) <- xdr_u_int host x m value v ;; Done (m, idx + rv)
        else if is_type type DATA_TYPE_INT64 then
          '(m, rv) <- xdr_int64 host x m value value ;; Done (m, idx + rv)
        else if is_type type DATA_TYPE_UINT64 then
          '(m, rv) <- xdr_uint64 host x m value value ;; Done (m, idx + rv)
        else if is_type type DATA_TYPE_STRING then
          '(m, size) <- xdr_string host x m value value ;; Done (m, idx + size)
        else Done (m, idx) ;;
      Done (m, idx, 0)
  end

with nvlist_xdr_array (fuel : nat) (x : xdr_t) (m : mem)
    (nvlist_data idx i nelem : Z) {struct fuel} : outcome (mem * Z) :=
  if i <? nelem then
    match fuel with
    | O => OutOfFuel
    | S fuel' =>
        _ <- match xdr_op x with
             | XDR_OP_ENCODE => nvlist_size xdrmem m nvlist_data
             | XDR_OP_DECODE => nvlist_size x m nvlist_data
             end ;;
        '(m, nvlist_idx, _) <- nvlist_xdr_nvlist fuel' x m nvlist_data ;;
        nvlist_xdr_array fuel' x m nvlist_idx nvlist_idx (i + 1) nelem
    end
  else Done (m, idx).

(** Export nvlist to byte stream format. *)
Definition xdr_encode : xdr_t :=
  {| xdr_op := XDR_OP_ENCODE;
     xdr_getint := None;
     xdr_putint := Some _putint;
     xdr_getuint := None;
     xdr_putuint := Some _putuint |}.

Definition xdr_decode : xdr_t :=
  {| xdr_op := XDR_OP_DECODE;
     xdr_getint := Some _getint;
     xdr_putint := None;
     xdr_getuint := Some _getuint;
     xdr_putuint := None |}.

Definition deref (p : option Z) : outcome Z :=
  match p with Some a => Done a | None => Fault end.

Definition nvlist_export (fuel : nat) (nvl : nvlist_t) : outcome (Z * nvlist_t) :=
  if negb (byte.unsigned (nvh_encoding (nv_header nvl)) =? NV_ENCODE_XDR)
  then Done (ENOTSUP, nvl)
  else
    data <- deref (nv_data nvl) ;;
    '(m, idx, rv) <- nvlist_xdr_nvlist fuel xdr_encode (nv_mem nvl) data ;;
    Done (rv, {| nv_header := nv_header nvl;
                 nv_asize := nv_asize nvl;
                 nv_size := nv_size nvl;
                 nv_mem := m;
                 nv_data := nv_data nvl;
                 nv_idx := Some idx |}).

(** The head of a stream as [nvlist_import] checks it, from left to right
    and no further than the first test that fails. *)
Definition check_head (stream : mem) : outcome bool :=
  b0 <- load8 stream 0 ;;
  if negb (byte.unsigned b0 =? NV_ENCODE_XDR) then Done false else
  b1 <- load8 stream 1 ;;
  if negb (byte.unsigned b1 =? 0) && negb (byte.unsigned b1 =? 1) then Done false else
  b2 <- load8 stream 2 ;;
  if negb (byte.unsigned b2 =? 0) then Done false else
  b3 <- load8 stream 3 ;;
  if negb (byte.unsigned b3 =? 0) then Done false else
  v <- be32dec stream 4 ;;
  if negb (v =? NV_VERSION) then Done false else
  f <- be32dec stream 8 ;;
  if negb (f =? NV_UNIQUE_NAME) then Done false else
  Done true.

(** Conversion of an [int] or of a pointer difference to [size_t]. *)
Definition to_size_t (z : Z) : Z := wrap64 z.

(** Import nvlist from byte stream: determine the stream size, allocate a
    private copy, then translate the data.  [stream] is the memory from
    the pointer on. *)
Definition nvlist_import (fuel : nat) (stream : mem) (h : heap)
  : outcome (option nvlist_t * heap) :=
  ok <- check_head stream ;;
  if negb ok then Done (None, h) else
  let (got, h1) := alloc h in
  if negb got then Done (None, h1) else
  b0 <- load8 stream 0 ;;
  b1 <- load8 stream 1 ;;
  b2 <- load8 stream 2 ;;
  b3 <- load8 stream 3 ;;
  size <- nvlist_size xdr_decode stream 4 ;;
  let size := to_size_t size in
  let (got, h2) := alloc h1 in
  if negb got then Done (None, free h2) else
  data <- mem_read stream 4 size ;;
  '(m, idx, rv) <- nvlist_xdr_nvlist fuel xdr_decode data 0 ;;
  if rv =? 0 then
    Done (Some {| nv_header := {| nvh_encoding := b0; nvh_endian := b1;
                                  nvh_reserved1 := b2; nvh_reserved2 := b3 |};
                  nv_asize := size;
                  nv_size := size;
                  nv_mem := m;
                  nv_data := Some 0;
                  nv_idx := Some 0 |}, h2)
  else Done (None, free (free h2)).

(** Subtraction in [size_t], for operands below [2 ^ 64]. *)
Definition size_sub (a b : Z) : Z :=
  if a <? b then a - b + 2 ^ 64 else a - b.

(** The bytes of a block from an address on. *)
Definition mem_from (m : mem) (off : Z) : list byte :=
  if 0 <=? off then skipn (Z.to_nat off) m else [].

(** The test of [nvlist_remove], [nvlist_find] and [nvlist_print] on the
    pair at [nvp]: the name is compared over the length of the stored name
    and then the type is compared.  Blocks come from [malloc], so an
    address is aligned as its offset is. *)
Definition pair_data_of (m : mem) (nvp : Z) : outcome Z :=
  let nvp_name := nvp + sizeof_nvp_header in
  name_size <- load32 host m nvp_name ;;
  Done (NV_ALIGN4 (nvp_name + offsetof_string_data + name_size)).

Definition pair_matches (m : mem) (nvp : Z) (name : cstring) (type : Z)
  : outcome bool :=
  let nvp_name := nvp + sizeof_nvp_header in
  name_size <- load32 host m nvp_name ;;
  nvp_data <- pair_data_of m nvp ;;
  c <- memcmp (mem_from m (nvp_name + offsetof_string_data)) (cstr_mem name) name_size ;;
  if c =? 0 then
    t <- load32 host m nvp_data ;;
    Done (t =? type)
  else Done false.

Definition set_data (nvl : nvlist_t) (m : mem) (size : Z) : nvlist_t :=
  {| nv_header := nv_header nvl;
     nv_asize := nv_asize nvl;
     nv_size := size;
     nv_mem := m;
     nv_data := nv_data nvl;
     nv_idx := nv_idx nvl |}.

(** The loop of [nvlist_remove]; every round moves [head] forward. *)
Fixpoint nvlist_remove_loop (fuel : nat) (nvl : nvlist_t) (data : Z)
    (name : cstring) (type : Z) (head : Z) : outcome (Z * nvlist_t) :=
  let m := nv_mem nvl in
  encoded_size <- load32 host m head ;;
  if encoded_size =? 0 then Done (ENOENT, nvl) else
  decoded_size <- load32 host m (head + 4) ;;
  if decoded_size =? 0 then Done (ENOENT, nvl) else
  match fuel with
  | O => OutOfFuel
  | S fuel' =>
      hit <- pair_matches m head name type ;;
      if hit then
        let tail := head + encoded_size in
        let size := size_sub (data + nv_size nvl) tail in
        m' <- bcopy m tail head size ;;
        Done (0, set_data nvl m' (size_sub (nv_size nvl) encoded_size))
      else
        nvlist_remove_loop fuel' nvl data name type (head + encoded_size)
  end.

(** Remove pair from this nvlist. *)
Definition nvlist_remove (nvl : option nvlist_t) (name : option cstring) (type : Z)
  : outcome (Z * option nvlist_t) :=
  match nvl, name with
  | Some l, Some n =>
      match nv_data l with
      | Some data =>
          '(rv, l') <- nvlist_remove_loop (length (nv_mem l)) l data n type
                         (data + offsetof_nvl_pair) ;;
          Done (rv, Some l')
      | None => Done (EINVAL, nvl)
      end
  | _, _ => Done (EINVAL, nvl)
  end.

(** What [nvlist_find] stores through [valuep] (and [sizep]). *)
Inductive nv_value :=
| ValUint64 (v : Z)
| ValString (p : Z) (size : Z)
| ValNvlist (l : nvlist_t).

(** The loop of [nvlist_find].  The result is the return value and what
    was stored through [elementsp] and [valuep]. *)
Fixpoint nvlist_find_loop (fuel : nat) (nvl : nvlist_t) (name : cstring)
    (type : Z) (nvp : Z) (h : heap)
  : outcome (Z * option Z * option nv_value * heap) :=
  let m := nv_mem nvl in
  encoded_size <- load32 host m nvp ;;
  if encoded_size =? 0 then Done (ENOENT, None, None, h) else
  decoded_size <- load32 host m (nvp + 4) ;;
  if decoded_size =? 0 then Done (ENOENT, None, None, h) else
  match fuel with
  | O => OutOfFuel
  | S fuel' =>
      hit <- pair_matches m nvp name type ;;
      if hit then
        nvp_data <- pair_data_of m nvp ;;
        nelem <- load32 host m (nvp_data + offsetof_nv_nelem) ;;
        let elements := Some (to_int nelem) in
        let value := nvp_data + offsetof_pair_data in
        t <- load32 host m nvp_data ;;
        if is_type t DATA_TYPE_UINT64 then
          v <- load64 host m value ;;
          Done (0, elements, Some (ValUint64 v), h)
        else if is_type t DATA_TYPE_STRING then
          size <- load32 host m value ;;
          Done (0, elements,
                Some (ValString (value + offsetof_string_data) (to_int size)), h)
        else if is_type t DATA_TYPE_NVLIST || is_type t DATA_TYPE_NVLIST_ARRAY then
          let (got, h1) := alloc h in
          if got then
            Done (0, elements,
                  Some (ValNvlist {| nv_header := nv_header nvl;
                                     nv_asize := 0;
                                     nv_size := 0;
                                     nv_mem := m;
                                     nv_data := Some value;
                                     nv_idx := None |}), h1)
          else Done (ENOMEM, elements, None, h1)
        else Done (EIO, elements, None, h)
      else
        nvlist_find_loop fuel' nvl name type (nvp + encoded_size) h
  end.

Definition nvlist_find (nvl : option nvlist_t) (name : option cstring) (type : Z)
    (h : heap) : outcome (Z * option Z * option nv_value * heap) :=
  match nvl, name with
  | Some l, Some n =>
      match nv_data l with
      | Some data =>
          nvlist_find_loop (length (nv_mem l)) l n type (data + offsetof_nvl_pair) h
      | None => Done (EINVAL, None, None, h)
      end
  | _, _ => Done (EINVAL, None, None, h)
  end.

(** The block after [realloc(p, n)]: the old bytes, then storage that is
    not initialised. *)
Definition resize_block (junk : byte) (m : mem) (n : Z) : mem :=
  firstn (Z.to_nat n) m ++ repeat junk (Z.to_nat n - length m).

(** The block is grown when the room after the used part is less than the
    pair and the new terminator: the [if] that [nvlist_add_uint64] and
    [nvlist_add_string] share.  The result is [ENOMEM] with the handle as
    it is, or [0] with the handle to write to.  [realloc] is given
    [nv_data], which has to be the start of the block. *)
Definition ensure_room (nvl : nvlist_t) (encoded_size : Z) (h : heap)
  : outcome (Z * nvlist_t * heap) :=
  if size_sub (nv_asize nvl) (nv_size nvl) <? to_uint (encoded_size + 8) then
    data <- deref (nv_data nvl) ;;
    if negb (data =? 0) then Fault else
    let (got, h1) := realloc h in
    if negb got then Done (ENOMEM, nvl, h1) else
    let asize := nv_asize nvl + encoded_size in
    Done (0, {| nv_header := nv_header nvl;
                nv_asize := asize;
                nv_size := nv_size nvl;
                nv_mem := resize_block (heap_junk h) (nv_mem nvl) asize;
                nv_data := nv_data nvl;
                nv_idx := nv_idx nvl |}, h1)
  else Done (0, nvl, h).

(** The first statement of both: under [NV_UNIQUE_NAME] a pair of the
    name and type is removed, and the result of the removal is ignored. *)
Definition unique_remove (nvl : nvlist_t) (name : cstring) (type : Z)
  : outcome nvlist_t :=
  data <- deref (nv_data nvl) ;;
  flag <- load32 host (nv_mem nvl) (data + offsetof_nvl_nvflag) ;;
  if negb (Z.land flag NV_UNIQUE_NAME =? 0) then
    '(_, r) <- nvlist_remove (Some nvl) (Some name) type ;;
    Done (match r with Some l => l | None => nvl end)
  else Done nvl.

Definition nvlist_add_uint64 (nvl : nvlist_t) (name : cstring) (value : Z)
    (h : heap) : outcome (Z * nvlist_t * heap) :=
  nvl <- unique_remove nvl name DATA_TYPE_UINT64 ;;
  let namelen := strlen name in
  let valuelen := 8 in
  let encoded_size :=
    to_uint (4 + 4 + 4 + NV_ALIGN4 namelen + 4 + 4 + 4 + NV_ALIGN (valuelen + 1)) in
  let decoded_size := to_uint (NV_ALIGN (4 * 4 + namelen + 1) + valuelen) in
  '(rv, nvl, h) <- ensure_room nvl encoded_size h ;;
  if negb (rv =? 0) then Done (rv, nvl, h) else
  data <- deref (nv_data nvl) ;;
  let idx := data + nv_size nvl - sizeof_nvp_header in
  m <- bzero (nv_mem nvl) idx (to_uint (encoded_size + 8)) ;;
  m <- store32 host m idx encoded_size ;;
  m <- store32 host m (idx + 4) decoded_size ;;
  let idx := idx + sizeof_nvp_header in
  m <- store32 host m idx namelen ;;
  let idx := idx + sizeof_unsigned in
  m <- strlcpy m idx name ;;
  let idx := idx + NV_ALIGN4 namelen in
  m <- store32 host m idx DATA_TYPE_UINT64 ;;
  let idx := idx + sizeof_unsigned in
  m <- store32 host m idx 1 ;;
  let idx := idx + sizeof_unsigned in
  m <- store64 host m idx value ;;
  Done (0, {| nv_header := nv_header nvl;
              nv_asize := nv_asize nvl;
              nv_size := nv_size nvl + encoded_size;
              nv_mem := m;
              nv_data := nv_data nvl;
              nv_idx := Some idx |}, h).

Definition nvlist_add_string (nvl : nvlist_t) (name : cstring) (value : cstring)
    (h : heap) : outcome (Z * nvlist_t * heap) :=
  nvl <- unique_remove nvl name DATA_TYPE_STRING ;;
  let namelen := strlen name in
  let valuelen := strlen value in
  let encoded_size :=
    to_uint (4 + 4 + 4 + NV_ALIGN4 namelen + 4 + 4 + 4 + NV_ALIGN (valuelen + 1)) in
  let decoded_size :=
    to_uint (NV_ALIGN (4 * 4 + namelen + 1) + NV_ALIGN (valuelen + 1)) in
  '(rv, nvl, h) <- ensure_room nvl encoded_size h ;;
  if negb (rv =? 0) then Done (rv, nvl, h) else
  data <- deref (nv_data nvl) ;;
  let idx := data + nv_size nvl - sizeof_nvp_header in
  m <- bzero (nv_mem nvl) idx (to_uint (encoded_size + 8)) ;;
  m <- store32 host m idx encoded_size ;;
  m <- store32 host m (idx + 4) decoded_size ;;
  let idx := idx + sizeof_nvp_header in
  m <- store32 host m idx namelen ;;
  let idx := idx + sizeof_unsigned in
  m <- strlcpy m idx name ;;
  let idx := idx + NV_ALIGN4 namelen in
  m <- store32 host m idx DATA_TYPE_STRING ;;
  let idx := idx + sizeof_unsigned in
  m <- store32 host m idx 1 ;;
  let idx := idx + sizeof_unsigned in
  m <- store32 host m idx valuelen ;;
  let idx := idx + sizeof_unsigned in
  m <- strlcpy m idx value ;;
  let idx := idx + NV_ALIGN4 valuelen in
  Done (0, {| nv_header := nv_header nvl;
              nv_asize := nv_asize nvl;
              nv_size := nv_size nvl + encoded_size;
              nv_mem := m;
              nv_data := nv_data nvl;
              nv_idx := Some idx |}, h).

(** The loop of [nvlist_next]. *)
Fixpoint nvlist_next_loop (fuel : nat) (m : mem) (nvp : Z) : outcome Z :=
  encoded_size <- load32 host m nvp ;;
  if encoded_size =? 0 then Done nvp else
  decoded_size <- load32 host m (nvp + 4) ;;
  if decoded_size =? 0 then Done nvp else
  match fuel with
  | O => OutOfFuel
  | S fuel' => nvlist_next_loop fuel' m (nvp + encoded_size)
  end.

(** Return the next nvlist in an nvlist array. *)
Definition nvlist_next (nvl : option nvlist_t) : outcome (Z * option nvlist_t) :=
  match nvl with
  | None => Done (EINVAL, nvl)
  | Some l =>
      match nv_data l with
      | None => Done (EINVAL, nvl)
      | Some data =>
          if negb (nv_asize l =? 0) then Done (EINVAL, nvl) else
          nvp <- nvlist_next_loop (length (nv_mem l)) (nv_mem l)
                   (data + offsetof_nvl_pair) ;;
          Done (0, Some {| nv_header := nv_header l;
                           nv_asize := nv_asize l;
                           nv_size := nv_size l;
                           nv_mem := nv_mem l;
                           nv_data := Some (nvp + sizeof_nvp_header);
                           nv_idx := nv_idx l |})
      end
  end.

(** ** The printer *)

Definition print_str (m : mem) (p : Z) (precision : Z) : outcome (list byte) :=
  if precision <? 0 then until_nul (mem_from m p)
  else take_str (mem_from m p) (Z.to_nat precision).

(** [nvlist_print(nvl, indent)] with [nvl->nv_data] at [data]: the
    characters that are written.  The [while] loop over the pairs and the
    [for] loop over the lists of an array are functions of their own. *)
Fixpoint nvlist_print (fuel : nat) (m : mem) (data : Z) (indent : Z)
    {struct fuel} : outcome (list byte) :=
  match fuel with
  | O => OutOfFuel
  | S fuel' =>
      out <- nvlist_print_pairs fuel' m (data + offsetof_nvl_pair) indent ;;
      Done (out ++ padded (to_int (indent + 13)) Text.end_of_nvlist ++ Text.newline)
  end

with nvlist_print_pairs (fuel : nat) (m : mem) (nvp : Z) (indent : Z)
    {struct fuel} : outcome (list byte) :=
  encoded_size <- load32 host m nvp ;;
  if encoded_size =? 0 then Done [] else
  decoded_size <- load32 host m (nvp + 4) ;;
  if decoded_size =? 0 then Done [] else
  match fuel with
  | O => OutOfFuel
  | S fuel' =>
      let nvp_name := nvp + sizeof_nvp_header in
      name_size <- load32 host m nvp_name ;;
      nvp_data <- pair_data_of m nvp ;;
      type <- load32 host m nvp_data ;;
      nelem <- load32 host m (nvp_data + offsetof_nv_nelem) ;;
      tn <- typename type ;;
      name <- print_str m (nvp_name + offsetof_string_data) (to_int name_size) ;;
      let head := spaces indent ++ tn ++ Text.open_bracket ++ Text.decimal (to_int nelem)
                  ++ Text.close_bracket ++ name in
      let value := nvp_data + offsetof_pair_data in
      tail <-
        (if is_type type DATA_TYPE_UINT64 then
           val <- load64 host m value ;;
           Done (Text.equals_hex ++ Text.hexadecimal val ++ Text.newline)
         else if is_type type DATA_TYPE_STRING then
           size <- load32 host m value ;;
           s <- print_str m (value + offsetof_string_data) (to_int size) ;;
           Done (Text.equals_quote ++ s ++ Text.quote ++ Text.newline)
         else if is_type type DATA_TYPE_NVLIST then
           out <- nvlist_print fuel' m value (to_uint (indent + 2)) ;;
           Done (Text.newline ++ out)
         else if is_type type DATA_TYPE_NVLIST_ARRAY then
           nvlist_print_array fuel' m value 0 nelem indent (tn ++ Text.space ++ name)
         else Done Text.newline) ;;
      rest <- nvlist_print_pairs fuel' m (nvp + encoded_size) indent ;;
      Done (head ++ tail ++ rest)
  end

with nvlist_print_array (fuel : nat) (m : mem) (data : Z) (j nelem : Z) (indent : Z)
    (label : list byte) {struct fuel} : outcome (list byte) :=
  if j <? nelem then
    match fuel with
    | O => OutOfFuel
    | S fuel' =>
        out <- nvlist_print fuel' m data (to_uint (indent + 2)) ;;
        let sep := if negb (j =? to_uint (nelem - 1)) then spaces indent ++ label else [] in
        size <- nvlist_size xdrmem m data ;;
        rest <- nvlist_print_array fuel' m (data + size) (to_uint (j + 1)) nelem indent label ;;
        Done (Text.index_open ++ Text.decimal (to_int j) ++ Text.index_close ++ Text.newline
              ++ out ++ sep ++ rest)
    end
  else Done [].

End Nvlist.

(** ** Streams, call sequences and the layout of a buffer *)

(** The byte stream of a list, as a caller stores it: the four bytes of
    the envelope header, then the used part of the buffer. *)
Definition header_bytes (hd : nvs_header_t) : list byte :=
  [nvh_encoding hd; nvh_endian hd; nvh_reserved1 hd; nvh_reserved2 hd].

Definition used_bytes (nvl : nvlist_t) : list byte :=
  firstn (Z.to_nat (nv_size nvl)) (nv_mem nvl).

Definition nvlist_stream (nvl : nvlist_t) : mem :=
  header_bytes (nv_header nvl) ++ used_bytes nvl.

(** Two handles hold the same list: all members but the scratch cursor
    [nv_idx] agree. *)
Definition same_nvlist (a b : nvlist_t) : Prop :=
  nv_header a = nv_header b /\ nv_asize a = nv_asize b /\
  nv_size a = nv_size b /\ nv_mem a = nv_mem b /\ nv_data a = nv_data b.

(** A call of the mutation API. *)
Inductive op :=
| AddUint64 (name : cstring) (value : Z)
| AddString (name : cstring) (value : cstring)
| Remove (name : cstring) (type : Z).

Definition op_name (o : op) : cstring :=
  match o with
  | AddUint64 n _ | AddString n _ | Remove n _ => n
  end.

(** The lengths are below [2 ^ 30], so that the 32-bit sizes of a pair do
    not wrap around. *)
Definition op_in_range (o : op) : Prop :=
  match o with
  | AddUint64 n _ => strlen n < 2 ^ 30
  | AddString n v => strlen n < 2 ^ 30 /\ strlen v < 2 ^ 30
  | Remove _ _ => True
  end.

Definition is_add (o : op) : Prop :=
  match o with Remove _ _ => False | _ => True end.

Section Calls.

Variable host : byte_order.

Definition run_op (o : op) (nvl : nvlist_t) (h : heap)
  : outcome (Z * nvlist_t * heap) :=
  match o with
  | AddUint64 n v => nvlist_add_uint64 host nvl n v h
  | AddString n v => nvlist_add_string host nvl n v h
  | Remove n t =>
      '(rv, r) <- nvlist_remove host (Some nvl) (Some n) t ;;
      Done (rv, match r with Some l => l | None => nvl end, h)
  end.

(** The calls are made in order, whatever each of them returns. *)
Fixpoint run_ops (ops : list op) (nvl : nvlist_t) (h : heap)
  : outcome (nvlist_t * heap) :=
  match ops with
  | [] => Done (nvl, h)
  | o :: rest =>
      '(_, nvl, h) <- run_op o nvl h ;;
      run_ops rest nvl h
  end.

(** The pairs of a list as values. *)
Inductive item_value :=
| ItemUint64 (v : Z)
| ItemString (s : list byte).

Record item := { item_name : list byte; item_val : item_value }.

Definition item_type (it : item) : Z :=
  match item_val it with
  | ItemUint64 _ => DATA_TYPE_UINT64
  | ItemString _ => DATA_TYPE_STRING
  end.

Definition item_namelen (it : item) : Z := Z.of_nat (length (item_name it)).

Definition item_valuelen (it : item) : Z :=
  match item_val it with
  | ItemUint64 _ => 8
  | ItemString s => Z.of_nat (length s)
  end.

(** The sizes that the add functions put in the header of a pair. *)
Definition item_encoded_size (it : item) : Z :=
  4 + 4 + 4 + NV_ALIGN4 (item_namelen it) + 4 + 4 +
  4 + NV_ALIGN (item_valuelen it + 1).

Definition item_decoded_size (it : item) : Z :=
  match item_val it with
  | ItemUint64 _ => NV_ALIGN (4 * 4 + item_namelen it + 1) + 8
  | ItemString s => NV_ALIGN (4 * 4 + item_namelen it + 1) +
                    NV_ALIGN (item_valuelen it + 1)
  end.

Definition item_payload (it : item) : list byte :=
  match item_val it with
  | ItemUint64 v => native_split host 8 v
  | ItemString s => native_split host 4 (Z.of_nat (length s)) ++ s
  end.

(** The bytes of a pair as the add functions leave them: header, name
    padded to a multiple of four, type, element count, value, and zero
    bytes up to [encoded_size]. *)
Definition pair_bytes (it : item) : list byte :=
  native_split host 4 (item_encoded_size it) ++
  native_split host 4 (item_decoded_size it) ++
  native_split host 4 (item_namelen it) ++
  item_name it ++
  zeros (Z.to_nat (NV_ALIGN4 (item_namelen it) - item_namelen it)) ++
  native_split host 4 (item_type it) ++
  native_split host 4 1 ++
  item_payload it ++
  zeros (Z.to_nat (item_encoded_size it - 20 - NV_ALIGN4 (item_namelen it))
         - length (item_payload it)).

Definition no_nul (s : list byte) : Prop := Forall (fun b => is_nul b = false) s.

Definition item_ok (it : item) : Prop :=
  no_nul (item_name it) /\ item_namelen it < 2 ^ 30 /\ item_valuelen it < 2 ^ 30.


Definition pairs_bytes (items : list item) : list byte :=
  concat (map pair_bytes items).

(** The buffer of an owned list holds the version, the flags, the pairs
    of [items] one after the other, the terminator of eight zero bytes,
    and room that is not used. *)
Definition laid_out (nvl : nvlist_t) (flag : Z) (items : list item) : Prop :=
  nv_data nvl = Some 0 /\
  nv_asize nvl = Z.of_nat (length (nv_mem nvl)) /\
  Forall item_ok items /\
  exists slack,
    nv_mem nvl = (native_split host 4 NV_VERSION ++ native_split host 4 flag ++
                  pairs_bytes items) ++ zeros 8 ++ slack /\
    nv_size nvl = sizeof_nvs_data + Z.of_nat (length (pairs_bytes items)).

(** [s] is the beginning of [t]. *)
Fixpoint prefixb (s t : list byte) : bool :=
  match s, t with
  | [], _ => true
  | a :: s', b :: t' => (byte.unsigned a =? byte.unsigned b) && prefixb s' t'
  | _ :: _, [] => false
  end.

(** The pair that [nvlist_remove] and [nvlist_find] take for [name] and
    [type]: the stored name is compared over its own length only. *)
Definition item_matches (name : cstring) (type : Z) (it : item) : bool :=
  prefixb (item_name it) (cstr name) && (item_type it =? type).

Fixpoint remove_first (f : item -> bool) (items : list item) : list item :=
  match items with
  | [] => []
  | it :: rest => if f it then rest else it :: remove_first f rest
  end.

(** The first pair that [f] takes, and the offset of its header. *)
Fixpoint first_match (f : item -> bool) (off : Z) (items : list item)
  : option (item * Z) :=
  match items with
  | [] => None
  | it :: rest =>
      if f it then Some (it, off)
      else first_match f (off + item_encoded_size it) rest
  end.

(** What [nvlist_find] gives for a pair whose header is at [off]. *)
Definition item_found (it : item) (off : Z) : nv_value :=
  match item_val it with
  | ItemUint64 v => ValUint64 (wrap64 v)
  | ItemString s =>
      ValString (off + 24 + NV_ALIGN4 (item_namelen it)) (Z.of_nat (length s))
  end.

(** The flags word of a list has [NV_UNIQUE_NAME]. *)
Definition unique_flag (flag : Z) : bool :=
  negb (Z.land (wrap32 flag) NV_UNIQUE_NAME =? 0).

(** The pairs that the first statement of an add function leaves. *)
Definition uniq (flag : Z) (name : cstring) (type : Z) (items : list item)
  : list item :=
  if unique_flag flag then remove_first (item_matches name type) items else items.

Definition uint64_item (name : cstring) (value : Z) : item :=
  {| item_name := cstr name; item_val := ItemUint64 value |}.

Definition string_item (name value : cstring) : item :=
  {| item_name := cstr name; item_val := ItemString (cstr value) |}.

(** What a call does to the pairs of a list; an add function that
    returns [ENOMEM] has done the removal only. *)
Inductive pairs_step (flag : Z) : op -> list item -> list item -> Prop :=
| step_add_uint64 name v items :
    pairs_step flag (AddUint64 name v) items
      (uniq flag name DATA_TYPE_UINT64 items ++ [uint64_item name v])
| step_add_uint64_nomem name v items :
    pairs_step flag (AddUint64 name v) items (uniq flag name DATA_TYPE_UINT64 items)
| step_add_string name v items :
    pairs_step flag (AddString name v) items
      (uniq flag name DATA_TYPE_STRING items ++ [string_item name v])
| step_add_string_nomem name v items :
    pairs_step flag (AddString name v) items (uniq flag name DATA_TYPE_STRING items)
| step_remove name type items :
    pairs_step flag (Remove name type) items
      (remove_first (item_matches name type) items).

Inductive pairs_steps (flag : Z) : list op -> list item -> list item -> Prop :=
| steps_nil items : pairs_steps flag [] items items
| steps_cons o ops items items1 items2 :
    pairs_step flag o items items1 ->
    pairs_steps flag ops items1 items2 ->
    pairs_steps flag (o :: ops) items items2.

(** No name of the calls is the beginning of another one. *)
Definition prefix_free (names : list cstring) : Prop :=
  forall a b, In a names -> In b names ->
    prefixb (cstr a) (cstr b) = true -> cstr a = cstr b.

Definition item_key (it : item) : list byte * Z := (item_name it, item_type it).

(** The pairs have distinct (name, type) keys and carry names of the calls. *)
Definition keys_unique (names : list cstring) (items : list item) : Prop :=
  NoDup (map item_key items) /\
  forall it, In it items -> exists n, In n names /\ item_name it = cstr n.

(** The encoded size of a pair as section 4.4 of the specification
    gives it, for a name of [N] bytes and a value of [V] bytes. *)
Definition spec_align4 (x : Z) : Z := 4 * ((x + 3) / 4).

Definition spec_encoded_size (N V : Z) : Z :=
  4 + 4 + 4 + spec_align4 N + 4 + 4 + spec_align4 V.

(** The pairs from the header at [nvp] on end with the terminator at
    [term]: every header before it has two words that are not zero, and
    its [encoded_size] leads to the next header. *)
Inductive list_ends (m : mem) : Z -> Z -> Prop :=
| ends_here nvp :
    mem_read m nvp 8 = Done (zeros 8) -> list_ends m nvp nvp
| ends_later nvp encoded_size decoded_size term :
    load32 host m nvp = Done encoded_size -> encoded_size <> 0 ->
    load32 host m (nvp + 4) = Done decoded_size -> decoded_size <> 0 ->
    list_ends m (nvp + encoded_size) term ->
    list_ends m nvp term.

Definition set_nv_data (nvl : nvlist_t) (data : option Z) : nvlist_t :=
  {| nv_header := nv_header nvl;
     nv_asize := nv_asize nvl;
     nv_size := nv_size nvl;
     nv_mem := nv_mem nvl;
     nv_data := data;
     nv_idx := nv_idx nvl |}.

(** An add function for pairs of [type] returns [ENOMEM] and leaves the
    handle [nvl']. *)
Definition add_returns_nomem (nvl : nvlist_t) (name : cstring) (type : Z)
    (nvl' : nvlist_t) : Prop :=
  (type = DATA_TYPE_UINT64 /\
   exists value h h', nvlist_add_uint64 host nvl name value h = Done (ENOMEM, nvl', h')) \/
  (type = DATA_TYPE_STRING /\
   exists value h h', nvlist_add_string host nvl name value h = Done (ENOMEM, nvl', h')).

(** The two getters that [nvlist_size] is called with. *)
Definition size_getter (x : xdr_t) : Prop := x = xdr_decode \/ x = xdrmem host.

End Calls.

(** ** Translations, getters and the pairs after a call *)

(** The two translations of [nvlist_export] and [nvlist_import]. *)
Definition xdr_codec (x : xdr_t) : Prop := x = xdr_encode \/ x = xdr_decode.

(** A getter that reads a word of the buffer as the host has it:
    [mem_uint] on every host, and [_getuint] on a big-endian one. *)
Definition reads_host_words (host : byte_order) (x : xdr_t) : Prop :=
  forall m p, call_get (xdr_getuint x) m p = (v <- load32 host m p ;; Done (v, 4)).

(** The pairs after a call that does not run out of memory, and after a
    sequence of such calls. *)
Definition pairs_after_op (flag : Z) (o : op) (items : list item) : list item :=
  match o with
  | AddUint64 n v => uniq flag n DATA_TYPE_UINT64 items ++ [uint64_item n v]
  | AddString n v => uniq flag n DATA_TYPE_STRING items ++ [string_item n v]
  | Remove n t => remove_first (item_matches n t) items
  end.

Definition pairs_after (flag : Z) (ops : list op) (items : list item) : list item :=
  fold_left (fun its o => pairs_after_op flag o its) ops items.

(** What [nvlist_find] gives after the call [o] when the name of [o] has
    one pair at most. *)
Definition found_after (host : byte_order) (o : op) (nvl : nvlist_t) (h : heap) : Prop :=
  match o with
  | AddUint64 n v =>
      nvlist_find host (Some nvl) (Some n) DATA_TYPE_UINT64 h
      = Done (0, Some 1, Some (ValUint64 (wrap64 v)), h)
  | AddString n v =>
      exists p,
        nvlist_find host (Some nvl) (Some n) DATA_TYPE_STRING h
        = Done (0, Some 1, Some (ValString p (strlen v)), h) /\
        load32 host (nv_mem nvl) (p - 4) = Done (strlen v) /\
        mem_read (nv_mem nvl) p (strlen v + 1) = Done (cstr v ++ [Byte.x00])
  | Remove n t =>
      nvlist_find host (Some nvl) (Some n) t h = Done (ENOENT, None, None, h)
  end.

(** The line of [nvlist_print] for a pair. *)
Definition item_line (indent : Z) (it : item) : list byte :=
  spaces indent ++
  match item_val it with
  | ItemUint64 v =>
      Text.chars_uint64 ++ Text.open_bracket ++ Text.decimal 1 ++ Text.close_bracket ++
      item_name it ++ Text.equals_hex ++ Text.hexadecimal (wrap64 v) ++ Text.newline
  | ItemString s =>
      Text.chars_string ++ Text.open_bracket ++ Text.decimal 1 ++ Text.close_bracket ++
      item_name it ++ Text.equals_quote ++ cstr s ++ Text.quote ++ Text.newline
  end.

(** ** The boot device of lib/libzfsbootenv/lzbe_device.c *)

Module Bootenv.

Import Stdlib.Strings.String.

(** The prefix that [strncmp(device, "zfs:", 4)] looks for. *)
Definition zfs_prefix : list byte := list_byte_of_string "zfs:".

Definition colon : byte := Byte.x3a.

End Bootenv.

(** What [lzbe_set_boot_device] does to the pair [OS_BOOTONCE] of the list
    it got from the pool. *)
Inductive bootonce_update :=
| BootonceRemove
| BootonceSet (value : list byte)
| BootonceKeep.

(** [device] is the argument, [None] for a null pointer; [asprintf_ok]
    tells whether [asprintf] returned a positive number.  A null or empty
    name removes the pair; a name that begins with "zfs:" is stored as it
    is, any other one as [zfs:<device>:]. *)
Definition lzbe_set_boot_device_update (device : option cstring) (asprintf_ok : bool)
  : bootonce_update :=
  match device with
  | None => BootonceRemove
  | Some d =>
      match cstr d with
      | [] => BootonceRemove
      | _ :: _ =>
          if prefixb Bootenv.zfs_prefix (cstr d) then BootonceSet (cstr d)
          else if asprintf_ok
               then BootonceSet (Bootenv.zfs_prefix ++ cstr d ++ [Bootenv.colon])
               else BootonceKeep
      end
  end.

(** What [lzbe_get_boot_device] stores through [device] for the value
    [val] of the pair: the prefix "zfs:" is skipped, the rest is
    duplicated, and a colon that ends it is cut off.  [val[len - 1]] with
    [len = 0] reads the byte before the block of [strdup].  The result
    is [None] when [strdup] returned a null pointer. *)
Definition lzbe_get_boot_device_name (val : cstring) (strdup_ok : bool)
  : outcome (option (list byte)) :=
  let v := cstr val in
  let v := if prefixb Bootenv.zfs_prefix v then skipn 4 v else v in
  if negb strdup_ok then Done None
  else match rev v with
       | [] => Fault
       | c :: r =>
           Done (Some (if byte.unsigned c =? byte.unsigned Bootenv.colon
                       then rev r else v))
       end.

(** ** Lists and calls used as examples *)

Module Examples.

Import Stdlib.Strings.String.

Definition chars (s : string) : cstring := list_byte_of_string s.

(** A heap that serves every request. *)
Definition heap0 : heap :=
  {| heap_plan := []; heap_live := 0; heap_junk := Byte.xa5 |}.

(** [heap0] after [nvlist_create]. *)
Definition heap2 : heap :=
  {| heap_plan := []; heap_live := 2; heap_junk := Byte.xa5 |}.

(** A heap that refuses the next request. *)
Definition heap_full : heap :=
  {| heap_plan := [false]; heap_live := 2; heap_junk := Byte.xa5 |}.

Definition version : cstring := chars "version".
Definition versionX : cstring := chars "versionX".
Definition bootonce : cstring := chars "freebsd:bootonce".
Definition tank : cstring := chars "zfs:tank:".
Definition k : cstring := chars "k".
Definition v : cstring := chars "v".

(** The handle that an outcome carries, and the empty handle when it
    carries none. *)
Definition no_list : nvlist_t :=
  {| nv_header := {| nvh_encoding := Byte.x00; nvh_endian := Byte.x00;
                     nvh_reserved1 := Byte.x00; nvh_reserved2 := Byte.x00 |};
     nv_asize := 0; nv_size := 0; nv_mem := []; nv_data := None; nv_idx := None |}.

Definition created (o : outcome (option nvlist_t * heap)) : nvlist_t :=
  match o with Done (Some l, _) => l | _ => no_list end.

Definition added (o : outcome (Z * nvlist_t * heap)) : nvlist_t :=
  match o with Done (_, l, _) => l | _ => no_list end.

Definition exported (o : outcome (Z * nvlist_t)) : nvlist_t :=
  match o with Done (_, l) => l | _ => no_list end.

(** Scenario 1 of the specification on a little-endian host. *)
Definition empty_list : nvlist_t :=
  created (nvlist_create LittleEndian NV_UNIQUE_NAME heap0).

Definition version_list : nvlist_t :=
  added (nvlist_add_uint64 LittleEndian empty_list version 1 heap0).

Definition bootenv_list : nvlist_t :=
  added (nvlist_add_string LittleEndian version_list bootonce tank heap0).

(** The stream of the list with the pair "version", and the same stream
    cut before its terminator; [adjacent_memory] is what may lie behind
    the cut stream in memory: a header and a terminator. *)
Definition version_stream : mem :=
  nvlist_stream (exported (nvlist_export LittleEndian 16 version_list)).

Definition truncated_stream : mem := firstn 60 version_stream.

Definition adjacent_memory : mem :=
  [Byte.x00; Byte.x00; Byte.x00; Byte.x08; Byte.x00; Byte.x00; Byte.x00; Byte.x01]
  ++ zeros 8.

(** Scenario 1 on a big-endian host. *)
Definition bootenv_list_be : nvlist_t :=
  added (nvlist_add_string BigEndian
           (added (nvlist_add_uint64 BigEndian
                     (created (nvlist_create BigEndian NV_UNIQUE_NAME heap0))
                     version 1 heap0))
           bootonce tank heap0).

(** A view as [nvlist_find] makes them, on the body of the list with the
    pair "version". *)
Definition version_view : nvlist_t :=
  {| nv_header := nv_header version_list;
     nv_asize := 0;
     nv_size := 0;
     nv_mem := nv_mem version_list;
     nv_data := Some 0;
     nv_idx := None |}.


Definition bootenv_calls : list op :=
  [AddUint64 version 1; AddString bootonce tank; Remove version DATA_TYPE_UINT64;
   AddUint64 version 2].


(** A list with a nested list "n" and an array "arr" of two lists, the
    second of which holds the boolean "b"; and a handle on it. *)
Definition word : Z -> list byte := native_split LittleEndian 4.

Definition nested_mem : mem :=
  word 0 ++ word 1 ++
  (word 40 ++ word 40 ++ word 1 ++ chars "n" ++ zeros 3 ++ word 19 ++ word 1 ++
     (word 0 ++ word 1 ++ zeros 8)) ++
  (word 80 ++ word 80 ++ word 3 ++ chars "arr" ++ zeros 1 ++ word 20 ++ word 2 ++
     (word 0 ++ word 1 ++ zeros 8) ++
     (word 0 ++ word 1 ++
        (word 24 ++ word 24 ++ word 1 ++ chars "b" ++ zeros 3 ++ word 1 ++ word 0) ++
        zeros 8)) ++
  zeros 8.

Definition nested_list : nvlist_t :=
  {| nv_header := nv_header empty_list;
     nv_asize := 136; nv_size := 136; nv_mem := nested_mem;
     nv_data := Some 0; nv_idx := None |}.

(** The view that [nvlist_find] gives for "n". *)
Definition nested_view : nvlist_t :=
  {| nv_header := nv_header empty_list;
     nv_asize := 0; nv_size := 0; nv_mem := nested_mem;
     nv_data := Some 32; nv_idx := None |}.

Definition heap1 : heap :=
  {| heap_plan := []; heap_live := 1; heap_junk := Byte.xa5 |}.

(** Scenario 1 as calls, and the list with the pair "version" on a
    big-endian host. *)
Definition scenario_calls : list op := [AddUint64 version 1; AddString bootonce tank].

Definition empty_list_be : nvlist_t :=
  created (nvlist_create BigEndian NV_UNIQUE_NAME heap0).

(** A block of eight bytes with the word 258 at offset 4 in XDR form. *)
Definition word_block : mem :=
  [Byte.x00; Byte.x00; Byte.x00; Byte.x00; Byte.x00; Byte.x00; Byte.x01; Byte.x02].

Definition dataset : cstring := chars "tank/ROOT/default".

(** [word_block] after [_putuint] of 258 at offset 0. *)
Definition word_written : mem :=
  [Byte.x00; Byte.x00; Byte.x01; Byte.x02; Byte.x00; Byte.x00; Byte.x01; Byte.x02].


Definition nested_name : cstring := chars "n".




End Examples.

(** * Properties *)

(** ** Memory blocks *)

Lemma len_zeros n : length (zeros n) = n.
Proof. apply repeat_length. Qed.

Lemma zeros_app a b : zeros (a + b) = zeros a ++ zeros b.
Proof. apply repeat_app. Qed.

Lemma in_bounds_true m off len :
  0 <= off -> 0 <= len -> off + len <= Z.of_nat (length m) -> in_bounds m off len = true.
Proof. intros. unfold in_bounds. rewrite !andb_true_iff, !Z.leb_le. lia. Qed.

Lemma in_bounds_inv m off len :
  in_bounds m off len = true -> 0 <= off /\ 0 <= len /\ off + len <= Z.of_nat (length m).
Proof. unfold in_bounds. rewrite !andb_true_iff, !Z.leb_le. lia. Qed.

Lemma mem_read_app_r a m off n :
  Z.of_nat (length a) <= off ->
  mem_read (a ++ m) off n = mem_read m (off - Z.of_nat (length a)) n.
Proof.
  intros H. unfold mem_read, in_bounds. rewrite length_app.
  replace (0 <=? off) with true by (symmetry; apply Z.leb_le; lia).
  replace (0 <=? off - Z.of_nat (length a)) with true by (symmetry; apply Z.leb_le; lia).
  replace (off - Z.of_nat (length a) + n <=? Z.of_nat (length m))
    with (off + n <=? Z.of_nat (length a + length m)).
  2:{ apply eq_true_iff_eq. rewrite !Z.leb_le. lia. }
  destruct (_ && _ && _); [|reflexivity].
  f_equal. f_equal.
  rewrite skipn_app.
  rewrite (skipn_all2 a) by lia. simpl.
  f_equal. lia.
Qed.

Lemma mem_read_app_l a c off n :
  0 <= off -> 0 <= n -> off + n <= Z.of_nat (length a) ->
  mem_read (a ++ c) off n = mem_read a off n.
Proof.
  intros. unfold mem_read. rewrite !in_bounds_true by (rewrite ?length_app; lia).
  f_equal. rewrite skipn_app, firstn_app.
  rewrite length_skipn.
  replace (Z.to_nat n - (length a - Z.to_nat off))%nat with 0%nat by lia.
  simpl. apply app_nil_r.
Qed.

Lemma mem_read_whole b : mem_read b 0 (Z.of_nat (length b)) = Done b.
Proof.
  unfold mem_read. rewrite in_bounds_true by lia. simpl.
  rewrite Nat2Z.id, firstn_all. reflexivity.
Qed.

Lemma mem_read_prefix b c n :
  n = Z.of_nat (length b) -> mem_read (b ++ c) 0 n = Done b.
Proof.
  intros ->. rewrite mem_read_app_l by lia. apply mem_read_whole.
Qed.

Lemma mem_read_here b c off n :
  off = 0 -> n = Z.of_nat (length b) -> mem_read (b ++ c) off n = Done b.
Proof. intros -> ->. apply mem_read_prefix. reflexivity. Qed.

Lemma mem_write_app_r a m off bs :
  Z.of_nat (length a) <= off ->
  mem_write (a ++ m) off bs =
  (m' <- mem_write m (off - Z.of_nat (length a)) bs ;; Done (a ++ m')).
Proof.
  intros H. unfold mem_write, in_bounds. rewrite length_app.
  replace (0 <=? off) with true by (symmetry; apply Z.leb_le; lia).
  replace (0 <=? off - Z.of_nat (length a)) with true by (symmetry; apply Z.leb_le; lia).
  replace (off - Z.of_nat (length a) + Z.of_nat (length bs) <=? Z.of_nat (length m))
    with (off + Z.of_nat (length bs) <=? Z.of_nat (length a + length m)).
  2:{ apply eq_true_iff_eq. rewrite !Z.leb_le. lia. }
  destruct (_ && _ && _); [|reflexivity].
  simpl. f_equal.
  rewrite firstn_app, skipn_app.
  rewrite (firstn_all2 a) by lia.
  rewrite (skipn_all2 a) by lia. simpl.
  rewrite <- !app_assoc. f_equal. f_equal; [f_equal; lia|].
  f_equal. f_equal. lia.
Qed.

Lemma mem_write_app_l a c off bs :
  0 <= off -> off + Z.of_nat (length bs) <= Z.of_nat (length a) ->
  mem_write (a ++ c) off bs = (a' <- mem_write a off bs ;; Done (a' ++ c)).
Proof.
  intros. unfold mem_write. rewrite !in_bounds_true by (rewrite ?length_app; lia).
  simpl. f_equal.
  rewrite firstn_app, skipn_app.
  replace (Z.to_nat off - length a)%nat with 0%nat by lia.
  replace (Z.to_nat off + length bs - length a)%nat with 0%nat by lia.
  simpl. rewrite app_nil_r, <- !app_assoc. reflexivity.
Qed.

Lemma mem_write_whole b bs :
  length bs = length b -> mem_write b 0 bs = Done bs.
Proof.
  intros H. unfold mem_write. rewrite in_bounds_true by lia. simpl.
  rewrite skipn_all2 by lia. rewrite app_nil_r. reflexivity.
Qed.

Lemma mem_write_length m off bs m' :
  mem_write m off bs = Done m' -> length m' = length m.
Proof.
  unfold mem_write. destruct (in_bounds m off _) eqn:E; [|discriminate].
  apply in_bounds_inv in E. intros [= <-].
  rewrite !length_app, length_firstn, length_skipn. lia.
Qed.

(** ** Host integers and alignment *)

Lemma length_native_split host n v : length (native_split host n v) = n.
Proof.
  destruct host; simpl; unfold be_split; rewrite ?length_rev; apply length_le_split.
Qed.

Lemma native_combine_split host n v :
  native_combine host (native_split host n v) = v mod 2 ^ (Z.of_nat n * 8).
Proof.
  destruct host; simpl; unfold be_combine, be_split;
    rewrite ?rev_involutive; apply le_combine_split.
Qed.

Lemma NV_ALIGN4_div x : NV_ALIGN4 x = 4 * ((x + 3) / 4).
Proof.
  unfold NV_ALIGN4. change 3 with (Z.ones 2) at 2.
  rewrite <- Z.ldiff_land, Z.ldiff_ones_r by lia.
  rewrite Z.shiftl_mul_pow2, Z.shiftr_div_pow2 by lia.
  change (2 ^ 2) with 4. lia.
Qed.

Lemma NV_ALIGN_div x : NV_ALIGN x = 8 * ((x + 7) / 8).
Proof.
  unfold NV_ALIGN. change 7 with (Z.ones 3) at 2.
  rewrite <- Z.ldiff_land, Z.ldiff_ones_r by lia.
  rewrite Z.shiftl_mul_pow2, Z.shiftr_div_pow2 by lia.
  change (2 ^ 3) with 8. lia.
Qed.

Lemma NV_ALIGN4_bounds x : x <= NV_ALIGN4 x < x + 4 /\ NV_ALIGN4 x mod 4 = 0.
Proof.
  rewrite NV_ALIGN4_div. split.
  - pose proof (Z.div_mod (x + 3) 4 ltac:(lia)).
    pose proof (Z.mod_pos_bound (x + 3) 4 ltac:(lia)). lia.
  - rewrite Z.mul_comm. apply Z.mod_mul. lia.
Qed.

Lemma NV_ALIGN_bounds x : x <= NV_ALIGN x < x + 8 /\ NV_ALIGN x mod 8 = 0.
Proof.
  rewrite NV_ALIGN_div. split.
  - pose proof (Z.div_mod (x + 7) 8 ltac:(lia)).
    pose proof (Z.mod_pos_bound (x + 7) 8 ltac:(lia)). lia.
  - rewrite Z.mul_comm. apply Z.mod_mul. lia.
Qed.

Lemma NV_ALIGN4_shift a x : a mod 4 = 0 -> NV_ALIGN4 (a + x) = a + NV_ALIGN4 x.
Proof.
  intros H. rewrite !NV_ALIGN4_div.
  apply Z.mod_divide in H; [|lia]. destruct H as [k ->].
  replace (k * 4 + x + 3) with (x + 3 + k * 4) by lia.
  rewrite Z.div_add by lia. lia.
Qed.

(** ** Moving and writing bytes *)

Lemma mem_from_app_r a m off :
  Z.of_nat (length a) <= off -> mem_from (a ++ m) off = mem_from m (off - Z.of_nat (length a)).
Proof.
  intros H. unfold mem_from.
  replace (0 <=? off) with true by (symmetry; apply Z.leb_le; lia).
  replace (0 <=? off - Z.of_nat (length a)) with true by (symmetry; apply Z.leb_le; lia).
  rewrite skipn_app, (skipn_all2 a) by lia. simpl. f_equal. lia.
Qed.

Lemma mem_from_0 m off : off = 0 -> mem_from m off = m.
Proof. intros ->. reflexivity. Qed.

Lemma bcopy_shift pre P R slack src n :
  src = Z.of_nat (length pre) + Z.of_nat (length P) ->
  n = Z.of_nat (length R) ->
  bcopy (pre ++ P ++ R ++ slack) src (Z.of_nat (length pre)) n
  = Done (pre ++ R ++ skipn (length R) (P ++ R ++ slack)).
Proof.
  intros -> ->. unfold bcopy.
  rewrite mem_read_app_r by lia. rewrite mem_read_app_r by lia.
  rewrite mem_read_here by lia. cbn [bind].
  rewrite mem_write_app_r by lia.
  replace (Z.of_nat (length pre) - Z.of_nat (length pre)) with 0 by lia.
  unfold mem_write. rewrite in_bounds_true by (rewrite ?length_app; lia).
  reflexivity.
Qed.

Lemma mem_write_at a b bs off :
  off = Z.of_nat (length a) -> (length bs <= length b)%nat ->
  mem_write (a ++ b) off bs = Done (a ++ bs ++ skipn (length bs) b).
Proof.
  intros -> H. rewrite mem_write_app_r, Z.sub_diag by lia.
  unfold mem_write. rewrite in_bounds_true by lia. reflexivity.
Qed.

Lemma write_fresh (done : list byte) (n : nat) tail (k : nat) bs off :
  off = Z.of_nat (length done + k) -> (k + length bs <= n)%nat ->
  mem_write (done ++ zeros n ++ tail) off bs =
  Done ((done ++ zeros k ++ bs) ++ zeros (n - k - length bs) ++ tail).
Proof.
  intros -> H.
  replace n with (k + (length bs + (n - k - length bs)))%nat at 1 by lia.
  rewrite !zeros_app, <- !app_assoc.
  rewrite (app_assoc done (zeros k)).
  rewrite mem_write_at by (rewrite ?length_app, ?len_zeros; lia).
  rewrite <- !app_assoc. do 3 f_equal.
  rewrite skipn_app, len_zeros, Nat.sub_diag.
  rewrite (skipn_all2 (zeros (length bs))) by (rewrite len_zeros; lia).
  reflexivity.
Qed.

Lemma strlcpy_fresh (done : list byte) (n : nat) tail s off :
  off = Z.of_nat (length done) -> (length s + 1 <= n)%nat ->
  mem_write (done ++ zeros n ++ tail) off (s ++ [Byte.x00]) =
  Done ((done ++ s) ++ zeros (n - length s) ++ tail).
Proof.
  intros -> H.
  rewrite (write_fresh done n tail 0) by (rewrite ?length_app; simpl; lia).
  f_equal. simpl. rewrite <- !app_assoc. do 2 f_equal.
  rewrite length_app. simpl.
  replace (n - 0 - (length s + 1))%nat with (n - length s - 1)%nat by lia.
  replace (n - length s)%nat with (S (n - length s - 1))%nat at 2 by lia.
  reflexivity.
Qed.

(** ** C strings *)

Lemma is_nul_unsigned b : is_nul b = (byte.unsigned b =? 0).
Proof. destruct b; reflexivity. Qed.

Lemma memcmp_zero s1 s2 : memcmp s1 s2 0 = Done 0.
Proof. destruct s1; reflexivity. Qed.

Lemma memcmp_cons a t1 b t2 n :
  0 < n ->
  memcmp (a :: t1) (b :: t2) n =
  if byte.unsigned a =? byte.unsigned b then memcmp t1 t2 (n - 1)
  else Done (byte.unsigned a - byte.unsigned b).
Proof.
  intros H. simpl. destruct (n <=? 0) eqn:E; [apply Z.leb_le in E; lia|reflexivity].
Qed.

Lemma memcmp_stored s : forall rest name,
  no_nul s ->
  exists c, memcmp (s ++ rest) (cstr_mem name) (Z.of_nat (length s)) = Done c /\
            (c =? 0) = prefixb s (cstr name).
Proof.
  induction s as [|a s IH]; intros rest name Hs.
  - exists 0. split; [apply memcmp_zero|reflexivity].
  - inversion Hs as [|? ? Ha Hs']; subst.
    rewrite is_nul_unsigned in Ha. apply Z.eqb_neq in Ha.
    unfold cstr_mem. destruct name as [|b name]; simpl app.
    + rewrite memcmp_cons by (simpl length; lia).
      change (byte.unsigned Byte.x00) with 0.
      destruct (byte.unsigned a =? 0) eqn:E; [apply Z.eqb_eq in E; lia|].
      eexists; split; [reflexivity|]. simpl.
      apply Z.eqb_neq. lia.
    + rewrite memcmp_cons by (simpl length; lia).
      simpl cstr. rewrite is_nul_unsigned.
      destruct (byte.unsigned a =? byte.unsigned b) eqn:E.
      * apply Z.eqb_eq in E.
        destruct (byte.unsigned b =? 0) eqn:Eb; [apply Z.eqb_eq in Eb; lia|].
        replace (Z.of_nat (length (a :: s)) - 1) with (Z.of_nat (length s))
          by (simpl length; lia).
        destruct (IH rest name Hs') as (c & Hc & Hp).
        exists c. split; [exact Hc|].
        simpl. rewrite E, Z.eqb_refl. simpl. exact Hp.
      * eexists; split; [reflexivity|].
        apply Z.eqb_neq in E.
        destruct (byte.unsigned b =? 0); simpl.
        -- apply Z.eqb_neq; lia.
        -- replace (byte.unsigned a =? byte.unsigned b) with false
             by (symmetry; apply Z.eqb_neq; lia).
           simpl. apply Z.eqb_neq. lia.
Qed.

Lemma cstr_no_nul s : no_nul (cstr s).
Proof.
  induction s as [|b s IH]; simpl; [constructor|].
  destruct (is_nul b) eqn:E; constructor; assumption.
Qed.

(** ** The layout of a buffer that the add functions have written *)

Ltac len_simpl :=
  rewrite ?length_app, ?length_native_split, ?len_zeros, ?length_cons.

Ltac lens :=
  rewrite ?length_app, ?length_native_split, ?len_zeros, ?length_cons;
  unfold sizeof_nvs_data, sizeof_nvp_header, sizeof_unsigned, strlen, item_namelen in *;
  cbn [length item_name] in *.

Section Layout.

Variable host : byte_order.

Lemma load32_skip a m off :
  Z.of_nat (length a) <= off ->
  load32 host (a ++ m) off = load32 host m (off - Z.of_nat (length a)).
Proof. intros. unfold load32. rewrite mem_read_app_r by assumption. reflexivity. Qed.

Lemma load32_here v m off :
  off = 0 -> load32 host (native_split host 4 v ++ m) off = Done (wrap32 v).
Proof.
  intros ->. unfold load32.
  rewrite mem_read_prefix by (rewrite length_native_split; reflexivity).
  simpl. rewrite native_combine_split. reflexivity.
Qed.

Lemma wrap32_small v : 0 <= v < 2 ^ 32 -> wrap32 v = v.
Proof. intros. unfold wrap32. apply Z.mod_small. assumption. Qed.

Lemma item_sizes it :
  item_ok it ->
  0 <= item_namelen it /\ 0 <= item_valuelen it /\
  24 <= item_encoded_size it < 2 ^ 31 + 64 /\ item_encoded_size it mod 4 = 0 /\
  0 < item_decoded_size it < 2 ^ 32 /\
  Z.of_nat (length (item_payload host it)) <= 4 + item_valuelen it.
Proof.
  intros (_ & Hn & Hv).
  assert (0 <= item_namelen it) by (unfold item_namelen; lia).
  assert (0 <= item_valuelen it) by (unfold item_valuelen; destruct (item_val it); lia).
  unfold item_encoded_size, item_decoded_size, item_payload.
  pose proof (NV_ALIGN4_bounds (item_namelen it)) as [? ?].
  pose proof (NV_ALIGN_bounds (item_valuelen it + 1)) as [? ?].
  pose proof (NV_ALIGN_bounds (4 * 4 + item_namelen it + 1)) as [? ?].
  change (2 ^ 30) with 1073741824 in *. change (2 ^ 31) with 2147483648.
  change (2 ^ 32) with 4294967296.
  repeat split; try lia.
  - rewrite Z.mod_divide in * by lia.
    match goal with H : (4 | _) |- _ => destruct H as [k Hk] end.
    match goal with H : (8 | NV_ALIGN (item_valuelen it + 1)) |- _ => destruct H as [j Hj] end.
    exists (6 + k + 2 * j). lia.
  - destruct (item_val it); lia.
  - destruct (item_val it); lia.
  - unfold item_valuelen. destruct (item_val it); rewrite ?length_app, ?length_native_split; lia.
Qed.

Lemma length_pair_bytes it :
  item_ok it -> Z.of_nat (length (pair_bytes host it)) = item_encoded_size it.
Proof.
  intros Hok. pose proof (item_sizes it Hok) as (? & ? & ? & ? & ? & ?).
  pose proof (NV_ALIGN4_bounds (item_namelen it)) as [? ?].
  pose proof (NV_ALIGN_bounds (item_valuelen it + 1)) as [? ?].
  unfold pair_bytes. rewrite !length_app, !length_native_split, !len_zeros.
  unfold item_namelen in *.
  assert (Z.of_nat (length (item_payload host it)) <=
          item_encoded_size it - 20 - NV_ALIGN4 (Z.of_nat (length (item_name it)))).
  { unfold item_encoded_size, item_namelen in *. lia. }
  lia.
Qed.

Lemma pair_fields it rest :
  item_ok it ->
  load32 host (pair_bytes host it ++ rest) 0 = Done (item_encoded_size it) /\
  load32 host (pair_bytes host it ++ rest) 4 = Done (item_decoded_size it) /\
  load32 host (pair_bytes host it ++ rest) 8 = Done (item_namelen it) /\
  (exists tl, mem_from (pair_bytes host it ++ rest) 12 = item_name it ++ tl) /\
  load32 host (pair_bytes host it ++ rest) (12 + NV_ALIGN4 (item_namelen it))
    = Done (item_type it).
Proof.
  intros Hok. pose proof (item_sizes it Hok) as (? & ? & ? & ? & ? & ?).
  pose proof (NV_ALIGN4_bounds (item_namelen it)) as [? ?].
  destruct Hok as (_ & Hn & _).
  change (2 ^ 30) with 1073741824 in *. change (2 ^ 31) with 2147483648 in *.
  unfold pair_bytes. rewrite <- !app_assoc.
  repeat split.
  - rewrite load32_here by reflexivity. f_equal. apply wrap32_small. lia.
  - rewrite load32_skip by (len_simpl; lia). len_simpl.
    rewrite load32_here by reflexivity. f_equal. apply wrap32_small. lia.
  - do 2 (rewrite load32_skip by (len_simpl; lia); len_simpl).
    rewrite load32_here by reflexivity. f_equal. apply wrap32_small. lia.
  - do 3 (rewrite mem_from_app_r by (len_simpl; lia); len_simpl).
    rewrite mem_from_0 by reflexivity. eexists. reflexivity.
  - unfold item_namelen in *.
    do 5 (rewrite load32_skip by (len_simpl; lia); len_simpl).
    rewrite load32_here by lia. f_equal. apply wrap32_small.
    unfold item_type. destruct (item_val it); cbv; split; congruence.
Qed.

Lemma pair_matches_laid pre it rest name type :
  item_ok it -> Z.of_nat (length pre) mod 4 = 0 ->
  pair_matches host (pre ++ pair_bytes host it ++ rest) (Z.of_nat (length pre)) name type
  = Done (item_matches name type it).
Proof.
  intros Hok Hal.
  destruct (pair_fields it rest Hok) as (_ & _ & Hn & (tl & Hname) & Ht).
  unfold pair_matches, pair_data_of, sizeof_nvp_header, offsetof_string_data.
  rewrite load32_skip by lia.
  replace (Z.of_nat (length pre) + 8 - Z.of_nat (length pre)) with 8 by lia.
  rewrite Hn. cbn [bind].
  rewrite mem_from_app_r by lia.
  replace (Z.of_nat (length pre) + 8 + 4 - Z.of_nat (length pre)) with 12 by lia.
  rewrite Hname.
  destruct (memcmp_stored (item_name it) tl name (proj1 Hok)) as (c & Hc & Hp).
  unfold item_namelen. rewrite Hc. cbn [bind].
  unfold item_matches. rewrite <- Hp.
  destruct (c =? 0); [|reflexivity].
  replace (Z.of_nat (length pre) + 8 + 4 + Z.of_nat (length (item_name it)))
    with (Z.of_nat (length pre) + (12 + Z.of_nat (length (item_name it)))) by lia.
  rewrite NV_ALIGN4_shift by assumption.
  rewrite (NV_ALIGN4_shift 12) by reflexivity.
  rewrite load32_skip by
    (pose proof (NV_ALIGN4_bounds (Z.of_nat (length (item_name it)))); lia).
  replace (Z.of_nat (length pre) + (12 + NV_ALIGN4 (Z.of_nat (length (item_name it))))
           - Z.of_nat (length pre))
    with (12 + NV_ALIGN4 (item_namelen it)) by (unfold item_namelen; lia).
  rewrite Ht. reflexivity.
Qed.

Lemma zeros8_split : zeros 8 = native_split host 4 0 ++ native_split host 4 0.
Proof. destruct host; reflexivity. Qed.

Lemma load32_zeros8 m off : off = 0 -> load32 host (zeros 8 ++ m) off = Done 0.
Proof.
  intros ->. rewrite zeros8_split, <- app_assoc. rewrite load32_here by reflexivity.
  reflexivity.
Qed.

Lemma nvlist_remove_loop_eq fuel nvl data name type head :
  nvlist_remove_loop host fuel nvl data name type head =
  let m := nv_mem nvl in
  encoded_size <- load32 host m head ;;
  if encoded_size =? 0 then Done (ENOENT, nvl) else
  decoded_size <- load32 host m (head + 4) ;;
  if decoded_size =? 0 then Done (ENOENT, nvl) else
  match fuel with
  | O => OutOfFuel
  | S fuel' =>
      hit <- pair_matches host m head name type ;;
      if hit then
        let tail := head + encoded_size in
        let size := size_sub (data + nv_size nvl) tail in
        m' <- bcopy m tail head size ;;
        Done (0, set_data nvl m' (size_sub (nv_size nvl) encoded_size))
      else
        nvlist_remove_loop host fuel' nvl data name type (head + encoded_size)
  end.
Proof. destruct fuel; reflexivity. Qed.

Lemma set_data_same nvl : set_data nvl (nv_mem nvl) (nv_size nvl) = nvl.
Proof. destruct nvl; reflexivity. Qed.

Lemma remove_loop_laid name type : forall items pre fuel nvl slack,
  nv_mem nvl = pre ++ pairs_bytes host items ++ zeros 8 ++ slack ->
  Z.of_nat (length pre) mod 4 = 0 ->
  nv_size nvl = Z.of_nat (length pre) + Z.of_nat (length (pairs_bytes host items)) + 8 ->
  Forall item_ok items -> (length items <= fuel)%nat ->
  exists rv slack',
    nvlist_remove_loop host fuel nvl 0 name type (Z.of_nat (length pre)) =
    Done (rv, set_data nvl
                (pre ++ pairs_bytes host (remove_first (item_matches name type) items)
                     ++ zeros 8 ++ slack')
                (Z.of_nat (length pre) +
                 Z.of_nat (length (pairs_bytes host (remove_first (item_matches name type) items)))
                 + 8)) /\
    length (pairs_bytes host (remove_first (item_matches name type) items) ++ zeros 8 ++ slack')
    = length (pairs_bytes host items ++ zeros 8 ++ slack) /\
    (rv = 0 \/ rv = ENOENT) /\
    (rv = 0 <-> existsb (item_matches name type) items = true).
Proof.
  induction items as [|it items IH]; intros pre fuel nvl slack Hm Hal Hsz Hok Hfuel.
  - exists ENOENT, slack. rewrite nvlist_remove_loop_eq. cbv zeta.
    change (pairs_bytes host []) with (@nil byte) in *.
    change (remove_first (item_matches name type) []) with (@nil item).
    change (pairs_bytes host []) with (@nil byte).
    rewrite app_nil_l in *.
    rewrite Hm at 1.
    rewrite load32_skip, Z.sub_diag, load32_zeros8 by lia. cbn [bind Z.eqb].
    rewrite <- Hm.
    replace (Z.of_nat (length pre) + Z.of_nat (length (@nil byte)) + 8)
      with (nv_size nvl) by lia.
    rewrite set_data_same. repeat split; try (right; reflexivity); try discriminate.
  - inversion Hok as [|? ? Hit Hok']; subst.
    destruct fuel as [|fuel]; [simpl in Hfuel; lia|].
    pose proof (item_sizes it Hit) as (? & ? & ? & ? & ? & ?).
    pose proof (length_pair_bytes it Hit) as Hlen.
    destruct (pair_fields it (pairs_bytes host items ++ zeros 8 ++ slack) Hit)
      as (Henc & Hdec & _).
    assert (Hm' : nv_mem nvl =
                  pre ++ pair_bytes host it ++ pairs_bytes host items ++ zeros 8 ++ slack).
    { rewrite Hm. unfold pairs_bytes. cbn [map concat].
      rewrite <- !app_assoc. reflexivity. }
    rewrite nvlist_remove_loop_eq. cbv zeta. rewrite Hm'.
    rewrite load32_skip, Z.sub_diag, Henc by lia. cbn [bind].
    destruct (item_encoded_size it =? 0) eqn:E0; [apply Z.eqb_eq in E0; lia|].
    rewrite load32_skip by lia.
    replace (Z.of_nat (length pre) + 4 - Z.of_nat (length pre)) with 4 by lia.
    rewrite Hdec. cbn [bind].
    destruct (item_decoded_size it =? 0) eqn:E1; [apply Z.eqb_eq in E1; lia|].
    rewrite pair_matches_laid by assumption. cbn [bind].
    assert (Hsz' : nv_size nvl = Z.of_nat (length pre) + item_encoded_size it
                   + Z.of_nat (length (pairs_bytes host items)) + 8).
    { rewrite Hsz. unfold pairs_bytes. cbn [map concat]. rewrite length_app. lia. }
    cbn [remove_first existsb].
    destruct (item_matches name type it) eqn:Ehit.
    + (* the pair is removed *)
      unfold size_sub.
      replace (0 + nv_size nvl <? Z.of_nat (length pre) + item_encoded_size it)
        with false by (symmetry; apply Z.ltb_ge; lia).
      replace (nv_size nvl <? item_encoded_size it)
        with false by (symmetry; apply Z.ltb_ge; lia).
      rewrite (app_assoc (pairs_bytes host items)).
      rewrite (bcopy_shift pre (pair_bytes host it) (pairs_bytes host items ++ zeros 8))
        by (rewrite ?length_app, ?len_zeros; lia).
      cbn [bind].
      exists 0. eexists. rewrite <- app_assoc. split; [|split; [|split]].
      * f_equal. f_equal. f_equal. lia.
      * rewrite !length_app, length_skipn, !length_app, !len_zeros. lia.
      * left; reflexivity.
      * split; reflexivity.
    + (* not our pair, skip to next *)
      specialize (IH (pre ++ pair_bytes host it) fuel nvl slack).
      rewrite length_app, Nat2Z.inj_add, Hlen in IH.
      destruct IH as (rv & slack' & Hrun & Hl & Hrv & Hex).
      * rewrite Hm'. rewrite <- app_assoc. reflexivity.
      * rewrite Z.add_mod, Hal by lia.
        replace (item_encoded_size it mod 4) with 0 by lia. reflexivity.
      * lia.
      * assumption.
      * simpl in Hfuel. lia.
      * exists rv, slack'. rewrite Hrun. split; [|split; [|split]].
        -- f_equal. f_equal. unfold pairs_bytes. cbn [map concat].
           rewrite <- !app_assoc.
           f_equal. rewrite !length_app. lia.
        -- unfold pairs_bytes in *. cbn [map concat]. rewrite <- !app_assoc.
           rewrite !length_app in *. lia.
        -- exact Hrv.
        -- simpl. exact Hex.
Qed.

Lemma length_items_le items :
  (length items <= length (pairs_bytes host items))%nat.
Proof.
  induction items as [|it items IH]; simpl; [lia|].
  unfold pairs_bytes in *. cbn [map concat]. rewrite length_app.
  unfold pair_bytes at 1. rewrite length_app, length_native_split. lia.
Qed.

Lemma Forall_remove_first {P : item -> Prop} f items :
  Forall P items -> Forall P (remove_first f items).
Proof.
  induction 1 as [|it items Hit Hok IH]; simpl; [constructor|].
  destruct (f it); [assumption|constructor; assumption].
Qed.

Lemma remove_laid_out nvl flag items name type :
  laid_out host nvl flag items ->
  exists rv nvl',
    nvlist_remove host (Some nvl) (Some name) type = Done (rv, Some nvl') /\
    laid_out host nvl' flag (remove_first (item_matches name type) items) /\
    nv_header nvl' = nv_header nvl /\ nv_asize nvl' = nv_asize nvl /\
    (rv = 0 \/ rv = ENOENT) /\
    (rv = 0 <-> existsb (item_matches name type) items = true).
Proof.
  intros (Hd & Ha & Hok & slack & Hm & Hs).
  unfold nvlist_remove. rewrite Hd.
  destruct (remove_loop_laid name type items
              (native_split host 4 NV_VERSION ++ native_split host 4 flag)
              (length (nv_mem nvl)) nvl slack)
    as (rv & slack' & Hrun & Hlen & Hrv & Hex).
  - rewrite Hm, <- !app_assoc. reflexivity.
  - rewrite length_app, !length_native_split. reflexivity.
  - rewrite length_app, !length_native_split. rewrite Hs. unfold sizeof_nvs_data. lia.
  - assumption.
  - rewrite Hm, !length_app. pose proof (length_items_le items). lia.
  - rewrite length_app, !length_native_split in Hrun.
    unfold offsetof_nvl_pair. change (0 + 8) with (Z.of_nat (4 + 4)).
    rewrite Hrun. cbn [bind].
    eexists _, _. split; [reflexivity|].
    split; [|repeat split; try assumption; apply Hex].
    unfold laid_out, set_data; cbn [nv_data nv_asize nv_mem nv_size].
    split; [assumption|]. split.
    + rewrite Ha, Hm. rewrite !length_app in *. lia.
    + split; [apply Forall_remove_first; assumption|].
      exists slack'. rewrite <- !app_assoc. split; [reflexivity|].
      unfold sizeof_nvs_data. lia.
Qed.

Lemma laid_flag nvl flag items :
  laid_out host nvl flag items ->
  load32 host (nv_mem nvl) (0 + offsetof_nvl_nvflag) = Done (wrap32 flag).
Proof.
  intros (_ & _ & _ & slack & Hm & _). rewrite Hm, <- !app_assoc.
  rewrite load32_skip by (rewrite length_native_split; cbv; congruence).
  rewrite load32_here by (rewrite length_native_split; reflexivity).
  reflexivity.
Qed.

Lemma unique_remove_laid_out nvl flag items name type :
  laid_out host nvl flag items ->
  exists nvl',
    unique_remove host nvl name type = Done nvl' /\
    laid_out host nvl' flag (uniq flag name type items) /\
    nv_header nvl' = nv_header nvl.
Proof.
  intros H. pose proof H as (Hd & _).
  unfold unique_remove, uniq, unique_flag. rewrite Hd. cbn [deref bind].
  rewrite (laid_flag _ _ _ H). cbn [bind].
  destruct (negb (Z.land (wrap32 flag) NV_UNIQUE_NAME =? 0)).
  - destruct (remove_laid_out nvl flag items name type H) as (rv & nvl' & Hr & Hl & Hh & _).
    rewrite Hr. cbn [bind]. exists nvl'. auto.
  - exists nvl. auto.
Qed.

Lemma ensure_room_laid_out nvl flag items enc h :
  laid_out host nvl flag items -> 0 <= enc -> enc + 8 < 2 ^ 32 ->
  exists rv nvl' h',
    ensure_room nvl enc h = Done (rv, nvl', h') /\
    ((rv = ENOMEM /\ nvl' = nvl) \/
     (rv = 0 /\ laid_out host nvl' flag items /\ nv_header nvl' = nv_header nvl /\
      nv_size nvl' + enc <= nv_asize nvl')).
Proof.
  intros (Hd & Ha & Hok & slack & Hm & Hs) H0 H1.
  assert (Hle : nv_size nvl <= nv_asize nvl).
  { rewrite Ha, Hs, Hm. rewrite !length_app, !length_native_split, len_zeros.
    unfold sizeof_nvs_data. lia. }
  unfold ensure_room, size_sub, to_uint.
  replace (nv_asize nvl <? nv_size nvl) with false by (symmetry; apply Z.ltb_ge; lia).
  rewrite wrap32_small by lia.
  destruct (nv_asize nvl - nv_size nvl <? enc + 8) eqn:E.
  - rewrite Hd. cbn [deref bind Z.eqb negb].
    unfold realloc. destruct (next_request h) as [got plan].
    destruct got; cbn [negb].
    + eexists _, _, _. split; [reflexivity|]. right.
      split; [reflexivity|]. cbn [nv_header nv_size nv_asize].
      split; [|split; [reflexivity|lia]].
      unfold laid_out; cbn [nv_data nv_asize nv_mem nv_size].
      assert (Hrs : resize_block (heap_junk h) (nv_mem nvl) (nv_asize nvl + enc)
                    = nv_mem nvl ++ repeat (heap_junk h) (Z.to_nat enc)).
      { unfold resize_block. rewrite firstn_all2 by lia. f_equal. f_equal. lia. }
      rewrite Hrs. split; [first [assumption|reflexivity]|]. split.
      * rewrite length_app, repeat_length. lia.
      * split; [assumption|]. exists (slack ++ repeat (heap_junk h) (Z.to_nat enc)).
        rewrite Hm, <- !app_assoc. split; [reflexivity|assumption].
    + eexists _, _, _. split; [reflexivity|]. left. split; reflexivity.
  - apply Z.ltb_ge in E.
    eexists _, _, _. split; [reflexivity|]. right.
    split; [reflexivity|]. split; [|split; [reflexivity|lia]].
    unfold laid_out. repeat split; try assumption. exists slack. split; assumption.
Qed.

Lemma pairs_bytes_snoc items it :
  pairs_bytes host (items ++ [it]) = pairs_bytes host items ++ pair_bytes host it.
Proof.
  unfold pairs_bytes. rewrite map_app, concat_app. cbn [map concat].
  rewrite app_nil_r. reflexivity.
Qed.

Lemma add_uint64_laid_out nvl flag items name v h :
  laid_out host nvl flag items -> strlen name < 2 ^ 30 ->
  exists rv nvl' h',
    nvlist_add_uint64 host nvl name v h = Done (rv, nvl', h') /\
    nv_header nvl' = nv_header nvl /\
    ((rv = 0 /\
      laid_out host nvl' flag
        (uniq flag name DATA_TYPE_UINT64 items ++ [uint64_item name v])) \/
     (rv = ENOMEM /\ laid_out host nvl' flag (uniq flag name DATA_TYPE_UINT64 items))).
Proof.
  intros Hl Hn. unfold uint64_item.
  set (it := {| item_name := cstr name; item_val := ItemUint64 v |}).
  assert (Hit : item_ok it).
  { split; [apply cstr_no_nul|]. split; [exact Hn|]. cbv; reflexivity. }
  pose proof (item_sizes it Hit) as (HN & HV & Henc & Henc4 & Hdec & Hpay).
  pose proof (NV_ALIGN4_bounds (item_namelen it)) as [HA4 _].
  pose proof (NV_ALIGN_bounds (item_valuelen it + 1)) as [HA8 _].
  assert (Hsum : item_encoded_size it =
                 24 + NV_ALIGN4 (item_namelen it) + NV_ALIGN (item_valuelen it + 1))
    by (unfold item_encoded_size; lia).
  change (item_valuelen it) with 8 in HA8, Hsum.
  change (item_namelen it) with (strlen name) in *.
  change (2 ^ 31) with 2147483648 in *. change (2 ^ 32) with 4294967296 in *.
  unfold nvlist_add_uint64.
  destruct (unique_remove_laid_out nvl flag items name DATA_TYPE_UINT64 Hl)
    as (nvl1 & Hu & Hl1 & Hh1).
  rewrite Hu. cbn [bind]. cbv zeta.
  change (4 + 4 + 4 + NV_ALIGN4 (strlen name) + 4 + 4 + 4 + NV_ALIGN (8 + 1))
    with (item_encoded_size it).
  change (NV_ALIGN (4 * 4 + strlen name + 1) + 8) with (item_decoded_size it).
  unfold to_uint. rewrite !wrap32_small by (change (2 ^ 32) with 4294967296; lia).
  destruct (ensure_room_laid_out nvl1 flag _ (item_encoded_size it) h Hl1)
    as (rv & nvl2 & h2 & Hroom & Hcase);
    [lia | change (2 ^ 32) with 4294967296; lia |].
  rewrite Hroom. cbn [bind].
  destruct Hcase as [[-> ->] | (-> & Hl2 & Hh2 & Hfit)].
  { cbn [negb Z.eqb ENOMEM]. eexists _, _, _. split; [reflexivity|].
    split; [assumption|]. right. split; [reflexivity|assumption]. }
  cbn [negb Z.eqb].
  destruct Hl2 as (Hd & Ha & Hok & slack & Hm & Hs).
  rewrite Hd. cbn [deref bind].
  set (body := native_split host 4 NV_VERSION ++ native_split host 4 flag ++
               pairs_bytes host (uniq flag name DATA_TYPE_UINT64 items)) in *.
  assert (Hbody : Z.of_nat (length body) = nv_size nvl2 - 8).
  { subst body. lens. lia. }
  assert (Hslack : item_encoded_size it <= Z.of_nat (length slack)).
  { rewrite Ha, Hm in Hfit. rewrite !length_app, len_zeros in Hfit. lia. }
  unfold bzero.
  replace (0 <=? item_encoded_size it + 8) with true by (symmetry; apply Z.leb_le; lia).
  rewrite Hm.
  rewrite mem_write_at by (lens; lia).
  cbn [bind]. unfold store32, store64, strlcpy.
  rewrite (write_fresh body _ _ 0) by (lens; lia). cbn [bind].
  rewrite (write_fresh _ _ _ 0) by (lens; lia). cbn [bind].
  rewrite (write_fresh _ _ _ 0) by (lens; lia). cbn [bind].
  rewrite strlcpy_fresh by (lens; lia). cbn [bind].
  rewrite (write_fresh _ _ _ (Z.to_nat (NV_ALIGN4 (strlen name) - strlen name)))
    by (lens; lia). cbn [bind].
  rewrite (write_fresh _ _ _ 0) by (lens; lia). cbn [bind].
  rewrite (write_fresh _ _ _ 0) by (lens; lia). cbn [bind].
  eexists _, _, _. split; [reflexivity|].
  cbn [nv_header]. split; [congruence|]. left. split; [reflexivity|].
  unfold laid_out; cbn [nv_data nv_asize nv_mem nv_size].
  split; [first [assumption|reflexivity]|]. split.
  { rewrite Ha, Hm. lens. rewrite length_skipn. lens. lia. }
  split. { apply Forall_app. split; [assumption|]. constructor; [exact Hit|constructor]. }
  eexists. split.
  - rewrite pairs_bytes_snoc. subst body. unfold pair_bytes.
    change (zeros 0) with (@nil byte). cbn [app].
    rewrite <- !app_assoc. do 11 f_equal.
    change (item_payload host it) with (native_split host 8 v).
    change (item_name it) with (cstr name).
    lens.
    match goal with |- zeros ?r ++ ?t = _ =>
      replace r with (Z.to_nat (item_encoded_size it - 20 -
                                NV_ALIGN4 (Z.of_nat (length (cstr name)))) - 8 + 8)%nat
        by lia
    end.
    rewrite zeros_app, <- app_assoc. reflexivity.
  - rewrite pairs_bytes_snoc, length_app, Nat2Z.inj_add, (length_pair_bytes it Hit).
    rewrite Hs. lia.
Qed.
Lemma add_string_laid_out nvl flag items name value h :
  laid_out host nvl flag items -> strlen name < 2 ^ 30 -> strlen value < 2 ^ 30 ->
  exists rv nvl' h',
    nvlist_add_string host nvl name value h = Done (rv, nvl', h') /\
    nv_header nvl' = nv_header nvl /\
    ((rv = 0 /\
      laid_out host nvl' flag
        (uniq flag name DATA_TYPE_STRING items ++ [string_item name value])) \/
     (rv = ENOMEM /\ laid_out host nvl' flag (uniq flag name DATA_TYPE_STRING items))).
Proof.
  intros Hl Hn Hv. unfold string_item.
  set (it := {| item_name := cstr name; item_val := ItemString (cstr value) |}).
  assert (Hit : item_ok it).
  { split; [apply cstr_no_nul|]. split; [exact Hn|exact Hv]. }
  pose proof (item_sizes it Hit) as (HN & HV & Henc & Henc4 & Hdec & Hpay).
  pose proof (NV_ALIGN4_bounds (item_namelen it)) as [HA4 _].
  pose proof (NV_ALIGN_bounds (item_valuelen it + 1)) as [HA8 _].
  assert (Hsum : item_encoded_size it =
                 24 + NV_ALIGN4 (item_namelen it) + NV_ALIGN (item_valuelen it + 1))
    by (unfold item_encoded_size; lia).
  change (item_valuelen it) with (strlen value) in *.
  change (item_namelen it) with (strlen name) in *.
  change (2 ^ 31) with 2147483648 in *. change (2 ^ 32) with 4294967296 in *.
  unfold nvlist_add_string.
  destruct (unique_remove_laid_out nvl flag items name DATA_TYPE_STRING Hl)
    as (nvl1 & Hu & Hl1 & Hh1).
  rewrite Hu. cbn [bind]. cbv zeta.
  change (4 + 4 + 4 + NV_ALIGN4 (strlen name) + 4 + 4 + 4 + NV_ALIGN (strlen value + 1))
    with (item_encoded_size it).
  change (NV_ALIGN (4 * 4 + strlen name + 1) + NV_ALIGN (strlen value + 1))
    with (item_decoded_size it).
  unfold to_uint. rewrite !wrap32_small by (change (2 ^ 32) with 4294967296; lia).
  destruct (ensure_room_laid_out nvl1 flag _ (item_encoded_size it) h Hl1)
    as (rv & nvl2 & h2 & Hroom & Hcase);
    [lia | change (2 ^ 32) with 4294967296; lia |].
  rewrite Hroom. cbn [bind].
  destruct Hcase as [[-> ->] | (-> & Hl2 & Hh2 & Hfit)].
  { cbn [negb Z.eqb ENOMEM]. eexists _, _, _. split; [reflexivity|].
    split; [assumption|]. right. split; [reflexivity|assumption]. }
  cbn [negb Z.eqb].
  destruct Hl2 as (Hd & Ha & Hok & slack & Hm & Hs).
  rewrite Hd. cbn [deref bind].
  set (body := native_split host 4 NV_VERSION ++ native_split host 4 flag ++
               pairs_bytes host (uniq flag name DATA_TYPE_STRING items)) in *.
  assert (Hbody : Z.of_nat (length body) = nv_size nvl2 - 8).
  { subst body. lens. lia. }
  assert (Hslack : item_encoded_size it <= Z.of_nat (length slack)).
  { rewrite Ha, Hm in Hfit. rewrite !length_app, len_zeros in Hfit. lia. }
  unfold bzero.
  replace (0 <=? item_encoded_size it + 8) with true by (symmetry; apply Z.leb_le; lia).
  rewrite Hm.
  rewrite mem_write_at by (lens; lia).
  cbn [bind]. unfold store32, store64, strlcpy.
  rewrite (write_fresh body _ _ 0) by (lens; lia). cbn [bind].
  rewrite (write_fresh _ _ _ 0) by (lens; lia). cbn [bind].
  rewrite (write_fresh _ _ _ 0) by (lens; lia). cbn [bind].
  rewrite strlcpy_fresh by (lens; lia). cbn [bind].
  rewrite (write_fresh _ _ _ (Z.to_nat (NV_ALIGN4 (strlen name) - strlen name)))
    by (lens; lia). cbn [bind].
  rewrite (write_fresh _ _ _ 0) by (lens; lia). cbn [bind].
  rewrite (write_fresh _ _ _ 0) by (lens; lia). cbn [bind].
  rewrite strlcpy_fresh by (lens; lia). cbn [bind].
  eexists _, _, _. split; [reflexivity|].
  cbn [nv_header]. split; [congruence|]. left. split; [reflexivity|].
  unfold laid_out; cbn [nv_data nv_asize nv_mem nv_size].
  split; [first [assumption|reflexivity]|]. split.
  { rewrite Ha, Hm. lens. rewrite length_skipn. lens. lia. }
  split. { apply Forall_app. split; [assumption|]. constructor; [exact Hit|constructor]. }
  eexists. split.
  - rewrite pairs_bytes_snoc. subst body. unfold pair_bytes.
    change (zeros 0) with (@nil byte). cbn [app].
    change (item_payload host it)
      with (native_split host 4 (Z.of_nat (length (cstr value))) ++ cstr value).
    change (item_name it) with (cstr name).
    rewrite <- !app_assoc. do 12 f_equal.
    lens.
    match goal with |- zeros ?r ++ ?t = _ =>
      replace r with (Z.to_nat (item_encoded_size it - 20 -
                                NV_ALIGN4 (Z.of_nat (length (cstr name))))
                      - (4 + length (cstr value)) + 8)%nat
        by lia
    end.
    rewrite zeros_app, <- app_assoc. reflexivity.
  - rewrite pairs_bytes_snoc, length_app, Nat2Z.inj_add, (length_pair_bytes it Hit).
    rewrite Hs. lia.
Qed.

End Layout.

(** ** Sequences of calls *)

Section Sequences.

Variable host : byte_order.

Lemma create_laid_out flag h nvl h' :
  nvlist_create host flag h = Done (Some nvl, h') ->
  laid_out host nvl flag [] /\ nv_size nvl = 16 /\ nv_asize nvl = 16.
Proof.
  unfold nvlist_create.
  destruct (alloc h) as [ok h1]. destruct ok; cbn [negb]; [|discriminate].
  destruct (alloc h1) as [ok h2]. destruct ok; cbn [negb]; [|discriminate].
  unfold store32, sizeof_nvs_data, offsetof_nvl_nvflag.
  change (zeros (Z.to_nat 16)) with (@nil byte ++ zeros 16 ++ @nil byte).
  rewrite (write_fresh [] 16 [] 0) by (rewrite ?length_native_split; simpl; lia).
  cbn [bind].
  rewrite (write_fresh _ _ [] 0) by (rewrite ?length_app, ?length_native_split; simpl; lia).
  cbn [bind]. intros [= <- <-].
  split; [|split; reflexivity].
  unfold laid_out; cbn [nv_data nv_asize nv_mem nv_size].
  rewrite !length_native_split. cbn [Nat.sub].
  change (zeros 0) with (@nil byte). cbn [app].
  split; [reflexivity|]. split.
  { rewrite !length_app, !length_native_split. reflexivity. }
  split; [constructor|]. exists [].
  unfold pairs_bytes. cbn [map concat].
  rewrite <- !app_assoc. split; reflexivity.
Qed.

Lemma run_op_refines o nvl flag items h :
  laid_out host nvl flag items -> op_in_range o ->
  exists rv nvl' h' items',
    run_op host o nvl h = Done (rv, nvl', h') /\
    laid_out host nvl' flag items' /\
    nv_header nvl' = nv_header nvl /\
    pairs_step flag o items items'.
Proof.
  intros Hl Hr. destruct o as [name v | name v | name type]; cbn [run_op op_in_range] in *.
  - destruct (add_uint64_laid_out host nvl flag items name v h Hl Hr)
      as (rv & nvl' & h' & Hrun & Hh & [[-> Hl'] | [-> Hl']]);
      eexists _, nvl', h', _; (split; [exact Hrun|]); (split; [exact Hl'|]);
      (split; [exact Hh|]); constructor.
  - destruct Hr as [Hn Hv].
    destruct (add_string_laid_out host nvl flag items name v h Hl Hn Hv)
      as (rv & nvl' & h' & Hrun & Hh & [[-> Hl'] | [-> Hl']]);
      eexists _, nvl', h', _; (split; [exact Hrun|]); (split; [exact Hl'|]);
      (split; [exact Hh|]); constructor.
  - destruct (remove_laid_out host nvl flag items name type Hl)
      as (rv & nvl' & Hrun & Hl' & Hh & _).
    rewrite Hrun. cbn [bind].
    eexists _, nvl', h, _. split; [reflexivity|]. split; [exact Hl'|].
    split; [exact Hh|]. constructor.
Qed.

Lemma run_ops_refines ops : forall nvl flag items h,
  laid_out host nvl flag items -> Forall op_in_range ops ->
  exists nvl' h' items',
    run_ops host ops nvl h = Done (nvl', h') /\
    laid_out host nvl' flag items' /\
    nv_header nvl' = nv_header nvl /\
    pairs_steps flag ops items items'.
Proof.
  induction ops as [|o ops IH]; intros nvl flag items h Hl Hr.
  - exists nvl, h, items. split; [reflexivity|]. split; [assumption|].
    split; [reflexivity|constructor].
  - inversion Hr as [|? ? Ho Hr']; subst.
    destruct (run_op_refines o nvl flag items h Hl Ho)
      as (rv & nvl1 & h1 & items1 & Hrun & Hl1 & Hh1 & Hs1).
    destruct (IH nvl1 flag items1 h1 Hl1 Hr')
      as (nvl2 & h2 & items2 & Hrun2 & Hl2 & Hh2 & Hs2).
    exists nvl2, h2, items2. cbn [run_ops]. rewrite Hrun. cbn [bind].
    split; [exact Hrun2|]. split; [exact Hl2|]. split; [congruence|].
    econstructor; eassumption.
Qed.

End Sequences.

(** ** The pairs of a buffer and their headers *)

Section Headers.

Variable host : byte_order.




End Headers.

(** ** Lookup in a buffer that the add functions have written *)

Section Find.

Variable host : byte_order.

Lemma load64_skip a m off :
  Z.of_nat (length a) <= off ->
  load64 host (a ++ m) off = load64 host m (off - Z.of_nat (length a)).
Proof. intros. unfold load64. rewrite mem_read_app_r by assumption. reflexivity. Qed.

Lemma load64_here v m off :
  off = 0 -> load64 host (native_split host 8 v ++ m) off = Done (wrap64 v).
Proof.
  intros ->. unfold load64.
  rewrite mem_read_prefix by (rewrite length_native_split; reflexivity).
  simpl. rewrite native_combine_split. reflexivity.
Qed.

Lemma pair_value_fields it rest :
  item_ok it ->
  load32 host (pair_bytes host it ++ rest) (12 + NV_ALIGN4 (item_namelen it) + 4)
  = Done 1 /\
  match item_val it with
  | ItemUint64 v =>
      load64 host (pair_bytes host it ++ rest) (12 + NV_ALIGN4 (item_namelen it) + 8)
      = Done (wrap64 v)
  | ItemString s =>
      load32 host (pair_bytes host it ++ rest) (12 + NV_ALIGN4 (item_namelen it) + 8)
      = Done (Z.of_nat (length s))
  end.
Proof.
  intros Hok. pose proof (item_sizes host it Hok) as (? & ? & ? & ? & ? & ?).
  pose proof (NV_ALIGN4_bounds (item_namelen it)) as [? ?].
  destruct Hok as (_ & Hn & Hv).
  change (2 ^ 30) with 1073741824 in *.
  unfold pair_bytes. rewrite <- !app_assoc. unfold item_namelen in *. split.
  - do 6 (rewrite load32_skip by (len_simpl; lia); len_simpl).
    rewrite load32_here by lia. reflexivity.
  - unfold item_payload, item_valuelen in *. destruct (item_val it) as [v|s].
    + do 7 (rewrite load64_skip by (len_simpl; lia); len_simpl).
      rewrite load64_here by lia. reflexivity.
    + rewrite <- !app_assoc.
      do 7 (rewrite load32_skip by (len_simpl; lia); len_simpl).
      rewrite load32_here by lia. f_equal. apply wrap32_small.
      change (2 ^ 32) with 4294967296. lia.
Qed.

Lemma to_int_small v : 0 <= v < 2 ^ 31 -> to_int v = v.
Proof.
  intros H. unfold to_int, wrap32.
  change (2 ^ 31) with 2147483648 in *. change (2 ^ 32) with 4294967296.
  rewrite Z.mod_small by lia.
  destruct (v <? 2147483648) eqn:E; [reflexivity|apply Z.ltb_ge in E; lia].
Qed.

Lemma find_loop_laid name type : forall items pre fuel nvl slack h,
  nv_mem nvl = pre ++ pairs_bytes host items ++ zeros 8 ++ slack ->
  Z.of_nat (length pre) mod 4 = 0 ->
  Forall item_ok items -> (length items <= fuel)%nat ->
  nvlist_find_loop host fuel nvl name type (Z.of_nat (length pre)) h =
  match first_match (item_matches name type) (Z.of_nat (length pre)) items with
  | Some (it, off) => Done (0, Some 1, Some (item_found it off), h)
  | None => Done (ENOENT, None, None, h)
  end.
Proof.
  induction items as [|it items IH]; intros pre fuel nvl slack h Hm Hal Hok Hfuel.
  - change (pairs_bytes host []) with (@nil byte) in Hm. rewrite app_nil_l in Hm.
    cbn [first_match].
    destruct fuel; cbn [nvlist_find_loop]; cbv zeta; rewrite Hm;
      rewrite load32_skip, Z.sub_diag, load32_zeros8 by lia; reflexivity.
  - inversion Hok as [|? ? Hit Hok']; subst.
    destruct fuel as [|fuel]; [simpl in Hfuel; lia|].
    pose proof (item_sizes host it Hit) as (? & ? & ? & ? & ? & ?).
    pose proof (length_pair_bytes host it Hit) as Hlen.
    pose proof (NV_ALIGN4_bounds (item_namelen it)) as [HA4 _].
    set (rest := pairs_bytes host items ++ zeros 8 ++ slack) in *.
    destruct (pair_fields host it rest Hit) as (Henc & Hdec & Hnl & _ & Hty).
    destruct (pair_value_fields it rest Hit) as (Hne & Hval).
    assert (Hm' : nv_mem nvl = pre ++ pair_bytes host it ++ rest).
    { rewrite Hm. unfold rest, pairs_bytes. cbn [map concat].
      rewrite <- !app_assoc. reflexivity. }
    cbn [nvlist_find_loop first_match]. cbv zeta. rewrite Hm'.
    rewrite load32_skip, Z.sub_diag, Henc by lia. cbn [bind].
    destruct (item_encoded_size it =? 0) eqn:E0; [apply Z.eqb_eq in E0; lia|].
    rewrite load32_skip by lia.
    replace (Z.of_nat (length pre) + 4 - Z.of_nat (length pre)) with 4 by lia.
    rewrite Hdec. cbn [bind].
    destruct (item_decoded_size it =? 0) eqn:E1; [apply Z.eqb_eq in E1; lia|].
    rewrite pair_matches_laid by assumption. cbn [bind].
    destruct (item_matches name type it) eqn:Ehit.
    + (* the pair is found *)
      unfold pair_data_of, sizeof_nvp_header, offsetof_string_data,
        offsetof_nv_nelem, offsetof_pair_data.
      rewrite load32_skip by lia.
      replace (Z.of_nat (length pre) + 8 - Z.of_nat (length pre)) with 8 by lia.
      rewrite Hnl. cbn [bind].
      replace (Z.of_nat (length pre) + 8 + 4 + item_namelen it)
        with (Z.of_nat (length pre) + (12 + item_namelen it)) by lia.
      rewrite NV_ALIGN4_shift by assumption.
      rewrite (NV_ALIGN4_shift 12) by reflexivity.
      rewrite load32_skip by lia.
      replace (Z.of_nat (length pre) + (12 + NV_ALIGN4 (item_namelen it)) + 4
               - Z.of_nat (length pre))
        with (12 + NV_ALIGN4 (item_namelen it) + 4) by lia.
      rewrite Hne. cbn [bind].
      rewrite load32_skip by lia.
      replace (Z.of_nat (length pre) + (12 + NV_ALIGN4 (item_namelen it))
               - Z.of_nat (length pre))
        with (12 + NV_ALIGN4 (item_namelen it)) by lia.
      rewrite Hty. cbn [bind].
      unfold item_found, item_type, item_valuelen in *.
      destruct Hit as (_ & _ & Hv). unfold item_valuelen in Hv.
      destruct (item_val it) as [v|s]; cbn [is_type]; unfold is_type.
      * change (DATA_TYPE_UINT64 =? DATA_TYPE_UINT64) with true. cbv iota.
        rewrite load64_skip by lia.
        replace (Z.of_nat (length pre) + (12 + NV_ALIGN4 (item_namelen it)) + 8
                 - Z.of_nat (length pre))
          with (12 + NV_ALIGN4 (item_namelen it) + 8) by lia.
        rewrite Hval. reflexivity.
      * change (DATA_TYPE_STRING =? DATA_TYPE_UINT64) with false.
        change (DATA_TYPE_STRING =? DATA_TYPE_STRING) with true. cbv iota.
        rewrite load32_skip by lia.
        replace (Z.of_nat (length pre) + (12 + NV_ALIGN4 (item_namelen it)) + 8
                 - Z.of_nat (length pre))
          with (12 + NV_ALIGN4 (item_namelen it) + 8) by lia.
        rewrite Hval. cbn [bind].
        change (2 ^ 30) with 1073741824 in Hv.
        rewrite !to_int_small by (change (2 ^ 31) with 2147483648; lia).
        unfold offsetof_string_data.
        match goal with
        | |- context [ValString ?p _] =>
            replace p with (Z.of_nat (length pre) + 24 + NV_ALIGN4 (item_namelen it))
              by lia
        end.
        reflexivity.
    + (* not our pair, skip to next *)
      specialize (IH (pre ++ pair_bytes host it) fuel nvl slack h).
      rewrite length_app, Nat2Z.inj_add, Hlen in IH.
      apply IH.
      * rewrite Hm'. unfold rest. rewrite <- app_assoc. reflexivity.
      * rewrite Z.add_mod, Hal by lia.
        replace (item_encoded_size it mod 4) with 0 by lia. reflexivity.
      * assumption.
      * simpl in Hfuel. lia.
Qed.

(** [nvlist_find] on a list that the add functions have written gives the
    first pair whose stored name is the beginning of the given name and
    whose type is the given type. *)
Lemma find_laid_out nvl flag items name type h :
  laid_out host nvl flag items ->
  nvlist_find host (Some nvl) (Some name) type h =
  match first_match (item_matches name type) 8 items with
  | Some (it, off) => Done (0, Some 1, Some (item_found it off), h)
  | None => Done (ENOENT, None, None, h)
  end.
Proof.
  intros (Hd & Ha & Hok & slack & Hm & Hs).
  unfold nvlist_find. rewrite Hd. unfold offsetof_nvl_pair.
  pose proof (find_loop_laid name type items
                (native_split host 4 NV_VERSION ++ native_split host 4 flag)
                (length (nv_mem nvl)) nvl slack h) as H.
  rewrite length_app, !length_native_split in H.
  apply H.
  - rewrite Hm, <- !app_assoc. reflexivity.
  - reflexivity.
  - assumption.
  - rewrite Hm, !length_app. pose proof (length_items_le host items). lia.
Qed.

End Find.

(** ** Names under [NV_UNIQUE_NAME] *)

Lemma prefixb_refl s : prefixb s s = true.
Proof. induction s as [|a s IH]; simpl; [reflexivity|]. rewrite Z.eqb_refl. exact IH. Qed.

Lemma In_remove_first f it items : In it (remove_first f items) -> In it items.
Proof.
  induction items as [|x items IH]; simpl; [tauto|].
  destruct (f x); simpl; [tauto|]. intros [H|H]; [left; exact H|right; apply IH, H].
Qed.

Lemma NoDup_remove_first f items :
  NoDup (map item_key items) -> NoDup (map item_key (remove_first f items)).
Proof.
  induction items as [|x items IH]; simpl; [tauto|].
  intros H. inversion H as [|? ? Hx Hn]; subst.
  destruct (f x); [exact Hn|]. simpl. constructor; [|apply IH, Hn].
  intros Hin. apply Hx. apply in_map_iff in Hin. destruct Hin as (y & Hy & Hin).
  apply in_map_iff. exists y. split; [exact Hy|]. eapply In_remove_first, Hin.
Qed.

Lemma remove_first_key f key items :
  NoDup (map item_key items) ->
  (forall it, In it items -> (f it = true <-> item_key it = key)) ->
  ~ In key (map item_key (remove_first f items)).
Proof.
  induction items as [|x items IH]; simpl; [tauto|].
  intros H Hf. inversion H as [|? ? Hx Hn]; subst.
  destruct (f x) eqn:E.
  - apply (Hf x (or_introl eq_refl)) in E. rewrite <- E. exact Hx.
  - simpl. intros [Hk|Hin].
    + apply (Hf x (or_introl eq_refl)) in Hk. congruence.
    + revert Hin. apply IH; [exact Hn|]. intros it Hit. apply Hf. right. exact Hit.
Qed.

Lemma uniq_keys_unique names flag name type items :
  unique_flag flag = true -> prefix_free names -> In name names ->
  keys_unique names items ->
  keys_unique names (uniq flag name type items) /\
  ~ In (cstr name, type) (map item_key (uniq flag name type items)).
Proof.
  intros Hu Hpf Hin (Hnd & Hnames). unfold uniq. rewrite Hu. split; [split|].
  - apply NoDup_remove_first, Hnd.
  - intros it Hit. apply Hnames. eapply In_remove_first, Hit.
  - apply remove_first_key; [exact Hnd|].
    intros it Hit. destruct (Hnames it Hit) as (n & Hn & Hname).
    unfold item_matches, item_key. split.
    + intros H. apply andb_true_iff in H. destruct H as [Hp Ht].
      apply Z.eqb_eq in Ht. rewrite Hname in *.
      rewrite (Hpf n name Hn Hin Hp). congruence.
    + intros [= -> ->]. rewrite prefixb_refl, Z.eqb_refl. reflexivity.
Qed.

Lemma keys_unique_snoc names items it n :
  keys_unique names items -> In n names -> item_name it = cstr n ->
  ~ In (item_key it) (map item_key items) ->
  keys_unique names (items ++ [it]).
Proof.
  intros (Hnd & Hnames) Hn Hname Hfresh. split.
  - rewrite map_app. simpl.
    apply NoDup_app; [exact Hnd|repeat constructor; simpl; tauto|].
    intros a Ha [<-|[]]. exact (Hfresh Ha).
  - intros x Hx. apply in_app_iff in Hx. destruct Hx as [Hx|[<-|[]]].
    + apply Hnames, Hx.
    + exists n. split; assumption.
Qed.

Lemma pairs_step_keys_unique names flag o items items' :
  unique_flag flag = true -> prefix_free names -> In (op_name o) names -> is_add o ->
  pairs_step flag o items items' ->
  keys_unique names items -> keys_unique names items'.
Proof.
  intros Hu Hpf Hin Hadd Hstep Hk.
  destruct Hstep as [name v items|name v items|name v items|name v items|name type items];
    cbn [op_name is_add] in *; try contradiction.
  - destruct (uniq_keys_unique names flag name DATA_TYPE_UINT64 items Hu Hpf Hin Hk)
      as (Hk' & Hfresh).
    eapply keys_unique_snoc; [exact Hk'|exact Hin|reflexivity|exact Hfresh].
  - apply (uniq_keys_unique names flag name DATA_TYPE_UINT64 items Hu Hpf Hin Hk).
  - destruct (uniq_keys_unique names flag name DATA_TYPE_STRING items Hu Hpf Hin Hk)
      as (Hk' & Hfresh).
    eapply keys_unique_snoc; [exact Hk'|exact Hin|reflexivity|exact Hfresh].
  - apply (uniq_keys_unique names flag name DATA_TYPE_STRING items Hu Hpf Hin Hk).
Qed.

Lemma pairs_steps_keys_unique names flag ops : forall items items',
  unique_flag flag = true -> prefix_free names ->
  (forall o, In o ops -> In (op_name o) names) -> Forall is_add ops ->
  pairs_steps flag ops items items' ->
  keys_unique names items -> keys_unique names items'.
Proof.
  induction ops as [|o ops IH]; intros items items' Hu Hpf Hin Hadd Hsteps Hk.
  - inversion Hsteps; subst. exact Hk.
  - inversion Hsteps as [|? ? ? items1 ? Hstep Hrest]; subst.
    inversion Hadd as [|? ? Ho Hadd']; subst.
    apply (IH items1 items' Hu Hpf); try assumption.
    + intros o' Ho'. apply Hin. right. exact Ho'.
    + eapply pairs_step_keys_unique; try eassumption. apply Hin. left. reflexivity.
Qed.

(** ** Allocation failures *)

Lemma bind_Done {A B} (c : outcome A) (k : A -> outcome B) r :
  bind c k = Done r -> exists a, c = Done a /\ k a = Done r.
Proof. destruct c; simpl; intros H; try discriminate. exists a. auto. Qed.

Ltac bind_inv H :=
  let a := fresh "a" in
  let E := fresh "E" in
  apply bind_Done in H; destruct H as (a & E & H).

Lemma ensure_room_nomem nvl enc h rv nvl' h' :
  ensure_room nvl enc h = Done (rv, nvl', h') ->
  (rv = ENOMEM /\ nvl' = nvl) \/ rv = 0.
Proof.
  unfold ensure_room. destruct (_ <? _); [|intros [= <- <- <-]; right; reflexivity].
  destruct (nv_data nvl) as [data|]; cbn [deref bind]; [|discriminate].
  destruct (negb (data =? 0)); [discriminate|].
  destruct (realloc h) as [got h1]. destruct got; cbn [negb].
  - intros [= <- <- <-]. right. reflexivity.
  - intros [= <- <- <-]. left. split; reflexivity.
Qed.

Section NoMemory.

Variable host : byte_order.

Lemma remove_loop_miss fuel : forall nvl data name type head rv nvl',
  nvlist_remove_loop host fuel nvl data name type head = Done (rv, nvl') ->
  rv <> 0 -> nvl' = nvl.
Proof.
  induction fuel as [|fuel IH]; intros nvl data name type head rv nvl' H Hrv;
    rewrite nvlist_remove_loop_eq in H; cbv zeta in H.
  - bind_inv H. destruct (a =? 0); [congruence|].
    bind_inv H. destruct (a0 =? 0); [congruence|discriminate].
  - bind_inv H. destruct (a =? 0); [congruence|].
    bind_inv H. destruct (a0 =? 0); [congruence|].
    bind_inv H. destruct a1.
    + bind_inv H. injection H as <- <-. congruence.
    + eapply IH; eassumption.
Qed.

Lemma add_uint64_nomem nvl name value h nvl' h' :
  nvlist_add_uint64 host nvl name value h = Done (ENOMEM, nvl', h') ->
  unique_remove host nvl name DATA_TYPE_UINT64 = Done nvl'.
Proof.
  unfold nvlist_add_uint64. intros H. bind_inv H. rewrite E. cbv zeta in H.
  bind_inv H. destruct a0 as [[rv nvl2] h2].
  destruct (ensure_room_nomem _ _ _ _ _ _ E0) as [[-> ->]| ->].
  - cbn [negb Z.eqb ENOMEM] in H. congruence.
  - cbn [negb Z.eqb] in H. repeat bind_inv H. discriminate.
Qed.

Lemma add_string_nomem nvl name value h nvl' h' :
  nvlist_add_string host nvl name value h = Done (ENOMEM, nvl', h') ->
  unique_remove host nvl name DATA_TYPE_STRING = Done nvl'.
Proof.
  unfold nvlist_add_string. intros H. bind_inv H. rewrite E. cbv zeta in H.
  bind_inv H. destruct a0 as [[rv nvl2] h2].
  destruct (ensure_room_nomem _ _ _ _ _ _ E0) as [[-> ->]| ->].
  - cbn [negb Z.eqb ENOMEM] in H. congruence.
  - cbn [negb Z.eqb] in H. repeat bind_inv H. discriminate.
Qed.

End NoMemory.

(** ** Import *)

Section Importing.

Variable host : byte_order.

Lemma nvlist_xdr_nvp_rv fuel x m idx m' idx' rv :
  nvlist_xdr_nvp host fuel x m idx = Done (m', idx', rv) -> rv = 0.
Proof.
  destruct fuel as [|fuel]; [discriminate|].
  cbn [nvlist_xdr_nvp]. intros H.
  repeat (bind_inv H;
          repeat match type of H with
                 | context [let '(_, _) := ?p in _] => destruct p
                 end).
  congruence.
Qed.

Lemma nvlist_xdr_pairs_rv fuel : forall x m idx enc dec m' idx' rv,
  nvlist_xdr_pairs host fuel x m idx enc dec = Done (m', idx', rv) -> rv = 0.
Proof.
  induction fuel as [|fuel IH]; intros x m idx enc dec m' idx' rv;
    cbn [nvlist_xdr_pairs]; destruct (_ && _); try discriminate; try congruence.
  intros H. bind_inv H. destruct a as [[m1 idx1] rv1].
  apply nvlist_xdr_nvp_rv in E. subst rv1. cbn [Z.eqb negb] in H.
  bind_inv H. destruct a as [[[m2 idx2] enc2] dec2].
  eapply IH, H.
Qed.

Lemma nvlist_xdr_nvlist_rv fuel x m data m' idx' rv :
  nvlist_xdr_nvlist host fuel x m data = Done (m', idx', rv) -> rv = 0.
Proof.
  destruct fuel as [|fuel]; [discriminate|].
  cbn [nvlist_xdr_nvlist]. intros H.
  bind_inv H. destruct a as [m1 idx1].
  bind_inv H. destruct a as [[[m2 idx2] enc2] dec2].
  eapply nvlist_xdr_pairs_rv, H.
Qed.

End Importing.

(** ** The size in the header against the size of the fields *)

Lemma uint64_item_size name v :
  item_encoded_size (uint64_item name v) = spec_encoded_size (strlen name) 8 + 12.
Proof.
  unfold item_encoded_size, spec_encoded_size, spec_align4, item_namelen, item_valuelen.
  cbn [uint64_item item_name item_val]. rewrite NV_ALIGN4_div.
  change (NV_ALIGN (8 + 1)) with 16. change ((8 + 3) / 4) with 2.
  unfold strlen. lia.
Qed.

Lemma string_item_size name value :
  spec_encoded_size (strlen name) (4 + strlen value)
  <= item_encoded_size (string_item name value)
  <= spec_encoded_size (strlen name) (4 + strlen value) + 8.
Proof.
  unfold item_encoded_size, spec_encoded_size, spec_align4, item_namelen, item_valuelen.
  cbn [string_item item_name item_val]. rewrite NV_ALIGN4_div, NV_ALIGN_div.
  unfold strlen.
  set (V := Z.of_nat (length (cstr value))).
  assert (0 <= V) by (subst V; lia).
  pose proof (Z.div_mod (4 + V + 3) 4 ltac:(lia)).
  pose proof (Z.mod_pos_bound (4 + V + 3) 4 ltac:(lia)).
  pose proof (Z.div_mod (V + 1 + 7) 8 ltac:(lia)).
  pose proof (Z.mod_pos_bound (V + 1 + 7) 8 ltac:(lia)).
  lia.
Qed.

(** ** The next list of an array *)

Section Next.

Variable host : byte_order.

Lemma mem_read_bounds m off n bs :
  mem_read m off n = Done bs ->
  0 <= off /\ 0 <= n /\ off + n <= Z.of_nat (length m) /\ Z.of_nat (length bs) = n.
Proof.
  unfold mem_read. destruct (in_bounds m off n) eqn:E; [|discriminate].
  apply in_bounds_inv in E. intros [= <-].
  rewrite length_firstn, length_skipn. lia.
Qed.

Lemma native_combine_bound bs :
  0 <= native_combine host bs < 2 ^ (8 * Z.of_nat (length bs)).
Proof.
  destruct host; simpl; unfold be_combine;
    [|rewrite <- (length_rev bs)]; apply le_combine_bound.
Qed.

Lemma load32_bounds m off v :
  load32 host m off = Done v ->
  0 <= off /\ off + 4 <= Z.of_nat (length m) /\ 0 <= v < 2 ^ 32.
Proof.
  unfold load32. intros H. bind_inv H. injection H as <-.
  apply mem_read_bounds in E. destruct E as (? & _ & ? & Hl).
  pose proof (native_combine_bound a) as Hb. rewrite Hl in Hb.
  change (8 * 4) with 32 in Hb. lia.
Qed.

Lemma nvlist_next_loop_eq fuel m nvp :
  nvlist_next_loop host fuel m nvp =
  (encoded_size <- load32 host m nvp ;;
   if encoded_size =? 0 then Done nvp else
   decoded_size <- load32 host m (nvp + 4) ;;
   if decoded_size =? 0 then Done nvp else
   match fuel with
   | O => OutOfFuel
   | S fuel' => nvlist_next_loop host fuel' m (nvp + encoded_size)
   end).
Proof. destruct fuel; reflexivity. Qed.

Lemma load32_of_zeros m off :
  mem_read m off 8 = Done (zeros 8) -> load32 host m off = Done 0.
Proof.
  intros H. pose proof (mem_read_bounds _ _ _ _ H) as (? & _ & ? & _).
  unfold load32, mem_read in *.
  rewrite in_bounds_true by lia. rewrite in_bounds_true in H by lia.
  remember (skipn (Z.to_nat off) m) as t eqn:Et. clear Et.
  assert (Ht : firstn (Z.to_nat 8) t = zeros 8) by congruence. clear H.
  replace (firstn (Z.to_nat 4) t) with (firstn (Z.to_nat 4) (firstn (Z.to_nat 8) t))
    by (rewrite firstn_firstn; reflexivity).
  rewrite Ht. destruct host; reflexivity.
Qed.

Lemma next_loop_ends m nvp term :
  list_ends host m nvp term ->
  forall fuel, Z.of_nat (length m) - nvp <= Z.of_nat fuel ->
    nvlist_next_loop host fuel m nvp = Done term.
Proof.
  induction 1 as [nvp Hz | nvp enc dec term He Hne Hd Hnd Hrest IH]; intros fuel Hf;
    rewrite nvlist_next_loop_eq.
  - rewrite (load32_of_zeros _ _ Hz). reflexivity.
  - rewrite He. cbn [bind].
    destruct (enc =? 0) eqn:E0; [apply Z.eqb_eq in E0; contradiction|].
    rewrite Hd. cbn [bind].
    destruct (dec =? 0) eqn:E1; [apply Z.eqb_eq in E1; contradiction|].
    apply load32_bounds in He. destruct He as (? & ? & ?).
    destruct fuel as [|fuel]; [simpl in Hf; lia|].
    apply IH. lia.
Qed.

End Next.

(** ** The loops on a block end

    The loops of [nvlist_size], [nvlist_remove], [nvlist_find] and
    [nvlist_next] are given the length of the block as fuel.  Every round
    moves to a header further on in the block, so the fuel is never used
    up: these functions return or fault. *)

Lemma bind_ends {A B} (c : outcome A) (k : A -> outcome B) :
  c <> OutOfFuel -> (forall a, c = Done a -> k a <> OutOfFuel) ->
  bind c k <> OutOfFuel.
Proof. destruct c; simpl; intros H Hk; [apply Hk; reflexivity|discriminate|contradiction]. Qed.

Lemma mem_read_ends m off n : mem_read m off n <> OutOfFuel.
Proof. unfold mem_read. destruct (in_bounds m off n); discriminate. Qed.

Lemma mem_write_ends m off bs : mem_write m off bs <> OutOfFuel.
Proof. unfold mem_write. destruct (in_bounds m off _); discriminate. Qed.

Lemma memcmp_ends s1 : forall s2 n, memcmp s1 s2 n <> OutOfFuel.
Proof.
  induction s1 as [|a s1 IH]; intros s2 n; simpl; destruct (n <=? 0); try discriminate.
  destruct s2 as [|b s2]; [discriminate|].
  destruct (_ =? _); [apply IH|discriminate].
Qed.

Section LoopsEnd.

Variable host : byte_order.

Lemma load32_ends m off : load32 host m off <> OutOfFuel.
Proof.
  unfold load32. apply bind_ends; [apply mem_read_ends|discriminate].
Qed.

Lemma load64_ends m off : load64 host m off <> OutOfFuel.
Proof.
  unfold load64. apply bind_ends; [apply mem_read_ends|discriminate].
Qed.

Lemma pair_matches_ends m nvp name type :
  pair_matches host m nvp name type <> OutOfFuel.
Proof.
  unfold pair_matches, pair_data_of.
  apply bind_ends; [apply load32_ends|intros n _].
  apply bind_ends; [apply bind_ends; [apply load32_ends|discriminate]|intros d _].
  apply bind_ends; [apply memcmp_ends|intros c _].
  destruct (c =? 0); [|discriminate].
  apply bind_ends; [apply load32_ends|discriminate].
Qed.

Lemma nvlist_next_loop_ends fuel : forall m nvp,
  Z.of_nat (length m) - nvp <= Z.of_nat fuel ->
  nvlist_next_loop host fuel m nvp <> OutOfFuel.
Proof.
  induction fuel as [|fuel IH]; intros m nvp Hf; rewrite nvlist_next_loop_eq;
    (apply bind_ends; [apply load32_ends|intros enc He]);
    (destruct (enc =? 0) eqn:E0; [discriminate|]);
    (apply bind_ends; [apply load32_ends|intros dec Hd]);
    (destruct (dec =? 0); [discriminate|]);
    apply (load32_bounds host) in He; apply Z.eqb_neq in E0.
  - simpl in Hf. lia.
  - apply IH. lia.
Qed.

Lemma nvlist_next_ends nvl : nvlist_next host nvl <> OutOfFuel.
Proof.
  unfold nvlist_next. destruct nvl as [l|]; [|discriminate].
  destruct (nv_data l) as [data|]; [|discriminate].
  destruct (negb _); [discriminate|].
  apply bind_ends; [|discriminate].
  destruct (load32 host (nv_mem l) (data + offsetof_nvl_pair)) as [v| |] eqn:E.
  - apply nvlist_next_loop_ends. apply (load32_bounds host) in E.
    unfold offsetof_nvl_pair in *. lia.
  - rewrite nvlist_next_loop_eq, E. discriminate.
  - exfalso. exact (load32_ends _ _ E).
Qed.

Lemma nvlist_remove_loop_ends fuel : forall nvl data name type head,
  Z.of_nat (length (nv_mem nvl)) - head <= Z.of_nat fuel ->
  nvlist_remove_loop host fuel nvl data name type head <> OutOfFuel.
Proof.
  induction fuel as [|fuel IH]; intros nvl data name type head Hf;
    rewrite nvlist_remove_loop_eq; cbv zeta;
    (apply bind_ends; [apply load32_ends|intros enc He]);
    (destruct (enc =? 0) eqn:E0; [discriminate|]);
    (apply bind_ends; [apply load32_ends|intros dec Hd]);
    (destruct (dec =? 0); [discriminate|]);
    apply (load32_bounds host) in He; apply Z.eqb_neq in E0.
  - simpl in Hf. lia.
  - apply bind_ends; [apply pair_matches_ends|intros hit _].
    destruct hit.
    + apply bind_ends; [|discriminate]. unfold bcopy.
      apply bind_ends; [apply mem_read_ends|intros; apply mem_write_ends].
    + apply IH. lia.
Qed.

Lemma nvlist_remove_ends nvl name type : nvlist_remove host nvl name type <> OutOfFuel.
Proof.
  unfold nvlist_remove. destruct nvl as [l|]; [|discriminate].
  destruct name as [n|]; [|discriminate].
  destruct (nv_data l) as [data|]; [|discriminate].
  apply bind_ends; [|intros [rv l']; discriminate].
  destruct (load32 host (nv_mem l) (data + offsetof_nvl_pair)) as [v| |] eqn:E.
  - apply nvlist_remove_loop_ends. apply (load32_bounds host) in E.
    unfold offsetof_nvl_pair in *. lia.
  - rewrite nvlist_remove_loop_eq. cbv zeta. rewrite E. discriminate.
  - exfalso. exact (load32_ends _ _ E).
Qed.

Lemma nvlist_find_loop_ends fuel : forall nvl name type nvp h,
  Z.of_nat (length (nv_mem nvl)) - nvp <= Z.of_nat fuel ->
  nvlist_find_loop host fuel nvl name type nvp h <> OutOfFuel.
Proof.
  induction fuel as [|fuel IH]; intros nvl name type nvp h Hf;
    cbn [nvlist_find_loop]; cbv zeta;
    (apply bind_ends; [apply load32_ends|intros enc He]);
    (destruct (enc =? 0) eqn:E0; [discriminate|]);
    (apply bind_ends; [apply load32_ends|intros dec Hd]);
    (destruct (dec =? 0); [discriminate|]);
    apply (load32_bounds host) in He; apply Z.eqb_neq in E0.
  - simpl in Hf. lia.
  - apply bind_ends; [apply pair_matches_ends|intros hit _].
    destruct hit; [|apply IH; lia].
    apply bind_ends;
      [unfold pair_data_of; apply bind_ends; [apply load32_ends|discriminate]|intros d _].
    apply bind_ends; [apply load32_ends|intros nelem _].
    apply bind_ends; [apply load32_ends|intros t _].
    destruct (is_type t DATA_TYPE_UINT64).
    { apply bind_ends; [apply load64_ends|discriminate]. }
    destruct (is_type t DATA_TYPE_STRING).
    { apply bind_ends; [apply load32_ends|discriminate]. }
    destruct (_ || _); [|discriminate].
    destruct (alloc h) as [got h1]. destruct got; discriminate.
Qed.

Lemma nvlist_find_ends nvl name type h : nvlist_find host nvl name type h <> OutOfFuel.
Proof.
  unfold nvlist_find. destruct nvl as [l|]; [|discriminate].
  destruct name as [n|]; [|discriminate].
  destruct (nv_data l) as [data|]; [|discriminate].
  destruct (load32 host (nv_mem l) (data + offsetof_nvl_pair)) as [v| |] eqn:E.
  - apply nvlist_find_loop_ends. apply (load32_bounds host) in E.
    unfold offsetof_nvl_pair in *. lia.
  - destruct (length (nv_mem l)); cbn [nvlist_find_loop]; cbv zeta;
      rewrite E; discriminate.
  - exfalso. exact (load32_ends _ _ E).
Qed.

Lemma size_getter_get x m p :
  size_getter host x ->
  call_get (xdr_getuint x) m p <> OutOfFuel /\
  forall v rv, call_get (xdr_getuint x) m p = Done (v, rv) ->
    0 <= p /\ p + 4 <= Z.of_nat (length m) /\ 0 <= v /\ rv = 4.
Proof.
  intros [-> | ->]; cbn [call_get xdr_getuint xdr_decode xdrmem];
    unfold _getuint, mem_uint, be32dec, load32, to_uint, wrap32; split.
  - apply bind_ends; [apply bind_ends; [apply mem_read_ends|discriminate]|discriminate].
  - intros v rv H. bind_inv H. bind_inv E. injection H as <- <-.
    apply mem_read_bounds in E0. pose proof (Z.mod_pos_bound a (2 ^ 32) eq_refl). lia.
  - apply bind_ends; [apply bind_ends; [apply mem_read_ends|discriminate]|discriminate].
  - intros v rv H. bind_inv H. bind_inv E. injection H as <- <-.
    apply mem_read_bounds in E0.
    pose proof (Z.mod_pos_bound (to_int a) (2 ^ 32) eq_refl). lia.
Qed.

Lemma nvlist_size_loop_ends x m : size_getter host x ->
  forall fuel pair p enc dec,
    0 <= enc -> pair + 8 <= Z.of_nat (length m) ->
    Z.of_nat (length m) - pair - 7 <= Z.of_nat fuel ->
    nvlist_size_loop fuel x m pair p enc dec <> OutOfFuel.
Proof.
  intros Hx. induction fuel as [|fuel IH]; intros pair p enc dec He Hp Hf;
    cbn [nvlist_size_loop];
    destruct (negb (enc =? 0)) eqn:E0; cbn [andb]; try discriminate;
    destruct (negb (dec =? 0)); try discriminate.
  - simpl in Hf. lia.
  - cbv zeta. apply negb_true_iff, Z.eqb_neq in E0.
    destruct (size_getter_get x m (pair + enc) Hx) as (G1 & G1').
    apply bind_ends; [exact G1|intros [enc' rv] Hg]. apply G1' in Hg.
    destruct Hg as (? & ? & ? & ->).
    destruct (size_getter_get x m (pair + enc + 4) Hx) as (G2 & G2').
    apply bind_ends; [exact G2|intros [dec' rv] Hg]. apply G2' in Hg.
    destruct Hg as (? & ? & ? & ->).
    apply IH; lia.
Qed.

Lemma nvlist_size_ends x m stream :
  size_getter host x -> nvlist_size x m stream <> OutOfFuel.
Proof.
  intros Hx. unfold nvlist_size, sizeof_unsigned. cbv zeta.
  destruct (size_getter_get x m (stream + 2 * 4) Hx) as (G1 & G1').
  apply bind_ends; [exact G1|intros [enc rv] Hg]. apply G1' in Hg.
  destruct Hg as (? & ? & ? & ->).
  destruct (size_getter_get x m (stream + 2 * 4 + 4) Hx) as (G2 & G2').
  apply bind_ends; [exact G2|intros [dec rv] Hg]. apply G2' in Hg.
  destruct Hg as (? & ? & ? & ->).
  apply bind_ends; [|discriminate].
  apply nvlist_size_loop_ends; try assumption; lia.
Qed.

End LoopsEnd.

(** ** Streams that are read back

    The stream of scenario 1 starts as the specification has it; a list
    with one pair is read back on a little-endian host, and the list of
    scenario 1 on a big-endian host, where [nvlist_export] changes no
    byte. *)

Example scenario1_stream_head :
  firstn 12 (nvlist_stream (Examples.exported
                              (nvlist_export LittleEndian 16 Examples.bootenv_list)))
  = [Byte.x01; Byte.x01; Byte.x00; Byte.x00; Byte.x00; Byte.x00; Byte.x00; Byte.x00;
     Byte.x00; Byte.x00; Byte.x00; Byte.x01].
Proof. vm_compute. reflexivity. Qed.

Example one_pair_round_trip :
  exists nvl h,
    nvlist_import LittleEndian 16 Examples.version_stream Examples.heap0
    = Done (Some nvl, h) /\
    same_nvlist nvl Examples.version_list.
Proof.
  eexists _, _. split; [vm_compute; reflexivity|].
  repeat split; reflexivity.
Qed.

Example big_endian_round_trip :
  exists nvl_e nvl h,
    nvlist_export BigEndian 16 Examples.bootenv_list_be = Done (0, nvl_e) /\
    nv_mem nvl_e = nv_mem Examples.bootenv_list_be /\
    nvlist_import BigEndian 16 (nvlist_stream nvl_e) Examples.heap0
    = Done (Some nvl, h) /\
    same_nvlist nvl Examples.bootenv_list_be.
Proof.
  eexists _, _, _. split; [vm_compute; reflexivity|].
  split; [reflexivity|]. split; [vm_compute; reflexivity|].
  repeat split; reflexivity.
Qed.

(** * The claims *)

(** C1 does not hold of the code.  [nvlist_add_uint64 (nvl, "version", 1)]
    writes 48 into the header of the new pair where the formula of the
    claim gives 36, and [nvlist_add_string (nvl, "freebsd:bootonce",
    "zfs:tank:")] writes 56 where the formula gives 52; the cursor that
    [nvlist_add_string] moves over the fields it writes ends 52 bytes
    after the header. *)
Theorem C1_encoded_size_exceeds_the_formula :
  load32 LittleEndian (nv_mem Examples.version_list) 8 = Done 48 /\
  spec_encoded_size (strlen Examples.version) 8 = 36 /\
  load32 LittleEndian (nv_mem Examples.bootenv_list) 56 = Done 56 /\
  spec_encoded_size (strlen Examples.bootonce) (4 + strlen Examples.tank) = 52 /\
  nv_idx Examples.bootenv_list = Some (56 + 52).
Proof. repeat split; vm_compute; reflexivity. Qed.

(** C2 does not hold of the code.  On a little-endian host the list of
    scenario 1 is exported: the walk of [nvlist_export] ends in the zero
    bytes that follow the value of the first pair, and the second pair
    stays in host order; its [encoded_size], 56, reads as 939524096 in the
    stream.  [nvlist_import] of that stream does not give the list back:
    its size walk leaves the stream. *)
Theorem C2_export_leaves_second_pair_in_host_order :
  exists nvl,
    nvlist_export LittleEndian 16 Examples.bootenv_list = Done (0, nvl) /\
    nv_idx nvl = Some 52 /\
    nv_size nvl = 120 /\
    load32 LittleEndian (nv_mem Examples.bootenv_list) 56 = Done 56 /\
    be32dec (nvlist_stream nvl) (4 + 56) = Done 939524096 /\
    forall fuel,
      nvlist_import LittleEndian fuel (nvlist_stream nvl) Examples.heap0 = Fault.
Proof.
  eexists. split; [vm_compute; reflexivity|].
  repeat split; vm_compute; reflexivity.
Qed.










(** C6, as stated, fails: the list holds the pair "version" and
    [realloc] fails; [nvlist_add_uint64 (nvl, "version", 2)] returns
    [ENOMEM] and the pair is gone, the used size is 16 instead of 64. *)
Lemma C6_counterexample :
  exists nvl' h',
    nvlist_add_uint64 LittleEndian Examples.version_list Examples.version 2
      Examples.heap_full = Done (ENOMEM, nvl', h') /\
    nv_size Examples.version_list = 64 /\
    nv_size nvl' = 16 /\
    used_bytes nvl' <> used_bytes Examples.version_list /\
    nvlist_find LittleEndian (Some nvl') (Some Examples.version) DATA_TYPE_UINT64 h'
    = Done (ENOENT, None, None, h').
Proof.
  eexists _, _. split; [vm_compute; reflexivity|].
  split; [reflexivity|]. split; [reflexivity|].
  split; [vm_compute; discriminate|vm_compute; reflexivity].
Qed.

(** C6, amended.  Whenever [nvlist_add_uint64] or [nvlist_add_string]
    returns [ENOMEM], the handle, its buffer and its used size are as the
    removal that starts the call left them: they are as before the call
    when the flags of the list do not have [NV_UNIQUE_NAME] and when
    [nvlist_remove] finds no pair for the name and the type; otherwise
    the pair that [nvlist_remove] found has been removed. *)
Theorem C6_no_memory_keeps_the_removal_only :
  forall host nvl name type nvl',
    add_returns_nomem host nvl name type nvl' ->
    unique_remove host nvl name type = Done nvl' /\
    (forall data flag,
       nv_data nvl = Some data ->
       load32 host (nv_mem nvl) (data + offsetof_nvl_nvflag) = Done flag ->
       Z.land flag NV_UNIQUE_NAME = 0 -> nvl' = nvl) /\
    (forall rv r,
       nvlist_remove host (Some nvl) (Some name) type = Done (rv, r) ->
       rv <> 0 -> nvl' = nvl).
Proof.
  intros host nvl name type nvl' H.
  assert (Hu : unique_remove host nvl name type = Done nvl').
  { destruct H as [(-> & value & h & h' & H)|(-> & value & h & h' & H)].
    - eapply add_uint64_nomem, H.
    - eapply add_string_nomem, H. }
  split; [exact Hu|]. split.
  - intros data flag Hd Hf Hz. unfold unique_remove in Hu.
    rewrite Hd in Hu. cbn [deref bind] in Hu. rewrite Hf in Hu. cbn [bind] in Hu.
    rewrite Hz in Hu. cbn in Hu. congruence.
  - intros rv r Hr Hrv. unfold unique_remove in Hu.
    bind_inv Hu. bind_inv Hu.
    destruct (negb (Z.land a0 NV_UNIQUE_NAME =? 0)); [|congruence].
    rewrite Hr in Hu. cbn [bind] in Hu. injection Hu as <-.
    unfold nvlist_remove in Hr. destruct (nv_data nvl) as [data|].
    + bind_inv Hr. destruct a1 as [rv1 l1]. injection Hr as <- <-.
      eapply remove_loop_miss; eassumption.
    + injection Hr as <- <-. reflexivity.
Qed.

Lemma C6_witness :
  unique_remove LittleEndian Examples.empty_list Examples.version DATA_TYPE_UINT64
  = Done Examples.empty_list.
Proof.
  apply (C6_no_memory_keeps_the_removal_only LittleEndian Examples.empty_list
           Examples.version DATA_TYPE_UINT64 Examples.empty_list).
  left. split; [reflexivity|].
  exists 1, Examples.heap_full, {| heap_plan := []; heap_live := 2; heap_junk := Byte.xa5 |}.
  vm_compute. reflexivity.
Defined.

(** C7, as stated, fails.  The stream of a list with one pair is cut
    before its terminator.  The size walk has no length to stop at: it
    reads the header behind the last byte of the buffer, which is a fault
    when nothing is there and not a null result; when other bytes lie
    there, the walk goes on through them and [nvlist_import] returns a
    list of 72 bytes from a buffer that has 56 bytes after its envelope. *)
Lemma C7_counterexample :
  length Examples.truncated_stream = 60%nat /\
  nvlist_size xdr_decode Examples.truncated_stream 4 = Fault /\
  (forall fuel,
     nvlist_import LittleEndian fuel Examples.truncated_stream Examples.heap0 = Fault) /\
  nvlist_size xdr_decode (Examples.truncated_stream ++ Examples.adjacent_memory) 4
  = Done 72 /\
  exists nvl h,
    nvlist_import LittleEndian 16
      (Examples.truncated_stream ++ Examples.adjacent_memory) Examples.heap0
    = Done (Some nvl, h) /\
    nv_size nvl = 72.
Proof.
  split; [reflexivity|]. split; [vm_compute; reflexivity|].
  split; [intros fuel; vm_compute; reflexivity|].
  split; [vm_compute; reflexivity|].
  eexists _, _. split; [vm_compute; reflexivity|reflexivity].
Qed.

(** C7, amended.  [nvlist_size] is given no length and has no failing
    result, and [nvlist_import] does not detect a truncated buffer: when
    it returns null, the head of the stream (encoding, endianness, two
    zero bytes, version, flags) did not pass the check or one of the two
    allocations was refused, and no block allocated by the call is left. *)
Theorem C7_import_null_only_for_head_or_allocation :
  forall host fuel stream h h',
    nvlist_import host fuel stream h = Done (None, h') ->
    heap_live h' = heap_live h /\
    (check_head stream = Done false \/ In false (firstn 2 (heap_plan h))).
Proof.
  intros host fuel stream h h' H. unfold nvlist_import in H.
  bind_inv H. destruct a; cbn [negb] in H.
  2:{ injection H as <-. split; [reflexivity|left; exact E]. }
  unfold alloc at 1, next_request in H.
  destruct (heap_plan h) as [|b1 plan1] eqn:Ep; [|destruct b1]; cbn [negb] in H.
  - do 5 bind_inv H. unfold alloc, next_request in H.
    cbn [heap_plan negb] in H. bind_inv H. bind_inv H.
    destruct a5 as [[m idx] rv]. apply nvlist_xdr_nvlist_rv in E6. subst rv.
    discriminate.
  - do 5 bind_inv H. unfold alloc, next_request in H. cbn [heap_plan] in H.
    destruct plan1 as [|b2 plan2]; [|destruct b2]; cbn [negb] in H.
    + bind_inv H. bind_inv H.
      destruct a5 as [[m idx] rv]. apply nvlist_xdr_nvlist_rv in E6. subst rv.
      discriminate.
    + bind_inv H. bind_inv H.
      destruct a5 as [[m idx] rv]. apply nvlist_xdr_nvlist_rv in E6. subst rv.
      discriminate.
    + injection H as <-. cbn. split; [lia|right; simpl; tauto].
  - injection H as <-. cbn. split; [reflexivity|right; simpl; tauto].
Qed.

Lemma C7_witness :
  heap_live Examples.heap0 = heap_live Examples.heap0 /\
  (check_head (zeros 12) = Done false \/
   In false (firstn 2 (heap_plan Examples.heap0))).
Proof.
  apply (C7_import_null_only_for_head_or_allocation LittleEndian 1 (zeros 12)
           Examples.heap0 Examples.heap0).
  vm_compute. reflexivity.
Defined.

(** C8 does not hold of the code.  The list holds the one pair "version";
    [nvlist_find] with the name "versionX" returns 0 and the value of
    that pair. *)
Theorem C8_find_takes_a_name_that_is_longer :
  laid_out LittleEndian Examples.version_list NV_UNIQUE_NAME
    [uint64_item Examples.version 1] /\
  strlen Examples.versionX = 8 /\ strlen Examples.version = 7 /\
  nvlist_find LittleEndian (Some Examples.version_list) (Some Examples.versionX)
    DATA_TYPE_UINT64 Examples.heap0
  = Done (0, Some 1, Some (ValUint64 1), Examples.heap0).
Proof.
  split; [|repeat split; vm_compute; reflexivity].
  unfold laid_out. split; [reflexivity|]. split; [reflexivity|]. split.
  - repeat constructor; vm_compute; reflexivity.
  - exists []. split; vm_compute; reflexivity.
Qed.

(** C9, as stated, fails: the used size of a fresh list is 16, the four
    bytes of the envelope are in the handle and not in the buffer; and a
    fresh list made with the flags 0 is refused by [nvlist_import], which
    takes the flags [NV_UNIQUE_NAME] only. *)
Lemma C9_counterexample :
  nv_size Examples.empty_list = 16 /\
  nv_size Examples.empty_list <> 20 /\
  exists nvl,
    nvlist_export LittleEndian 16
      (Examples.created (nvlist_create LittleEndian 0 Examples.heap0)) = Done (0, nvl) /\
    nvlist_import LittleEndian 16 (nvlist_stream nvl) Examples.heap0
    = Done (None, Examples.heap0).
Proof.
  split; [reflexivity|]. split; [vm_compute; discriminate|].
  eexists. split; [vm_compute; reflexivity|].
  vm_compute. reflexivity.
Qed.

(** C9, amended.  A list made by [nvlist_create] has a used size of 16
    bytes: version, flags and the terminator of eight bytes; its stream,
    the envelope of four bytes and these, has 20 bytes.  When the flags
    are [NV_UNIQUE_NAME], importing the stream of the exported list gives
    a list equal to the one created. *)
Theorem C9_fresh_list_is_16_bytes_and_round_trips :
  forall host h nvl h1,
    nvlist_create host NV_UNIQUE_NAME h = Done (Some nvl, h1) ->
    nv_size nvl = 16 /\ nv_asize nvl = 16 /\
    forall fuel h2, heap_plan h2 = [] ->
      exists nvl_e nvl' h3,
        nvlist_export host (S (S fuel)) nvl = Done (0, nvl_e) /\
        length (nvlist_stream nvl_e) = 20%nat /\
        nvlist_import host (S (S fuel)) (nvlist_stream nvl_e) h2 = Done (Some nvl', h3) /\
        same_nvlist nvl' nvl.
Proof.
  intros host h nvl h1 Hc.
  destruct (create_laid_out host NV_UNIQUE_NAME h nvl h1 Hc) as (_ & Hs & Ha).
  split; [exact Hs|]. split; [exact Ha|].
  unfold nvlist_create in Hc.
  destruct (alloc h) as [ok ha]. destruct ok; cbn [negb] in Hc; [|discriminate].
  destruct (alloc ha) as [ok hb]. destruct ok; cbn [negb] in Hc; [|discriminate].
  intros fuel [plan live junk] Hp. cbn [heap_plan] in Hp. subst plan.
  destruct host; vm_compute in Hc; injection Hc as <- <-;
    eexists _, _, _; (split; [vm_compute; reflexivity|]);
    (split; [reflexivity|]); (split; [vm_compute; reflexivity|]);
    repeat split; reflexivity.
Qed.

Lemma C9_witness :
  nv_size Examples.empty_list = 16 /\ nv_asize Examples.empty_list = 16 /\
  forall fuel h2, heap_plan h2 = [] ->
    exists nvl_e nvl' h3,
      nvlist_export LittleEndian (S (S fuel)) Examples.empty_list = Done (0, nvl_e) /\
      length (nvlist_stream nvl_e) = 20%nat /\
      nvlist_import LittleEndian (S (S fuel)) (nvlist_stream nvl_e) h2
      = Done (Some nvl', h3) /\
      same_nvlist nvl' Examples.empty_list.
Proof.
  apply (C9_fresh_list_is_16_bytes_and_round_trips LittleEndian Examples.heap0
           Examples.empty_list Examples.heap2).
  vm_compute. reflexivity.
Defined.

(** C10.  [nvlist_next] returns [EINVAL] for a null handle, for a null
    data pointer and for every handle with allocated capacity; on a view,
    whose capacity is 0, it returns 0 and moves the data pointer just
    behind the terminator of the list the view was on. *)
Theorem C10_next_only_on_borrowed_view :
  forall host,
    nvlist_next host None = Done (EINVAL, None) /\
    (forall l, nv_data l = None -> nvlist_next host (Some l) = Done (EINVAL, Some l)) /\
    (forall l, nv_asize l <> 0 -> nvlist_next host (Some l) = Done (EINVAL, Some l)) /\
    (forall l data term,
       nv_asize l = 0 -> nv_data l = Some data ->
       list_ends host (nv_mem l) (data + offsetof_nvl_pair) term ->
       nvlist_next host (Some l)
       = Done (0, Some (set_nv_data l (Some (term + sizeof_nvp_header))))).
Proof.
  intros host. split; [reflexivity|]. split; [|split].
  - intros l Hd. unfold nvlist_next. rewrite Hd. reflexivity.
  - intros l Ha. unfold nvlist_next. destruct (nv_data l); [|reflexivity].
    destruct (nv_asize l =? 0) eqn:E; [apply Z.eqb_eq in E; contradiction|].
    reflexivity.
  - intros l data term Ha Hd Hends. unfold nvlist_next. rewrite Hd.
    replace (nv_asize l =? 0) with true by (symmetry; apply Z.eqb_eq; exact Ha).
    cbn [negb].
    rewrite (next_loop_ends host _ _ _ Hends).
    + reflexivity.
    + inversion Hends as [? Hz|? ? ? ? He]; subst.
      * apply mem_read_bounds in Hz. lia.
      * apply load32_bounds in He. lia.
Qed.

Lemma C10_witness :
  nvlist_next LittleEndian (Some Examples.version_view)
  = Done (0, Some (set_nv_data Examples.version_view (Some 64))).
Proof.
  apply (proj2 (proj2 (proj2 (C10_next_only_on_borrowed_view LittleEndian)))
           Examples.version_view 0 56).
  - reflexivity.
  - reflexivity.
  - apply (ends_later LittleEndian _ 8 48 32 56); try (vm_compute; reflexivity);
      try discriminate.
    apply ends_here. vm_compute. reflexivity.
Defined.

(** * Further properties of the code *)

(** ** Writes to a block *)

Lemma mem_write_parts m off bs m' :
  mem_write m off bs = Done m' ->
  exists a b c,
    m = a ++ b ++ c /\ m' = a ++ bs ++ c /\
    Z.of_nat (length a) = off /\ length b = length bs.
Proof.
  unfold mem_write. destruct (in_bounds m off (Z.of_nat (length bs))) eqn:E; [|discriminate].
  intros H. injection H as <-. apply in_bounds_inv in E.
  exists (firstn (Z.to_nat off) m),
         (firstn (length bs) (skipn (Z.to_nat off) m)),
         (skipn (Z.to_nat off + length bs) m).
  split; [|split; [reflexivity|split]].
  - rewrite <- (firstn_skipn (Z.to_nat off) m) at 1. f_equal.
    rewrite <- (firstn_skipn (length bs) (skipn (Z.to_nat off) m)) at 1. f_equal.
    rewrite skipn_skipn. f_equal. lia.
  - rewrite length_firstn. lia.
  - rewrite length_firstn, length_skipn. lia.
Qed.

Lemma mem_read_written m off bs m' :
  mem_write m off bs = Done m' -> mem_read m' off (Z.of_nat (length bs)) = Done bs.
Proof.
  intros H. destruct (mem_write_parts _ _ _ _ H) as (a & b & c & -> & -> & Ha & Hb).
  rewrite mem_read_app_r by lia. apply mem_read_here; lia.
Qed.

Lemma mem_write_frame m off bs m' o n :
  mem_write m off bs = Done m' ->
  o + n <= off \/ off + Z.of_nat (length bs) <= o ->
  mem_read m' o n = mem_read m o n.
Proof.
  intros H Hd. destruct (mem_write_parts _ _ _ _ H) as (a & b & c & -> & -> & Ha & Hb).
  destruct (in_bounds (a ++ b ++ c) o n) eqn:E.
  - apply in_bounds_inv in E. rewrite !length_app in E.
    destruct Hd as [Hd|Hd].
    + rewrite !mem_read_app_l by lia. reflexivity.
    + rewrite !(mem_read_app_r a) by lia.
      rewrite !mem_read_app_r by lia. rewrite Hb. reflexivity.
  - unfold mem_read. rewrite E.
    replace (in_bounds (a ++ bs ++ c) o n) with false; [reflexivity|].
    rewrite <- E. unfold in_bounds. rewrite !length_app, Hb. reflexivity.
Qed.

Lemma be_combine_split n v : be_combine (be_split n v) = v mod 2 ^ (Z.of_nat n * 8).
Proof. apply (native_combine_split BigEndian). Qed.

Lemma to_int_wrap32 v : to_int (wrap32 v) = to_int v.
Proof. unfold to_int, wrap32. rewrite Z.mod_mod by lia. reflexivity. Qed.

(** X1.  A word that [_putuint] has stored is read back by [_getuint] as
    the value modulo [2 ^ 32] and by [_getint] as the [int] of the same
    bits; the putter returns 4, keeps the length of the block and changes
    no byte outside the four bytes at [buf]. *)
Theorem X1_putuint_then_getuint :
  forall m buf v m' rv,
    _putuint m buf v = Done (m', rv) ->
    rv = 4 /\ length m' = length m /\
    _getuint m' buf = Done (wrap32 v, 4) /\
    _getint m' buf = Done (to_int v, 4) /\
    forall off n, off + n <= buf \/ buf + 4 <= off ->
      mem_read m' off n = mem_read m off n.
Proof.
  intros m buf v m' rv H. unfold _putuint, be32enc in H. bind_inv H.
  injection H as <- <-. split; [reflexivity|].
  split; [eapply mem_write_length, E|].
  pose proof (mem_read_written _ _ _ _ E) as Hr.
  unfold be_split in Hr at 1. rewrite length_rev, length_le_split in Hr.
  unfold _getuint, _getint, be32dec. change (Z.of_nat 4) with 4 in Hr. rewrite Hr. cbn [bind].
  rewrite be_combine_split. change (v mod 2 ^ (Z.of_nat 4 * 8)) with (wrap32 v).
  unfold to_uint. rewrite to_int_wrap32.
  split; [unfold wrap32; rewrite Z.mod_mod by lia; reflexivity|].
  split; [reflexivity|].
  intros off n Hd. eapply mem_write_frame; [exact E|].
  unfold be_split. rewrite length_rev, length_le_split. exact Hd.
Qed.

Lemma X1_witness :
  4 = 4 /\ length Examples.word_written = length Examples.word_block /\
  _getuint Examples.word_written 0 = Done (wrap32 (2 ^ 32 + 258), 4) /\
  _getint Examples.word_written 0 = Done (to_int (2 ^ 32 + 258), 4) /\
  forall off n, off + n <= 0 \/ 0 + 4 <= off ->
    mem_read Examples.word_written off n = mem_read Examples.word_block off n.
Proof.
  apply (X1_putuint_then_getuint Examples.word_block 0 (2 ^ 32 + 258)
           Examples.word_written 4).
  vm_compute. reflexivity.
Defined.

(** ** 64-bit values *)

Lemma le_split_app n m : forall z,
  le_split (n + m) z = le_split n z ++ le_split m (Z.shiftr z (8 * Z.of_nat n)).
Proof.
  induction n; intros z.
  - cbn [Nat.add app]. change (le_split 0 z) with (@nil byte).
    rewrite Z.shiftr_0_r. reflexivity.
  - change (le_split (S n + m) z) with (byte.of_Z z :: le_split (n + m) (Z.shiftr z 8)).
    change (le_split (S n) z) with (byte.of_Z z :: le_split n (Z.shiftr z 8)).
    rewrite IHn, Z.shiftr_shiftr by lia. cbn [app].
    replace (8 + 8 * Z.of_nat n) with (8 * Z.of_nat (S n)) by lia. reflexivity.
Qed.

Lemma le_split_congr n a b :
  a mod 2 ^ (Z.of_nat n * 8) = b mod 2 ^ (Z.of_nat n * 8) -> le_split n a = le_split n b.
Proof. intros H. rewrite (le_split_mod a), (le_split_mod b), H. reflexivity. Qed.

Lemma be_split_8 v : be_split 8 v = be_split 4 (Z.shiftr v 32) ++ be_split 4 v.
Proof.
  unfold be_split. change 8%nat with (4 + 4)%nat.
  rewrite le_split_app, rev_app_distr. reflexivity.
Qed.

Lemma to_int_mod v : to_int v mod 2 ^ 32 = v mod 2 ^ 32.
Proof.
  unfold to_int, wrap32. destruct (v mod 2 ^ 32 <? 2 ^ 31).
  - apply Z.mod_mod. lia.
  - rewrite <- (Z.mod_mod v (2 ^ 32)) at 2 by lia.
    replace (v mod 2 ^ 32 - 2 ^ 32) with (v mod 2 ^ 32 + (-1) * 2 ^ 32) by lia.
    apply Z.mod_add. lia.
Qed.

Lemma to_int64_mod v : to_int64 v mod 2 ^ 64 = v mod 2 ^ 64.
Proof.
  unfold to_int64, wrap64. destruct (v mod 2 ^ 64 <? 2 ^ 63).
  - apply Z.mod_mod. lia.
  - rewrite <- (Z.mod_mod v (2 ^ 64)) at 2 by lia.
    replace (v mod 2 ^ 64 - 2 ^ 64) with (v mod 2 ^ 64 + (-1) * 2 ^ 64) by lia.
    apply Z.mod_add. lia.
Qed.

Lemma land_shiftl_low hi lo : 0 <= lo < 2 ^ 32 -> Z.land (Z.shiftl hi 32) lo = 0.
Proof.
  intros Hlo. apply Z.bits_inj'. intros n Hn.
  rewrite Z.land_spec, Z.bits_0.
  destruct (Z.ltb_spec n 32).
  - rewrite Z.shiftl_spec_low by lia. reflexivity.
  - replace (Z.testbit lo n) with false; [apply andb_false_r|].
    symmetry. destruct (Z.eq_dec lo 0) as [->|]; [apply Z.bits_0|].
    apply Z.bits_above_log2; [lia|].
    apply Z.log2_lt_pow2; [lia|].
    apply Z.lt_le_trans with (2 ^ 32); [lia|]. apply Z.pow_le_mono_r; lia.
Qed.

Lemma lor_shiftl_add hi lo : 0 <= lo < 2 ^ 32 -> Z.lor (Z.shiftl hi 32) lo = hi * 2 ^ 32 + lo.
Proof.
  intros Hlo. pose proof (land_shiftl_low hi lo Hlo) as H.
  rewrite <- Z.lxor_lor by exact H.
  rewrite <- Z.add_nocarry_lxor by exact H.
  rewrite Z.shiftl_mul_pow2 by lia. reflexivity.
Qed.

Lemma native_split_combine host bs :
  native_split host (length bs) (native_combine host bs) = bs.
Proof.
  destruct host; cbn [native_split native_combine].
  - apply split_le_combine.
  - unfold be_split, be_combine. rewrite <- (length_rev bs), split_le_combine.
    apply rev_involutive.
Qed.

Lemma native_split_congr host n a b :
  a mod 2 ^ (Z.of_nat n * 8) = b mod 2 ^ (Z.of_nat n * 8) ->
  native_split host n a = native_split host n b.
Proof.
  intros H. destruct host; cbn [native_split]; unfold be_split;
    rewrite (le_split_congr n a b H); reflexivity.
Qed.

Lemma mem_write_twice m off x y :
  (m1 <- mem_write m off x ;; mem_write m1 (off + Z.of_nat (length x)) y)
  = mem_write m off (x ++ y).
Proof.
  unfold mem_write at 3. rewrite length_app.
  destruct (in_bounds m off (Z.of_nat (length x + length y))) eqn:E.
  - apply in_bounds_inv in E.
    assert (Hm : m = firstn (Z.to_nat off) m ++ skipn (Z.to_nat off) m)
      by (symmetry; apply firstn_skipn).
    assert (Ha : Z.of_nat (length (firstn (Z.to_nat off) m)) = off)
      by (rewrite length_firstn; lia).
    assert (Hb : (length x + length y <= length (skipn (Z.to_nat off) m))%nat)
      by (rewrite length_skipn; lia).
    revert Hm Ha Hb.
    generalize (firstn (Z.to_nat off) m) as a, (skipn (Z.to_nat off) m) as b.
    intros a b -> Ha Hb.
    rewrite (mem_write_at a b x off) by lia. cbn [bind].
    rewrite (app_assoc a x).
    rewrite (mem_write_at (a ++ x) (skipn (length x) b) y)
      by (rewrite ?length_app, ?length_skipn; lia).
    f_equal. rewrite <- !app_assoc. do 3 f_equal.
    rewrite !skipn_skipn, !skipn_app.
    replace (Z.to_nat off + (length x + length y) - length a)%nat
      with (length y + length x)%nat by lia.
    rewrite (skipn_all2 a) by lia. reflexivity.
  - unfold mem_write at 1.
    destruct (in_bounds m off (Z.of_nat (length x))) eqn:E1; cbn [bind]; [|reflexivity].
    apply in_bounds_inv in E1.
    unfold mem_write.
    match goal with |- (if ?c then _ else _) = _ => replace c with false; [reflexivity|] end.
    symmetry. unfold in_bounds in *. len_simpl. rewrite !length_firstn, !length_skipn.
    apply andb_false_iff in E. destruct E as [E|E].
    + apply andb_false_iff in E. destruct E as [E|E]; apply Z.leb_gt in E; lia.
    + apply Z.leb_gt in E. apply andb_false_iff. right. apply Z.leb_gt. lia.
Qed.

Lemma mem_read_parts m off n bs :
  mem_read m off n = Done bs ->
  exists a c, m = a ++ bs ++ c /\ Z.of_nat (length a) = off /\ Z.of_nat (length bs) = n.
Proof.
  intros H. pose proof (mem_read_bounds _ _ _ _ H) as (H0 & H1 & H2 & H3).
  unfold mem_read in H. rewrite in_bounds_true in H by lia. injection H as H.
  exists (firstn (Z.to_nat off) m), (skipn (Z.to_nat n) (skipn (Z.to_nat off) m)).
  split; [|split; [rewrite length_firstn; lia|exact H3]].
  rewrite <- H, firstn_skipn, firstn_skipn. reflexivity.
Qed.

Lemma mem_write_same m off n bs :
  mem_read m off n = Done bs -> mem_write m off bs = Done m.
Proof.
  intros H. destruct (mem_read_parts _ _ _ _ H) as (a & c & -> & Ha & Hb).
  rewrite mem_write_at by (rewrite ?length_app; lia).
  rewrite skipn_app, skipn_all, Nat.sub_diag. reflexivity.
Qed.

Lemma mem_write_over m off bs bs' m1 :
  mem_write m off bs = Done m1 -> length bs' = length bs ->
  mem_write m1 off bs' = mem_write m off bs'.
Proof.
  intros H Hl. destruct (mem_write_parts _ _ _ _ H) as (a & b & c & -> & -> & Ha & Hb).
  rewrite !(mem_write_at a) by (rewrite ?length_app; lia).
  rewrite !skipn_app.
  rewrite (skipn_all2 bs), (skipn_all2 b) by lia.
  replace (length bs' - length bs)%nat with (length bs' - length b)%nat by lia.
  reflexivity.
Qed.

Section Wide.

Variable host : byte_order.

Lemma load64_bytes m off v :
  load64 host m off = Done v ->
  exists bs, mem_read m off 8 = Done bs /\ length bs = 8%nat /\
             native_combine host bs = v /\ 0 <= v < 2 ^ 64.
Proof.
  unfold load64. intros H. bind_inv H. injection H as <-.
  exists a. split; [exact E|].
  pose proof (mem_read_bounds _ _ _ _ E) as (_ & _ & _ & Hl).
  split; [lia|]. split; [reflexivity|].
  pose proof (native_combine_bound host a) as Hb.
  replace (8 * Z.of_nat (length a)) with 64 in Hb by lia. exact Hb.
Qed.

(** Both 64-bit translations put the same eight bytes. *)
Lemma encode64 m buf v hi lo :
  load64 host m buf = Done v ->
  hi mod 2 ^ 32 = Z.shiftr v 32 mod 2 ^ 32 -> lo mod 2 ^ 32 = v mod 2 ^ 32 ->
  exists m1,
    ('(m1, rv) <- call_put (xdr_putint xdr_encode) m buf hi ;;
     '(m2, rv') <- call_put (xdr_putint xdr_encode) m1 (buf + rv) lo ;;
     Done (m2, rv + rv')) = Done (m1, 8) /\
    mem_write m buf (be_split 8 v) = Done m1 /\
    mem_read m1 buf 8 = Done (be_split 8 v).
Proof.
  intros Hl Hhi Hlo. destruct (load64_bytes _ _ _ Hl) as (bs & Hr & Hlen & _ & _).
  pose proof (mem_read_bounds _ _ _ _ Hr) as (H0 & _ & H2 & _).
  assert (Hw : exists m1, mem_write m buf (be_split 8 v) = Done m1).
  { unfold mem_write. unfold be_split at 1. rewrite length_rev, length_le_split.
    rewrite in_bounds_true by lia. eexists. reflexivity. }
  destruct Hw as (m1 & Hw). exists m1. split; [|split; [exact Hw|]].
  - cbn [xdr_encode xdr_putint call_put]. unfold _putint, be32enc.
    pose proof (mem_write_twice m buf (be_split 4 hi) (be_split 4 lo)) as Ht.
    replace (be_split 4 hi ++ be_split 4 lo) with (be_split 8 v) in Ht.
    2:{ rewrite be_split_8. unfold be_split.
        rewrite (le_split_congr 4 hi (Z.shiftr v 32)) by exact Hhi.
        rewrite (le_split_congr 4 lo v) by exact Hlo. reflexivity. }
    rewrite Hw in Ht.
    destruct (mem_write m buf (be_split 4 hi)) as [ma| |]; cbn [bind] in Ht |- *;
      try discriminate.
    unfold be_split in Ht at 1. rewrite length_rev, length_le_split in Ht.
    change (Z.of_nat 4) with 4 in Ht. rewrite Ht. reflexivity.
  - apply mem_read_written in Hw. unfold be_split in Hw at 1.
    rewrite length_rev, length_le_split in Hw. exact Hw.
Qed.

Lemma decode64_words m1 buf v :
  0 <= v < 2 ^ 64 ->
  mem_read m1 buf 8 = Done (be_split 8 v) ->
  be32dec m1 buf = Done (Z.shiftr v 32) /\ be32dec m1 (buf + 4) = Done (v mod 2 ^ 32).
Proof.
  intros Hv Hr. pose proof (mem_read_bounds _ _ _ _ Hr) as (H0 & _ & H2 & _).
  unfold mem_read in Hr. rewrite in_bounds_true in Hr by lia. injection Hr as Hr.
  rewrite be_split_8 in Hr.
  assert (Hs : skipn (Z.to_nat buf) m1
               = (be_split 4 (Z.shiftr v 32) ++ be_split 4 v) ++ skipn (Z.to_nat buf + 8) m1).
  { rewrite <- Hr. rewrite <- (firstn_skipn 8 (skipn (Z.to_nat buf) m1)) at 1.
    rewrite skipn_skipn. do 2 f_equal. lia. }
  assert (Hlen : forall z, length (be_split 4 z) = 4%nat)
    by (intros z; unfold be_split; rewrite length_rev; apply length_le_split).
  unfold be32dec, mem_read. rewrite !in_bounds_true by lia. cbn [bind].
  replace (Z.to_nat (buf + 4)) with (4 + Z.to_nat buf)%nat by lia.
  rewrite <- skipn_skipn, Hs, <- !app_assoc.
  rewrite firstn_app, Hlen, Nat.sub_diag, firstn_O, app_nil_r.
  rewrite firstn_all2 by (rewrite Hlen; lia).
  rewrite skipn_app, Hlen, Nat.sub_diag, skipn_O.
  rewrite skipn_all2 by (rewrite Hlen; lia). cbn [app].
  rewrite firstn_app, Hlen, Nat.sub_diag, firstn_O, app_nil_r.
  rewrite firstn_all2 by (rewrite Hlen; lia).
  rewrite !be_combine_split. change (Z.of_nat 4 * 8) with 32.
  split; [|reflexivity]. f_equal. apply Z.mod_small.
  rewrite Z.shiftr_div_pow2 by lia. split; [apply Z.div_pos; lia|].
  apply Z.div_lt_upper_bound; lia.
Qed.

Lemma store64_back m m1 buf v hi lo :
  load64 host m buf = Done v ->
  mem_write m buf (be_split 8 v) = Done m1 ->
  0 <= lo < 2 ^ 32 -> (hi * 2 ^ 32 + lo) mod 2 ^ 64 = v ->
  store64 host m1 buf (Z.lor (Z.shiftl hi 32) lo) = Done m.
Proof.
  intros Hl Hw Hlo Hv. destruct (load64_bytes _ _ _ Hl) as (bs & Hr & Hlen & Hc & Hb).
  unfold store64. rewrite lor_shiftl_add by exact Hlo.
  rewrite (native_split_congr host 8 _ v).
  2:{ change (Z.of_nat 8 * 8) with 64. rewrite Hv. symmetry. apply Z.mod_small, Hb. }
  rewrite (mem_write_over m buf (be_split 8 v)); [|exact Hw|].
  2:{ unfold be_split. rewrite length_rev, length_le_split. apply length_native_split. }
  rewrite <- Hc, <- Hlen, native_split_combine.
  eapply mem_write_same, Hr.
Qed.

Lemma wide_round_trip :
  forall m buf v,
    load64 host m buf = Done v ->
    exists m1,
      xdr_uint64 host xdr_encode m buf buf = Done (m1, 8) /\
      xdr_int64 host xdr_encode m buf buf = Done (m1, 8) /\
      mem_read m1 buf 8 = Done (be_split 8 v) /\
      length m1 = length m /\
      xdr_uint64 host xdr_decode m1 buf buf = Done (m, 8) /\
      xdr_int64 host xdr_decode m1 buf buf = Done (m, 8).
Proof.
  intros m buf v Hl. destruct (load64_bytes _ _ _ Hl) as (bs & Hr & Hlen & Hc & Hb).
  assert (Hsh : 0 <= Z.shiftr v 32 < 2 ^ 32).
  { rewrite Z.shiftr_div_pow2 by lia. split; [apply Z.div_pos; lia|].
    apply Z.div_lt_upper_bound; lia. }
  assert (Hmask : Z.land v (2 ^ 32 - 1) = v mod 2 ^ 32)
    by (change (2 ^ 32 - 1) with (Z.ones 32); apply Z.land_ones; lia).
  destruct (encode64 m buf v (to_int (to_uint (Z.shiftr v 32)))
              (to_int (to_uint (Z.land v (2 ^ 32 - 1)))) Hl) as (m1 & He & Hw & Hr1).
  { rewrite to_int_mod. unfold to_uint, wrap32. apply Z.mod_mod. lia. }
  { rewrite to_int_mod. unfold to_uint, wrap32. rewrite Z.mod_mod, Hmask by lia.
    apply Z.mod_mod. lia. }
  exists m1.
  destruct (decode64_words m1 buf v Hb Hr1) as (Hhi & Hlo).
  assert (Hdiv : v = Z.shiftr v 32 * 2 ^ 32 + v mod 2 ^ 32).
  { rewrite Z.shiftr_div_pow2 by lia. pose proof (Z.div_mod v (2 ^ 32)). lia. }
  pose proof (Z.mod_pos_bound v (2 ^ 32) ltac:(lia)) as Hlo32.
  split; [|split; [|split; [exact Hr1|split; [eapply mem_write_length, Hw|split]]]].
  - unfold xdr_uint64. cbn [xdr_op xdr_encode]. rewrite Hl. cbn [bind]. exact He.
  - unfold xdr_int64. cbn [xdr_op xdr_encode]. rewrite Hl. cbn [bind].
    destruct (encode64 m buf v (to_int (Z.shiftr (to_int64 v) 32))
                (to_int (to_uint (Z.land (to_int64 v) (2 ^ 32 - 1)))) Hl)
      as (m1' & He' & Hw' & _).
    + rewrite to_int_mod, !Z.shiftr_div_pow2 by lia.
      unfold to_int64, wrap64. rewrite (Z.mod_small v) by lia.
      destruct (v <? 2 ^ 63); [reflexivity|].
      replace (v - 2 ^ 64) with (v + (- 2 ^ 32) * 2 ^ 32) by lia.
      rewrite Z.div_add by lia.
      replace (v / 2 ^ 32 + - 2 ^ 32) with (v / 2 ^ 32 + (-1) * 2 ^ 32) by lia.
      apply Z.mod_add. lia.
    + rewrite to_int_mod. unfold to_uint, wrap32. rewrite Z.mod_mod by lia.
      change (2 ^ 32 - 1) with (Z.ones 32). rewrite Z.land_ones by lia.
      rewrite Z.mod_mod by lia.
      unfold to_int64, wrap64. rewrite (Z.mod_small v) by lia.
      destruct (v <? 2 ^ 63); [reflexivity|].
      replace (v - 2 ^ 64) with (v + (- 2 ^ 32) * 2 ^ 32) by lia.
      apply Z.mod_add. lia.
    + rewrite Hw in Hw'. injection Hw' as <-. exact He'.
  - unfold xdr_uint64. cbn [xdr_op xdr_decode xdr_getuint call_get]. unfold _getuint.
    rewrite Hhi. cbn [bind]. change (buf + 4) with (buf + 4). rewrite Hlo. cbn [bind].
    unfold to_uint, wrap32. rewrite (Z.mod_small (Z.shiftr v 32)) by lia.
    rewrite Z.mod_mod by lia.
    rewrite (store64_back m m1 buf v) ; [reflexivity|exact Hl|exact Hw|exact Hlo32|].
    rewrite <- Hdiv. apply Z.mod_small, Hb.
  - unfold xdr_int64. cbn [xdr_op xdr_decode xdr_getuint xdr_getint call_get].
    unfold _getuint, _getint. rewrite Hhi. cbn [bind]. rewrite Hlo. cbn [bind].
    unfold to_uint, wrap32. rewrite Z.mod_mod by lia.
    rewrite (store64_back m m1 buf v) ; [reflexivity|exact Hl|exact Hw|exact Hlo32|].
    unfold to_int, wrap32. rewrite (Z.mod_small (Z.shiftr v 32)) by lia.
    destruct (Z.shiftr v 32 <? 2 ^ 31).
    + rewrite <- Hdiv. apply Z.mod_small, Hb.
    + replace ((Z.shiftr v 32 - 2 ^ 32) * 2 ^ 32 + v mod 2 ^ 32)
        with (v + (-1) * 2 ^ 64) by lia.
      rewrite Z.mod_add by lia. apply Z.mod_small, Hb.
Qed.

End Wide.

(** X2.  On either host, [xdr_uint64] and [xdr_int64] encode the eight
    bytes of the 64-bit value at [buf] in place as the big-endian bytes of
    the value, each stepping over 8 bytes, and decoding what was encoded
    gives the block back as it was. *)
Theorem X2_xdr_uint64_and_int64_round_trip :
  forall host m buf v,
    load64 host m buf = Done v ->
    exists m1,
      xdr_uint64 host xdr_encode m buf buf = Done (m1, 8) /\
      xdr_int64 host xdr_encode m buf buf = Done (m1, 8) /\
      mem_read m1 buf 8 = Done (be_split 8 v) /\
      length m1 = length m /\
      xdr_uint64 host xdr_decode m1 buf buf = Done (m, 8) /\
      xdr_int64 host xdr_decode m1 buf buf = Done (m, 8).
Proof. exact wide_round_trip. Qed.

Lemma X2_witness :
  exists m1,
    xdr_uint64 LittleEndian xdr_encode Examples.word_block 0 0 = Done (m1, 8) /\
    xdr_int64 LittleEndian xdr_encode Examples.word_block 0 0 = Done (m1, 8) /\
    mem_read m1 0 8 = Done (be_split 8 144396663052566528) /\
    length m1 = length Examples.word_block /\
    xdr_uint64 LittleEndian xdr_decode m1 0 0 = Done (Examples.word_block, 8) /\
    xdr_int64 LittleEndian xdr_decode m1 0 0 = Done (Examples.word_block, 8).
Proof.
  apply (X2_xdr_uint64_and_int64_round_trip LittleEndian Examples.word_block 0
           144396663052566528).
  vm_compute. reflexivity.
Defined.

(** ** Words *)

Section Words.

Variable host : byte_order.

(** A word of the host is put in XDR form and read back. *)
Lemma word_there_and_back m buf v :
  load32 host m buf = Done v ->
  exists m1,
    be32enc m buf v = Done m1 /\ be32dec m1 buf = Done v /\
    mem_read m1 buf 4 = Done (be_split 4 v) /\
    store32 host m1 buf v = Done m /\ 0 <= v < 2 ^ 32.
Proof.
  intros H. pose proof (load32_bounds host _ _ _ H) as (B0 & B1 & Hb).
  unfold load32 in H. bind_inv H. injection H as Hv.
  pose proof (mem_read_bounds _ _ _ _ E) as (_ & _ & _ & Hl).
  assert (Hlen : length (be_split 4 v) = 4%nat)
    by (unfold be_split; rewrite length_rev; apply length_le_split).
  assert (Hw : exists m1, mem_write m buf (be_split 4 v) = Done m1).
  { unfold mem_write. rewrite Hlen, in_bounds_true by lia. eexists. reflexivity. }
  destruct Hw as (m1 & Hw). exists m1. unfold be32enc, be32dec, store32.
  pose proof (mem_read_written _ _ _ _ Hw) as Hr. rewrite Hlen in Hr.
  change (Z.of_nat 4) with 4 in Hr. rewrite Hr. cbn [bind].
  rewrite be_combine_split. change (Z.of_nat 4 * 8) with 32.
  rewrite Z.mod_small by exact Hb.
  repeat split; try assumption; try reflexivity; try lia.
  rewrite (mem_write_over m buf (be_split 4 v)); [|exact Hw|].
  2:{ rewrite Hlen. apply length_native_split. }
  rewrite <- Hv. replace 4%nat with (length a) by lia.
  rewrite native_split_combine. eapply mem_write_same, E.
Qed.

End Words.

(** X3.  On either host, [xdr_u_int] and [xdr_int] encode the word at
    [buf] in place as its four big-endian bytes, and decoding gives the
    block and the value back; [xdr_string] does the same to the length
    word of a string and, in both directions, returns 4 plus the length
    rounded up to a multiple of 4. *)
Theorem X3_xdr_word_round_trip :
  forall host m buf v,
    load32 host m buf = Done v ->
    exists m1,
      xdr_u_int host xdr_encode m buf v = Done (m1, 4, v) /\
      xdr_int host xdr_encode m buf (to_int v) = Done (m1, 4, to_int v) /\
      mem_read m1 buf 4 = Done (be_split 4 v) /\
      (forall u, xdr_u_int host xdr_decode m1 buf u = Done (m, 4, v)) /\
      (forall i, xdr_int host xdr_decode m1 buf i = Done (m, 4, to_int v)) /\
      (v < 2 ^ 31 - 8 ->
       xdr_string host xdr_encode m buf buf = Done (m1, 4 + NV_ALIGN4 v) /\
       xdr_string host xdr_decode m1 buf buf = Done (m, 4 + NV_ALIGN4 v)).
Proof.
  intros host m buf v H.
  destruct (word_there_and_back host m buf v H) as (m1 & He & Hd & Hr & Hs & Hb).
  exists m1.
  assert (Hei : be32enc m buf (to_int v) = Done m1).
  { unfold be32enc in *. unfold be_split in *.
    rewrite (le_split_congr 4 (to_int v) v); [exact He|apply to_int_mod]. }
  assert (Hsi : store32 host m1 buf (to_int v) = Done m).
  { unfold store32 in *. rewrite (native_split_congr host 4 (to_int v) v); [exact Hs|].
    apply to_int_mod. }
  unfold xdr_u_int, xdr_int, xdr_string.
  cbn [xdr_op xdr_encode xdr_decode xdr_putuint xdr_putint xdr_getuint xdr_getint
       call_put call_get].
  unfold _putuint, _putint, _getuint, _getint.
  rewrite He, Hei, Hd. cbn [bind]. unfold to_uint. rewrite wrap32_small by exact Hb.
  rewrite Hs, Hsi. cbn [bind].
  repeat split; try reflexivity; try assumption.
  - rewrite H. cbn [bind]. rewrite He. cbn [bind].
    pose proof (NV_ALIGN4_bounds v) as [? ?].
    change (2 ^ 31) with 2147483648 in *.
    rewrite (to_int_small v) by (change (2 ^ 31) with 2147483648; lia).
    rewrite (to_int_small (v + 4)) by (change (2 ^ 31) with 2147483648; lia).
    rewrite (Z.add_comm v 4), NV_ALIGN4_shift by reflexivity.
    rewrite to_int_small by (change (2 ^ 31) with 2147483648; lia). reflexivity.
  - rewrite H. cbn [bind].
    pose proof (NV_ALIGN4_bounds v) as [? ?].
    change (2 ^ 31) with 2147483648 in *.
    rewrite wrap32_small by (change (2 ^ 32) with 4294967296; lia).
    rewrite NV_ALIGN4_shift by reflexivity.
    rewrite to_int_small by (change (2 ^ 31) with 2147483648; lia). reflexivity.
Qed.

Lemma X3_witness :
  exists m1,
    xdr_u_int LittleEndian xdr_encode Examples.word_block 4 33619968
    = Done (m1, 4, 33619968) /\
    xdr_int LittleEndian xdr_encode Examples.word_block 4 (to_int 33619968)
    = Done (m1, 4, to_int 33619968) /\
    mem_read m1 4 4 = Done (be_split 4 33619968) /\
    (forall u, xdr_u_int LittleEndian xdr_decode m1 4 u
               = Done (Examples.word_block, 4, 33619968)) /\
    (forall i, xdr_int LittleEndian xdr_decode m1 4 i
               = Done (Examples.word_block, 4, to_int 33619968)) /\
    (33619968 < 2 ^ 31 - 8 ->
     xdr_string LittleEndian xdr_encode Examples.word_block 4 4
     = Done (m1, 4 + NV_ALIGN4 33619968) /\
     xdr_string LittleEndian xdr_decode m1 4 4
     = Done (Examples.word_block, 4 + NV_ALIGN4 33619968)).
Proof.
  apply (X3_xdr_word_round_trip LittleEndian Examples.word_block 4 33619968).
  vm_compute. reflexivity.
Defined.

(** ** Creation, removal and addition on any handle *)

Lemma create_stores host flag :
  (nvs <- store32 host (zeros (Z.to_nat sizeof_nvs_data)) 0 NV_VERSION ;;
   store32 host nvs offsetof_nvl_nvflag flag)
  = Done (native_split host 4 NV_VERSION ++ native_split host 4 flag ++ zeros 8).
Proof.
  unfold store32, sizeof_nvs_data, offsetof_nvl_nvflag.
  change (zeros (Z.to_nat 16)) with (@nil byte ++ zeros 16 ++ @nil byte).
  rewrite (write_fresh [] 16 [] 0) by (rewrite ?length_native_split; simpl; lia).
  cbn [bind].
  rewrite (write_fresh _ _ [] 0) by (rewrite ?length_app, ?length_native_split; simpl; lia).
  rewrite !length_native_split. cbn [Nat.sub]. change (zeros 0) with (@nil byte).
  cbn [app]. rewrite <- !app_assoc, app_nil_r. reflexivity.
Qed.

(** X4.  [nvlist_create] always returns.  It returns null exactly when one
    of its two allocations is refused, and then no block stays allocated;
    otherwise the list has a block of 16 bytes, a used size of 16 and two
    live blocks, which [nvlist_destroy] frees again. *)
Theorem X4_nvlist_create_and_destroy_balance :
  forall host flag h,
    exists r h',
      nvlist_create host flag h = Done (r, h') /\
      match r with
      | None => heap_live h' = heap_live h /\ In false (firstn 2 (heap_plan h))
      | Some l =>
          heap_live h' = heap_live h + 2 /\ ~ In false (firstn 2 (heap_plan h)) /\
          nv_data l = Some 0 /\ nv_size l = 16 /\ nv_asize l = 16 /\
          length (nv_mem l) = 16%nat /\
          heap_live (nvlist_destroy (Some l) h') = heap_live h
      end.
Proof.
  intros host flag [plan live junk]. unfold nvlist_create, alloc, next_request.
  cbn [heap_plan heap_live heap_junk].
  pose proof (create_stores host flag) as Hs.
  destruct (store32 host (zeros (Z.to_nat sizeof_nvs_data)) 0 NV_VERSION) as [nvs| |];
    cbn [bind] in Hs; try discriminate.
  destruct plan as [|[|] [|[|] plan]]; cbn [negb firstn In bind];
    try (eexists _, _; split; [reflexivity|]; cbn; split; [lia|tauto]).
  all: rewrite Hs; cbn [bind]; eexists _, _; (split; [reflexivity|]);
    cbn [nv_data nv_size nv_asize nv_mem nvlist_destroy heap_live free];
    rewrite ?length_app, ?length_native_split, ?len_zeros;
    repeat split; try reflexivity; try lia; try (cbn; lia); intuition discriminate.
Qed.

Section Generic.

Variable host : byte_order.

Lemma remove_loop_hit fuel : forall nvl data name type head nvl',
  nvlist_remove_loop host fuel nvl data name type head = Done (0, nvl') ->
  nv_header nvl' = nv_header nvl /\ nv_asize nvl' = nv_asize nvl /\
  nv_data nvl' = nv_data nvl /\ nv_idx nvl' = nv_idx nvl /\
  length (nv_mem nvl') = length (nv_mem nvl) /\
  exists encoded_size, 0 < encoded_size < 2 ^ 32 /\
    nv_size nvl' = size_sub (nv_size nvl) encoded_size.
Proof.
  induction fuel as [|fuel IH]; intros nvl data name type head nvl' H;
    rewrite nvlist_remove_loop_eq in H; cbv zeta in H.
  - bind_inv H. destruct (a =? 0); [discriminate|].
    bind_inv H. destruct (a0 =? 0); discriminate.
  - bind_inv H. destruct (a =? 0) eqn:Ea; [discriminate|].
    bind_inv H. destruct (a0 =? 0); [discriminate|].
    bind_inv H. destruct a1.
    + bind_inv H. injection H as <-. cbn [set_data nv_header nv_asize nv_data nv_idx nv_mem nv_size].
      repeat split; try reflexivity.
      * unfold bcopy in E2. bind_inv E2. eapply mem_write_length, E2.
      * exists a. apply load32_bounds in E. apply Z.eqb_neq in Ea. split; [lia|reflexivity].
    + eapply IH; eassumption.
Qed.

Lemma remove_outcome :
  forall nvl name type rv nvl',
    nvlist_remove host nvl name type = Done (rv, nvl') ->
    (rv = 0 \/ rv = ENOENT \/ rv = EINVAL) /\
    (rv <> 0 -> nvl' = nvl) /\
    (rv = EINVAL <-> nvl = None \/ name = None \/
                     exists l, nvl = Some l /\ nv_data l = None) /\
    (rv = 0 ->
     exists l l' encoded_size,
       nvl = Some l /\ nvl' = Some l' /\
       nv_header l' = nv_header l /\ nv_asize l' = nv_asize l /\
       nv_data l' = nv_data l /\ nv_idx l' = nv_idx l /\
       length (nv_mem l') = length (nv_mem l) /\
       0 < encoded_size < 2 ^ 32 /\
       nv_size l' = size_sub (nv_size l) encoded_size).
Proof.
  intros nvl name type rv nvl' H. unfold nvlist_remove in H.
  destruct nvl as [l|]; [destruct name as [n|]; [destruct (nv_data l) as [data|] eqn:Ed|]|].
  2-4: injection H as <- <-; split; [tauto|]; split; [reflexivity|];
       split; [split; [intros _; eauto 6|reflexivity]|discriminate].
  bind_inv H. destruct a as [rv1 l1]. injection H as <- <-.
  assert (Hrv : rv1 = 0 \/ rv1 = ENOENT).
  { clear -E. revert E. generalize (data + offsetof_nvl_pair) as head.
    generalize (length (nv_mem l)) as fuel. intros fuel.
    induction fuel as [|fuel IH]; intros head H;
      rewrite nvlist_remove_loop_eq in H; cbv zeta in H.
    - bind_inv H. destruct (a =? 0); [injection H as <- <-; tauto|].
      bind_inv H. destruct (a0 =? 0); [injection H as <- <-; tauto|discriminate].
    - bind_inv H. destruct (a =? 0); [injection H as <- <-; tauto|].
      bind_inv H. destruct (a0 =? 0); [injection H as <- <-; tauto|].
      bind_inv H. destruct a1.
      + bind_inv H. injection H as <- <-. tauto.
      + eapply IH, H. }
  split; [tauto|]. split; [|split].
  - intros Hne. f_equal. eapply remove_loop_miss; eassumption.
  - split.
    + intros ->. destruct Hrv; discriminate.
    + intros [Hn|[Hn|(l0 & Hl & Hd)]]; try discriminate. congruence.
  - intros ->. destruct (remove_loop_hit _ _ _ _ _ _ _ E)
      as (H1 & H2 & H3 & H4 & H5 & enc & H6 & H7).
    exists l, l1, enc. repeat split; try assumption; lia.
Qed.

Lemma unique_remove_keeps nvl name type nvl' :
  unique_remove host nvl name type = Done nvl' ->
  nv_header nvl' = nv_header nvl /\ nv_asize nvl' = nv_asize nvl /\
  nv_data nvl' = nv_data nvl /\ length (nv_mem nvl') = length (nv_mem nvl).
Proof.
  unfold unique_remove. intros H. bind_inv H. bind_inv H.
  destruct (negb (Z.land a0 NV_UNIQUE_NAME =? 0)); [|injection H as <-; tauto].
  bind_inv H. destruct a1 as [rv r]. injection H as <-.
  destruct (remove_outcome _ _ _ _ _ E1) as (_ & Hmiss & _ & Hhit).
  destruct (Z.eq_dec rv 0) as [->|Hne].
  - destruct (Hhit eq_refl) as (l & l' & enc & [= <-] & -> & H1 & H2 & H3 & _ & H5 & _).
    tauto.
  - rewrite (Hmiss Hne). tauto.
Qed.

Lemma ensure_room_keeps nvl enc h rv nvl' h' :
  ensure_room nvl enc h = Done (rv, nvl', h') -> 0 <= enc ->
  nv_header nvl' = nv_header nvl /\ nv_data nvl' = nv_data nvl /\
  nv_size nvl' = nv_size nvl /\ nv_asize nvl <= nv_asize nvl' /\
  heap_live h' = heap_live h /\
  (heap_plan h = [] -> heap_plan h' = []) /\
  (rv = 0 \/ (rv = ENOMEM /\ nvl' = nvl /\ heap_plan h = false :: heap_plan h')).
Proof.
  unfold ensure_room. intros H Henc.
  destruct (_ <? _); [|injection H as <- <- <-; repeat split; try reflexivity; try lia; tauto].
  bind_inv H. destruct (negb (a =? 0)); [discriminate|].
  unfold realloc, next_request in H. destruct h as [plan live junk].
  cbn [heap_plan heap_live heap_junk] in *.
  destruct plan as [|[|] plan]; cbn [negb] in H; injection H as <- <- <-;
    cbn [nv_header nv_data nv_size nv_asize heap_live heap_plan];
    repeat split; try reflexivity; try lia; try discriminate; tauto.
Qed.

Lemma add_uint64_keeps nvl name value h rv nvl' h' :
  nvlist_add_uint64 host nvl name value h = Done (rv, nvl', h') ->
  (rv = 0 \/ rv = ENOMEM) /\
  nv_header nvl' = nv_header nvl /\ nv_data nvl' = nv_data nvl /\
  nv_asize nvl <= nv_asize nvl' /\
  heap_live h' = heap_live h /\
  (heap_plan h = [] -> heap_plan h' = []) /\
  (rv = ENOMEM -> heap_plan h = false :: heap_plan h').
Proof.
  intros H. unfold nvlist_add_uint64 in H. bind_inv H. cbv zeta in H.
  bind_inv H. destruct a0 as [[rv2 nvl2] h2].
  apply unique_remove_keeps in E. destruct E as (K1 & K2 & K3 & K4).
  apply ensure_room_keeps in E0; [|unfold to_uint, wrap32; apply Z.mod_pos_bound; lia].
  destruct E0 as (R1 & R2 & R3 & R4 & R5 & R6 & R7).
  destruct R7 as [->|(-> & -> & Hp)]; cbn [Z.eqb negb ENOMEM] in H.
  - repeat bind_inv H. injection H as <- <- <-.
    cbn [nv_header nv_data nv_asize].
    repeat split; try congruence; try lia; try tauto. discriminate.
  - injection H as <- <- <-. repeat split; try congruence; try lia; tauto.
Qed.

Lemma add_string_keeps nvl name value h rv nvl' h' :
  nvlist_add_string host nvl name value h = Done (rv, nvl', h') ->
  (rv = 0 \/ rv = ENOMEM) /\
  nv_header nvl' = nv_header nvl /\ nv_data nvl' = nv_data nvl /\
  nv_asize nvl <= nv_asize nvl' /\
  heap_live h' = heap_live h /\
  (heap_plan h = [] -> heap_plan h' = []) /\
  (rv = ENOMEM -> heap_plan h = false :: heap_plan h').
Proof.
  intros H. unfold nvlist_add_string in H. bind_inv H. cbv zeta in H.
  bind_inv H. destruct a0 as [[rv2 nvl2] h2].
  apply unique_remove_keeps in E. destruct E as (K1 & K2 & K3 & K4).
  apply ensure_room_keeps in E0; [|unfold to_uint, wrap32; apply Z.mod_pos_bound; lia].
  destruct E0 as (R1 & R2 & R3 & R4 & R5 & R6 & R7).
  destruct R7 as [->|(-> & -> & Hp)]; cbn [Z.eqb negb ENOMEM] in H.
  - repeat bind_inv H. injection H as <- <- <-.
    cbn [nv_header nv_data nv_asize].
    repeat split; try congruence; try lia; try tauto. discriminate.
  - injection H as <- <- <-. repeat split; try congruence; try lia; tauto.
Qed.

End Generic.





(** ** The length of the block under translation *)

Ltac inv_step H :=
  first
    [ apply bind_Done in H;
      let a := fresh "a" in let E := fresh "E" in destruct H as (a & E & H)
    | match type of H with
      | context [let '(_, _) := ?p in _] => destruct p
      end ].

Ltac write_lengths :=
  unfold _putint, _putuint, _getint, _getuint, store32, store16, store64, store8, be32enc in *;
  repeat match goal with
         | H : Done _ = Done _ |- _ => inversion H; subst; clear H
         | H : mem_write _ _ _ = Done _ |- _ => apply mem_write_length in H
         | H : _ = Done _ |- _ => inv_step H
         end.

Section Walk.

Variable host : byte_order.
Variable x : xdr_t.
Hypothesis Hx : xdr_codec x.

Lemma xdr_u_int_length m buf v m' rv v' :
  xdr_u_int host x m buf v = Done (m', rv, v') -> length m' = length m.
Proof.
  unfold xdr_u_int. destruct Hx as [-> | ->];
    cbn [xdr_op xdr_encode xdr_decode xdr_putuint xdr_getuint call_put call_get];
    intros H; write_lengths; congruence.
Qed.

Lemma xdr_int_length m buf v m' rv v' :
  xdr_int host x m buf v = Done (m', rv, v') -> length m' = length m.
Proof.
  unfold xdr_int. destruct Hx as [-> | ->];
    cbn [xdr_op xdr_encode xdr_decode xdr_putint xdr_getint call_put call_get];
    intros H; write_lengths; congruence.
Qed.

Lemma xdr_string_length m buf s m' size :
  xdr_string host x m buf s = Done (m', size) -> length m' = length m.
Proof.
  unfold xdr_string. destruct Hx as [-> | ->];
    cbn [xdr_op xdr_encode xdr_decode xdr_putuint xdr_getuint call_put call_get];
    intros H; write_lengths; congruence.
Qed.

Lemma xdr_uint64_length m buf lp m' rv :
  xdr_uint64 host x m buf lp = Done (m', rv) -> length m' = length m.
Proof.
  unfold xdr_uint64. destruct Hx as [-> | ->];
    cbn [xdr_op xdr_encode xdr_decode xdr_putint xdr_getuint call_put call_get];
    intros H; write_lengths; congruence.
Qed.

Lemma xdr_int64_length m buf lp m' rv :
  xdr_int64 host x m buf lp = Done (m', rv) -> length m' = length m.
Proof.
  unfold xdr_int64. destruct Hx as [-> | ->];
    cbn [xdr_op xdr_encode xdr_decode xdr_putint xdr_getint xdr_getuint call_put call_get];
    intros H; write_lengths; congruence.
Qed.

Lemma xdr_char_length m buf cp m' rv :
  xdr_char host x m buf cp = Done (m', rv) -> length m' = length m.
Proof.
  unfold xdr_char. intros H. inv_step H. inv_step H. destruct a0 as [[m1 rv1] i1].
  apply xdr_int_length in E0.
  destruct (xdr_op x); write_lengths; congruence.
Qed.

Lemma xdr_short_length m buf ip m' rv :
  xdr_short host x m buf ip = Done (m', rv) -> length m' = length m.
Proof.
  unfold xdr_short. intros H. inv_step H. inv_step H. destruct a0 as [[m1 rv1] i1].
  apply xdr_int_length in E0.
  destruct (xdr_op x); write_lengths; congruence.
Qed.

Lemma xdr_u_short_length m buf ip m' rv :
  xdr_u_short host x m buf ip = Done (m', rv) -> length m' = length m.
Proof.
  unfold xdr_u_short. intros H. inv_step H. inv_step H. destruct a0 as [[m1 rv1] i1].
  apply xdr_u_int_length in E0.
  destruct (xdr_op x); write_lengths; congruence.
Qed.

Lemma xdr_pair_header_length m idx nvph m' idx' enc dec :
  xdr_pair_header host x m idx nvph = Done (m', idx', enc, dec) -> length m' = length m.
Proof.
  unfold xdr_pair_header. destruct Hx as [-> | ->];
    cbn [xdr_op xdr_encode xdr_decode xdr_putuint xdr_getuint call_put call_get];
    intros H; write_lengths; congruence.
Qed.

Lemma walk_length fuel :
  (forall m data m' idx rv,
     nvlist_xdr_nvlist host fuel x m data = Done (m', idx, rv) -> length m' = length m) /\
  (forall m idx enc dec m' idx' rv,
     nvlist_xdr_pairs host fuel x m idx enc dec = Done (m', idx', rv) ->
     length m' = length m) /\
  (forall m idx m' idx' rv,
     nvlist_xdr_nvp host fuel x m idx = Done (m', idx', rv) -> length m' = length m) /\
  (forall m data idx i nelem m' idx',
     nvlist_xdr_array host fuel x m data idx i nelem = Done (m', idx') ->
     length m' = length m).
Proof.
  induction fuel as [|fuel (IHl & IHp & IHn & IHa)].
  - repeat split; intros; cbn in *; try discriminate.
    + destruct (_ && _); [discriminate|congruence].
    + destruct (_ <? _); [discriminate|congruence].
  - repeat split.
    + intros m data m' idx rv H. cbn [nvlist_xdr_nvlist] in H.
      inv_step H. destruct a as [m1 idx1].
      inv_step H. destruct a as [[[m2 idx2] enc2] dec2].
      apply IHp in H.
      assert (H1 : length m1 = length m).
      { destruct Hx as [-> | ->];
          cbn [xdr_op xdr_encode xdr_decode xdr_putuint xdr_getuint call_put call_get] in E;
          write_lengths; congruence. }
      assert (H2 : length m2 = length m1).
      { destruct Hx as [Hc | Hc]; rewrite Hc in E0;
          cbn [xdr_op xdr_encode xdr_decode] in E0.
        - rewrite <- Hc in E0. eapply xdr_pair_header_length, E0.
        - cbn [xdr_getuint call_get] in E0. write_lengths; congruence. }
      congruence.
    + intros m idx enc dec m' idx' rv H. cbn [nvlist_xdr_pairs] in H.
      destruct (_ && _); [|congruence].
      inv_step H. destruct a as [[m1 idx1] rv1].
      apply IHn in E. destruct (negb (rv1 =? 0)); [congruence|].
      inv_step H. destruct a as [[[m2 idx2] enc2] dec2].
      apply xdr_pair_header_length in E0. apply IHp in H. congruence.
    + intros m idx m' idx' rv H. cbn [nvlist_xdr_nvp] in H.
      inv_step H. destruct a as [m1 size]. apply xdr_string_length in E.
      inv_step H. inv_step H.
      inv_step H. destruct a1 as [[m2 rv2] type]. apply xdr_u_int_length in E2.
      inv_step H. destruct a1 as [[m3 rv3] nelem]. apply xdr_u_int_length in E3.
      inv_step H. destruct a1 as [m4 idx4]. injection H as <- _ _.
      assert (H4 : length m4 = length m3); [|congruence].
      clear -E4 IHa Hx.
      repeat match type of E4 with
             | (if ?c then _ else _) = _ => destruct c
             end;
        try (apply IHa in E4; exact E4);
        try (injection E4 as <- _; reflexivity);
        repeat inv_step E4;
        repeat match goal with
               | p : (mem * Z * Z)%type |- _ => destruct p as [[? ?] ?]
               | p : (mem * Z)%type |- _ => destruct p as [? ?]
               end;
        injection E4 as <- _;
        first [ eapply xdr_char_length; eassumption
              | eapply xdr_short_length; eassumption
              | eapply xdr_u_short_length; eassumption
              | eapply xdr_int_length; eassumption
              | eapply xdr_u_int_length; eassumption
              | eapply xdr_int64_length; eassumption
              | eapply xdr_uint64_length; eassumption
              | eapply xdr_string_length; eassumption ].
    + intros m data idx i nelem m' idx' H. cbn [nvlist_xdr_array] in H.
      destruct (_ <? _); [|congruence].
      inv_step H. inv_step H. destruct a0 as [[m1 idx1] rv1].
      apply IHl in E0. apply IHa in H. congruence.
Qed.

End Walk.

(** ** Export and import on any handle *)

(** X7.  Whenever [nvlist_export] returns, the header, the capacity, the
    used size, the data pointer and the length of the block are as
    before.  The result is [ENOTSUP] with the handle untouched when the
    encoding of the header is not [NV_ENCODE_XDR], and 0 otherwise. *)
Theorem X7_nvlist_export_keeps_the_handle :
  forall host fuel nvl rv nvl',
    nvlist_export host fuel nvl = Done (rv, nvl') ->
    nv_header nvl' = nv_header nvl /\ nv_asize nvl' = nv_asize nvl /\
    nv_size nvl' = nv_size nvl /\ nv_data nvl' = nv_data nvl /\
    length (nv_mem nvl') = length (nv_mem nvl) /\
    ((rv = ENOTSUP /\ nvl' = nvl /\
      byte.unsigned (nvh_encoding (nv_header nvl)) <> NV_ENCODE_XDR) \/
     (rv = 0 /\ byte.unsigned (nvh_encoding (nv_header nvl)) = NV_ENCODE_XDR)).
Proof.
  intros host fuel nvl rv nvl' H. unfold nvlist_export in H.
  destruct (byte.unsigned (nvh_encoding (nv_header nvl)) =? NV_ENCODE_XDR) eqn:Ee;
    cbn [negb] in H.
  - apply Z.eqb_eq in Ee. bind_inv H. bind_inv H. destruct a0 as [[m idx] rv0].
    injection H as <- <-. cbn [nv_header nv_asize nv_size nv_data nv_mem].
    pose proof (nvlist_xdr_nvlist_rv _ _ _ _ _ _ _ _ E0). subst rv0.
    apply (proj1 (walk_length host xdr_encode (or_introl eq_refl) fuel)) in E0.
    repeat split; try reflexivity; try assumption. right. split; [reflexivity|assumption].
  - apply Z.eqb_neq in Ee. injection H as <- <-.
    repeat split; try reflexivity. left. repeat split; assumption.
Qed.

Lemma X7_witness :
  nv_header (Examples.exported (nvlist_export LittleEndian 16 Examples.version_list))
  = nv_header Examples.version_list /\
  nv_asize (Examples.exported (nvlist_export LittleEndian 16 Examples.version_list))
  = nv_asize Examples.version_list /\
  nv_size (Examples.exported (nvlist_export LittleEndian 16 Examples.version_list))
  = nv_size Examples.version_list /\
  nv_data (Examples.exported (nvlist_export LittleEndian 16 Examples.version_list))
  = nv_data Examples.version_list /\
  length (nv_mem (Examples.exported (nvlist_export LittleEndian 16 Examples.version_list)))
  = length (nv_mem Examples.version_list) /\
  ((0 = ENOTSUP /\
    Examples.exported (nvlist_export LittleEndian 16 Examples.version_list)
    = Examples.version_list /\
    byte.unsigned (nvh_encoding (nv_header Examples.version_list)) <> NV_ENCODE_XDR) \/
   (0 = 0 /\
    byte.unsigned (nvh_encoding (nv_header Examples.version_list)) = NV_ENCODE_XDR)).
Proof.
  apply (X7_nvlist_export_keeps_the_handle LittleEndian 16 Examples.version_list 0).
  vm_compute. reflexivity.
Defined.





Lemma alloc_live h h' : alloc h = (true, h') -> heap_live h' = heap_live h + 1.
Proof.
  unfold alloc, next_request. destruct (heap_plan h) as [|[|] ?]; intros [= <-];
    reflexivity.
Qed.



(** ** The size walk on the buffer of a list *)

Section SizeWalk.

Variable host : byte_order.

Lemma to_uint_to_int v : 0 <= v < 2 ^ 32 -> to_uint (to_int v) = v.
Proof.
  intros H. unfold to_uint, wrap32. rewrite to_int_mod. apply Z.mod_small, H.
Qed.

Lemma xdrmem_reads_host_words : reads_host_words host (xdrmem host).
Proof.
  intros m p. cbn [xdrmem xdr_getuint call_get]. unfold mem_uint.
  destruct (load32 host m p) as [v| |] eqn:E; cbn [bind]; try reflexivity.
  apply load32_bounds in E. rewrite to_uint_to_int by lia. reflexivity.
Qed.

Variable x : xdr_t.
Hypothesis Hget : reads_host_words host x.

Lemma size_loop_laid : forall items pre fuel slack,
  Forall item_ok items -> (length items <= fuel)%nat ->
  let m := pre ++ pairs_bytes host items ++ zeros 8 ++ slack in
  exists enc dec,
    load32 host m (Z.of_nat (length pre)) = Done enc /\
    load32 host m (Z.of_nat (length pre) + 4) = Done dec /\
    forall p, p = Z.of_nat (length pre) + 8 ->
      nvlist_size_loop fuel x m (Z.of_nat (length pre)) p enc dec
      = Done (Z.of_nat (length pre) + Z.of_nat (length (pairs_bytes host items)) + 8).
Proof.
  induction items as [|it items IH]; intros pre fuel slack Hok Hfuel m; subst m.
  - change (pairs_bytes host []) with (@nil byte). rewrite app_nil_l.
    exists 0, 0. rewrite zeros8_split with (host := host), <- !app_assoc.
    rewrite load32_skip, Z.sub_diag, load32_here by lia.
    rewrite load32_skip by lia.
    replace (Z.of_nat (length pre) + 4 - Z.of_nat (length pre)) with 4 by lia.
    rewrite load32_skip by (len_simpl; lia). len_simpl.
    rewrite load32_here by lia.
    split; [reflexivity|]. split; [reflexivity|].
    intros p ->. destruct fuel; cbn [nvlist_size_loop Z.eqb negb andb length]; f_equal; lia.
  - inversion Hok as [|? ? Hit Hok']; subst.
    destruct fuel as [|fuel]; [simpl in Hfuel; lia|].
    pose proof (item_sizes host it Hit) as (? & ? & ? & ? & ? & ?).
    pose proof (length_pair_bytes host it Hit) as Hlen.
    set (rest := pairs_bytes host items ++ zeros 8 ++ slack) in *.
    destruct (pair_fields host it rest Hit) as (Henc & Hdec & _).
    assert (Hm' : pre ++ pairs_bytes host (it :: items) ++ zeros 8 ++ slack
                  = pre ++ pair_bytes host it ++ rest).
    { unfold rest, pairs_bytes. cbn [map concat]. rewrite <- !app_assoc. reflexivity. }
    rewrite Hm'.
    exists (item_encoded_size it), (item_decoded_size it).
    rewrite load32_skip, Z.sub_diag, Henc by lia.
    rewrite load32_skip by lia.
    replace (Z.of_nat (length pre) + 4 - Z.of_nat (length pre)) with 4 by lia.
    rewrite Hdec. split; [reflexivity|]. split; [reflexivity|].
    intros p ->. cbn [nvlist_size_loop].
    destruct (item_encoded_size it =? 0) eqn:E0; [apply Z.eqb_eq in E0; lia|].
    destruct (item_decoded_size it =? 0) eqn:E1; [apply Z.eqb_eq in E1; lia|].
    cbn [negb andb]. cbv zeta.
    destruct (IH (pre ++ pair_bytes host it) fuel slack Hok' ltac:(simpl in Hfuel; lia))
      as (enc & dec & Le & Ld & Hloop).
    rewrite length_app, Nat2Z.inj_add, Hlen in Le, Ld, Hloop.
    rewrite <- app_assoc in Le, Ld, Hloop. fold rest in Le, Ld, Hloop.
    rewrite Hget, Le. cbn [bind]. rewrite Hget, Ld. cbn [bind].
    rewrite Hloop by lia. f_equal.
    unfold pairs_bytes. cbn [map concat]. rewrite length_app. lia.
Qed.

(** [nvlist_size] on the buffer of a list. *)
Lemma size_laid_out nvl flag items :
  laid_out host nvl flag items -> nv_size nvl < 2 ^ 31 ->
  nvlist_size x (nv_mem nvl) 0 = Done (nv_size nvl).
Proof.
  intros (Hd & Ha & Hok & slack & Hm & Hs) Hsmall.
  destruct (size_loop_laid items
              (native_split host 4 NV_VERSION ++ native_split host 4 flag)
              (length (nv_mem nvl)) slack Hok) as (enc & dec & Le & Ld & Hloop).
  { rewrite Hm, !length_app. pose proof (length_items_le host items). lia. }
  rewrite length_app, !length_native_split in Le, Ld, Hloop.
  assert (Hm' : (native_split host 4 NV_VERSION ++ native_split host 4 flag) ++
                pairs_bytes host items ++ zeros 8 ++ slack = nv_mem nvl)
    by (rewrite Hm, <- !app_assoc; reflexivity).
  rewrite Hm' in Le, Ld, Hloop.
  unfold nvlist_size, sizeof_unsigned. cbv zeta.
  change (0 + 2 * 4) with (Z.of_nat (4 + 4)).
  rewrite Hget, Le. cbn [bind]. rewrite Hget, Ld. cbn [bind].
  rewrite Hloop by lia. cbn [bind]. f_equal.
  rewrite Hs in *. unfold sizeof_nvs_data in *.
  replace (Z.of_nat (4 + 4) + Z.of_nat (length (pairs_bytes host items)) + 8 - 0)
    with (16 + Z.of_nat (length (pairs_bytes host items))) by lia.
  apply to_int_small. lia.
Qed.

End SizeWalk.

(** X9.  On the buffer of a list that the add and remove functions have
    written, [nvlist_size] with the getters that read the host's words
    returns the used size [nv_size] of the list. *)
Theorem X9_nvlist_size_is_the_used_size :
  forall host nvl flag items,
    laid_out host nvl flag items -> nv_size nvl < 2 ^ 31 ->
    nvlist_size (xdrmem host) (nv_mem nvl) 0 = Done (nv_size nvl).
Proof.
  intros host nvl flag items Hl Hs.
  exact (size_laid_out host (xdrmem host) (xdrmem_reads_host_words host) nvl flag items Hl Hs).
Qed.

(** The list of scenario 1 holds its two pairs. *)
Lemma bootenv_list_laid_out :
  laid_out LittleEndian Examples.bootenv_list NV_UNIQUE_NAME
    [uint64_item Examples.version 1; string_item Examples.bootonce Examples.tank].
Proof.
  unfold laid_out. split; [reflexivity|]. split; [reflexivity|]. split.
  - repeat constructor; vm_compute; reflexivity.
  - exists []. split; vm_compute; reflexivity.
Qed.

Lemma X9_witness :
  nvlist_size (xdrmem LittleEndian) (nv_mem Examples.bootenv_list) 0
  = Done (nv_size Examples.bootenv_list).
Proof.
  apply (X9_nvlist_size_is_the_used_size LittleEndian Examples.bootenv_list NV_UNIQUE_NAME
           [uint64_item Examples.version 1; string_item Examples.bootonce Examples.tank]).
  - exact bootenv_list_laid_out.
  - vm_compute. reflexivity.
Defined.

(** ** The first pair that matches *)

Section FirstMatch.

Variable host : byte_order.

Lemma pairs_bytes_app l1 l2 :
  pairs_bytes host (l1 ++ l2) = pairs_bytes host l1 ++ pairs_bytes host l2.
Proof. unfold pairs_bytes. rewrite map_app, concat_app. reflexivity. Qed.

Lemma pairs_bytes_cons it l :
  pairs_bytes host (it :: l) = pair_bytes host it ++ pairs_bytes host l.
Proof. reflexivity. Qed.

Lemma first_match_split f : forall items off,
  Forall item_ok items ->
  match first_match f off items with
  | Some (it, o) =>
      exists l1 l2,
        items = l1 ++ it :: l2 /\ f it = true /\ existsb f l1 = false /\
        o = off + Z.of_nat (length (pairs_bytes host l1)) /\
        remove_first f items = l1 ++ l2
  | None => existsb f items = false /\ remove_first f items = items
  end.
Proof.
  induction items as [|it items IH]; intros off Hok; cbn [first_match existsb remove_first].
  - split; reflexivity.
  - inversion Hok as [|? ? Hit Hok']; subst.
    destruct (f it) eqn:Ef.
    + exists [], items. cbn. repeat split; try assumption; lia.
    + specialize (IH (off + item_encoded_size it) Hok').
      destruct (first_match f (off + item_encoded_size it) items) as [[it' o]|].
      * destruct IH as (l1 & l2 & -> & Hf & Hn & -> & Hr).
        exists (it :: l1), l2. cbn [app existsb]. rewrite Ef, Hn, Hr.
        repeat split; try assumption.
        rewrite pairs_bytes_cons, length_app, Nat2Z.inj_add.
        rewrite (length_pair_bytes host it Hit). lia.
      * destruct IH as (Hn & Hr). cbn [orb]. rewrite Hn, Hr. split; reflexivity.
Qed.

Lemma remove_miss_same nvl name type rv nvl' :
  nvlist_remove host (Some nvl) (Some name) type = Done (rv, Some nvl') ->
  rv <> 0 -> nvl' = nvl.
Proof.
  unfold nvlist_remove. destruct (nv_data nvl) as [data|].
  - intros H Hrv. bind_inv H. destruct a as [rv1 l1]. injection H as <- <-.
    eapply remove_loop_miss; eassumption.
  - intros [= <- <-]. reflexivity.
Qed.

(** The bytes of a string value and the NUL behind them. *)
Lemma pair_string_bytes it s rest :
  item_ok it -> item_val it = ItemString s ->
  mem_read (pair_bytes host it ++ rest) (24 + NV_ALIGN4 (item_namelen it))
    (Z.of_nat (length s) + 1) = Done (s ++ [Byte.x00]).
Proof.
  intros Hok Hs. pose proof (item_sizes host it Hok) as (? & ? & ? & ? & ? & Hp).
  pose proof (NV_ALIGN4_bounds (item_namelen it)) as [? ?].
  pose proof (NV_ALIGN_bounds (item_valuelen it + 1)) as [? ?].
  unfold pair_bytes, item_payload, item_encoded_size, item_valuelen in *.
  rewrite Hs in *. rewrite <- !app_assoc.
  do 8 (rewrite mem_read_app_r by (len_simpl; unfold item_namelen in *; lia); len_simpl).
  match goal with
  | |- context [zeros ?k] =>
      replace (zeros k) with ([Byte.x00] ++ zeros (k - 1))
  end.
  2:{ match goal with |- _ = zeros ?k => remember k as n eqn:Ek end.
      destruct n as [|n].
      - exfalso. unfold item_namelen in *. lia.
      - cbn [Nat.sub]. rewrite Nat.sub_0_r. reflexivity. }
  rewrite <- ?app_assoc. rewrite (app_assoc s [Byte.x00]).
  apply mem_read_here; rewrite ?length_app; cbn [length]; unfold item_namelen in *; lia.
Qed.

(** The buffer around the pair that [first_match] gives. *)
Lemma first_match_memory nvl flag items f it off :
  laid_out host nvl flag items ->
  first_match f 8 items = Some (it, off) ->
  item_ok it /\
  exists pre rest,
    nv_mem nvl = pre ++ pair_bytes host it ++ rest /\ Z.of_nat (length pre) = off.
Proof.
  intros (Hd & Ha & Hok & slack & Hm & Hs) Hf.
  pose proof (first_match_split f items 8 Hok) as H. rewrite Hf in H.
  destruct H as (l1 & l2 & -> & _ & _ & -> & _).
  split.
  { rewrite Forall_forall in Hok. apply Hok, in_or_app. right. left. reflexivity. }
  exists ((native_split host 4 NV_VERSION ++ native_split host 4 flag) ++ pairs_bytes host l1),
         (pairs_bytes host l2 ++ zeros 8 ++ slack).
  split.
  - rewrite Hm, pairs_bytes_app, pairs_bytes_cons, <- !app_assoc. reflexivity.
  - rewrite !length_app, !length_native_split. lia.
Qed.

End FirstMatch.

(** X10.  On a list that the add and remove functions have written,
    [nvlist_remove] returns 0 when a pair matches and takes out the first
    such pair: the pairs before and behind it stay in their order, the
    used size goes down by the [encoded_size] of that pair, and the
    capacity stays.  When no pair matches it returns [ENOENT] and the
    handle is as it was. *)
Theorem X10_nvlist_remove_takes_out_the_first_match :
  forall host nvl flag items name type,
    laid_out host nvl flag items ->
    exists rv nvl',
      nvlist_remove host (Some nvl) (Some name) type = Done (rv, Some nvl') /\
      laid_out host nvl' flag (remove_first (item_matches name type) items) /\
      nv_asize nvl' = nv_asize nvl /\
      match first_match (item_matches name type) 8 items with
      | Some (it, off) => rv = 0 /\ nv_size nvl' = nv_size nvl - item_encoded_size it
      | None => rv = ENOENT /\ nvl' = nvl
      end.
Proof.
  intros host nvl flag items name type Hl.
  destruct (remove_laid_out host nvl flag items name type Hl)
    as (rv & nvl' & Hrun & Hl' & _ & Ha & Hrv & Hiff).
  exists rv, nvl'. split; [exact Hrun|]. split; [exact Hl'|]. split; [exact Ha|].
  pose proof Hl as (_ & _ & Hok & slack & _ & Hs).
  pose proof Hl' as (_ & _ & Hok' & slack' & _ & Hs').
  pose proof (first_match_split host (item_matches name type) items 8 Hok) as H.
  destruct (first_match (item_matches name type) 8 items) as [[it off]|].
  - destruct H as (l1 & l2 & -> & Hf & Hn & -> & Hr).
    assert (Hex : existsb (item_matches name type) (l1 ++ it :: l2) = true).
    { rewrite existsb_app. cbn [existsb]. rewrite Hf. apply orb_true_iff. right. reflexivity. }
    split; [apply Hiff, Hex|].
    rewrite Hs', Hs, Hr, !pairs_bytes_app, pairs_bytes_cons, !length_app.
    assert (Hit : item_ok it).
    { rewrite Forall_forall in Hok. apply Hok, in_or_app. right. left. reflexivity. }
    pose proof (length_pair_bytes host it Hit). lia.
  - destruct H as (Hn & Hr).
    assert (Hne : rv <> 0).
    { intros ->. rewrite (proj1 Hiff eq_refl) in Hn. discriminate. }
    split; [destruct Hrv; [contradiction|assumption]|].
    eapply remove_miss_same; eassumption.
Qed.

Lemma X10_witness :
  exists rv nvl',
    nvlist_remove LittleEndian (Some Examples.bootenv_list) (Some Examples.version)
      DATA_TYPE_UINT64 = Done (rv, Some nvl') /\
    laid_out LittleEndian nvl' NV_UNIQUE_NAME
      (remove_first (item_matches Examples.version DATA_TYPE_UINT64)
         [uint64_item Examples.version 1; string_item Examples.bootonce Examples.tank]) /\
    nv_asize nvl' = nv_asize Examples.bootenv_list /\
    match first_match (item_matches Examples.version DATA_TYPE_UINT64) 8
            [uint64_item Examples.version 1; string_item Examples.bootonce Examples.tank]
    with
    | Some (it, off) =>
        rv = 0 /\ nv_size nvl' = nv_size Examples.bootenv_list - item_encoded_size it
    | None => rv = ENOENT /\ nvl' = Examples.bootenv_list
    end.
Proof.
  apply (X10_nvlist_remove_takes_out_the_first_match LittleEndian Examples.bootenv_list
           NV_UNIQUE_NAME
           [uint64_item Examples.version 1; string_item Examples.bootonce Examples.tank]
           Examples.version DATA_TYPE_UINT64).
  exact bootenv_list_laid_out.
Defined.

(** ** Calls that are served *)

Section Served.

Variable host : byte_order.

Lemma run_op_served o nvl flag items h :
  laid_out host nvl flag items -> op_in_range o -> heap_plan h = [] ->
  (exists nvl' h',
     run_op host o nvl h = Done (0, nvl', h') /\
     laid_out host nvl' flag (pairs_after_op flag o items) /\
     heap_plan h' = []) \/
  (exists n t, o = Remove n t /\ existsb (item_matches n t) items = false /\
     run_op host o nvl h = Done (ENOENT, nvl, h)).
Proof.
  intros Hl Hr Hp. destruct o as [name v | name v | name type]; cbn [run_op op_in_range] in *.
  - left. destruct (add_uint64_laid_out host nvl flag items name v h Hl Hr)
      as (rv & nvl' & h' & Hrun & Hh & Hcase).
    pose proof (add_uint64_keeps host _ _ _ _ _ _ _ Hrun) as (_ & _ & _ & _ & _ & Hp' & Hno).
    destruct Hcase as [[-> Hl'] | [-> Hl']].
    + exists nvl', h'. split; [exact Hrun|]. split; [exact Hl'|auto].
    + rewrite Hp in Hno. discriminate (Hno eq_refl).
  - left. destruct Hr as [Hn Hv].
    destruct (add_string_laid_out host nvl flag items name v h Hl Hn Hv)
      as (rv & nvl' & h' & Hrun & Hh & Hcase).
    pose proof (add_string_keeps host _ _ _ _ _ _ _ Hrun) as (_ & _ & _ & _ & _ & Hp' & Hno).
    destruct Hcase as [[-> Hl'] | [-> Hl']].
    + exists nvl', h'. split; [exact Hrun|]. split; [exact Hl'|auto].
    + rewrite Hp in Hno. discriminate (Hno eq_refl).
  - destruct (remove_laid_out host nvl flag items name type Hl)
      as (rv & nvl' & Hrun & Hl' & Hh & _ & Hrv & Hiff).
    rewrite Hrun. cbn [bind]. destruct Hrv as [-> | ->].
    + left. exists nvl', h. split; [reflexivity|]. split; [exact Hl'|exact Hp].
    + right. exists name, type. split; [reflexivity|]. split.
      * destruct (existsb (item_matches name type) items); [|reflexivity].
        discriminate (proj2 Hiff eq_refl).
      * rewrite (remove_miss_same host _ _ _ _ _ Hrun) by discriminate. reflexivity.
Qed.

Lemma remove_first_none f items : existsb f items = false -> remove_first f items = items.
Proof.
  induction items as [|it items IH]; cbn [existsb remove_first]; [reflexivity|].
  destruct (f it); cbn [orb]; [discriminate|]. intros H. rewrite IH by exact H. reflexivity.
Qed.

Lemma run_ops_served ops : forall nvl flag items h,
  laid_out host nvl flag items -> Forall op_in_range ops -> heap_plan h = [] ->
  exists nvl' h',
    run_ops host ops nvl h = Done (nvl', h') /\
    laid_out host nvl' flag (pairs_after flag ops items) /\
    heap_plan h' = [].
Proof.
  induction ops as [|o ops IH]; intros nvl flag items h Hl Hr Hp.
  - exists nvl, h. split; [reflexivity|]. split; assumption.
  - inversion Hr as [|? ? Ho Hr']; subst. cbn [run_ops pairs_after fold_left].
    destruct (run_op_served o nvl flag items h Hl Ho Hp)
      as [(nvl1 & h1 & Hrun & Hl1 & Hp1) | (n & t & -> & Hn & Hrun)];
      rewrite Hrun; cbn [bind].
    + apply IH; assumption.
    + cbn [pairs_after_op]. rewrite remove_first_none by exact Hn.
      apply IH; assumption.
Qed.

Lemma pairs_after_steps flag ops : forall items,
  pairs_steps flag ops items (pairs_after flag ops items).
Proof.
  induction ops as [|o ops IH]; intros items; cbn [pairs_after fold_left].
  - constructor.
  - econstructor; [|apply IH]. destruct o; constructor.
Qed.

Lemma pairs_after_snoc flag ops o items :
  pairs_after flag (ops ++ [o]) items = pairs_after_op flag o (pairs_after flag ops items).
Proof. unfold pairs_after. rewrite fold_left_app. reflexivity. Qed.

Lemma no_match names name type items :
  prefix_free names -> In name names -> keys_unique names items ->
  ~ In (cstr name, type) (map item_key items) ->
  existsb (item_matches name type) items = false.
Proof.
  intros Hpf Hin (_ & Hnames) Hno.
  destruct (existsb (item_matches name type) items) eqn:E; [exfalso|reflexivity].
  apply existsb_exists in E. destruct E as (it & Hit & Hm).
  unfold item_matches in Hm. apply andb_true_iff in Hm. destruct Hm as [Hpre Hty].
  apply Z.eqb_eq in Hty. destruct (Hnames it Hit) as (n & Hn & Hname).
  rewrite Hname in Hpre. pose proof (Hpf n name Hn Hin Hpre) as Heq.
  apply Hno. apply in_map_iff. exists it. split; [|exact Hit].
  unfold item_key. rewrite Hname, Heq, Hty. reflexivity.
Qed.

Lemma first_match_last f items it : forall off,
  Forall item_ok items ->
  existsb f items = false -> f it = true ->
  first_match f off (items ++ [it])
  = Some (it, off + Z.of_nat (length (pairs_bytes host items))).
Proof.
  induction items as [|i items IH]; intros off Hok Hn Hf; cbn [app first_match existsb] in *.
  - rewrite Hf. f_equal. f_equal. cbn. lia.
  - inversion Hok as [|? ? Hi Hok']; subst.
    destruct (f i); cbn [orb] in Hn; [discriminate|].
    rewrite IH by assumption. f_equal. f_equal.
    rewrite pairs_bytes_cons, length_app, Nat2Z.inj_add, (length_pair_bytes host i Hi). lia.
Qed.

Lemma first_match_none f items off :
  existsb f items = false -> first_match f off items = None.
Proof.
  revert off. induction items as [|i items IH]; intros off; cbn [first_match existsb];
    [reflexivity|].
  destruct (f i); cbn [orb]; [discriminate|]. apply IH.
Qed.

(** What [nvlist_find] gives for the first pair that matches. *)
Lemma find_first_match nvl flag items name type h :
  laid_out host nvl flag items ->
  match first_match (item_matches name type) 8 items with
  | None => nvlist_find host (Some nvl) (Some name) type h = Done (ENOENT, None, None, h)
  | Some (it, off) =>
      match item_val it with
      | ItemUint64 v =>
          nvlist_find host (Some nvl) (Some name) type h
          = Done (0, Some 1, Some (ValUint64 (wrap64 v)), h)
      | ItemString s =>
          exists p,
            nvlist_find host (Some nvl) (Some name) type h
            = Done (0, Some 1, Some (ValString p (Z.of_nat (length s))), h) /\
            load32 host (nv_mem nvl) (p - 4) = Done (Z.of_nat (length s)) /\
            mem_read (nv_mem nvl) p (Z.of_nat (length s) + 1) = Done (s ++ [Byte.x00])
      end
  end.
Proof.
  intros Hl.
  rewrite (find_laid_out host nvl flag items name type h Hl).
  destruct (first_match (item_matches name type) 8 items) as [[it off]|] eqn:Hf;
    [|reflexivity].
  destruct (first_match_memory host nvl flag items _ it off Hl Hf)
    as (Hit & pre & rest & Hm & Hoff).
  unfold item_found. destruct (item_val it) as [v|s] eqn:Hv; [reflexivity|].
  eexists. split; [reflexivity|].
  pose proof (NV_ALIGN4_bounds (item_namelen it)) as [? _].
  assert (0 <= item_namelen it) by (unfold item_namelen; lia).
  split.
  - pose proof (pair_value_fields host it rest Hit) as (_ & Hval). rewrite Hv in Hval.
    rewrite Hm, load32_skip by lia.
    replace (off + 24 + NV_ALIGN4 (item_namelen it) - 4 - Z.of_nat (length pre))
      with (12 + NV_ALIGN4 (item_namelen it) + 8) by lia.
    exact Hval.
  - rewrite Hm, mem_read_app_r by lia.
    replace (off + 24 + NV_ALIGN4 (item_namelen it) - Z.of_nat (length pre))
      with (24 + NV_ALIGN4 (item_namelen it)) by lia.
    apply pair_string_bytes; assumption.
Qed.

Lemma item_matches_own_uint64 name v :
  item_matches name DATA_TYPE_UINT64 (uint64_item name v) = true.
Proof. unfold item_matches. cbn. rewrite prefixb_refl. reflexivity. Qed.

Lemma item_matches_own_string name v :
  item_matches name DATA_TYPE_STRING (string_item name v) = true.
Proof. unfold item_matches. cbn. rewrite prefixb_refl. reflexivity. Qed.

End Served.

(** X11.  On a list that the add and remove functions have written,
    [nvlist_find] gives the value of the first pair whose stored name is a
    beginning of [name] and whose type is [type]: the number, or the place
    and the length of the string, which lies in the buffer with its length
    word before it and a NUL behind it.  With no such pair it returns
    [ENOENT].  The heap is as before. *)
Theorem X11_nvlist_find_gives_the_first_match :
  forall host nvl flag items name type h,
    laid_out host nvl flag items ->
    match first_match (item_matches name type) 8 items with
    | None => nvlist_find host (Some nvl) (Some name) type h = Done (ENOENT, None, None, h)
    | Some (it, off) =>
        match item_val it with
        | ItemUint64 v =>
            nvlist_find host (Some nvl) (Some name) type h
            = Done (0, Some 1, Some (ValUint64 (wrap64 v)), h)
        | ItemString s =>
            exists p,
              nvlist_find host (Some nvl) (Some name) type h
              = Done (0, Some 1, Some (ValString p (Z.of_nat (length s))), h) /\
              load32 host (nv_mem nvl) (p - 4) = Done (Z.of_nat (length s)) /\
              mem_read (nv_mem nvl) p (Z.of_nat (length s) + 1) = Done (s ++ [Byte.x00])
        end
    end.
Proof. exact find_first_match. Qed.

Lemma X11_witness :
  match first_match (item_matches Examples.bootonce DATA_TYPE_STRING) 8
          [uint64_item Examples.version 1; string_item Examples.bootonce Examples.tank]
  with
  | None =>
      nvlist_find LittleEndian (Some Examples.bootenv_list) (Some Examples.bootonce)
        DATA_TYPE_STRING Examples.heap0 = Done (ENOENT, None, None, Examples.heap0)
  | Some (it, off) =>
      match item_val it with
      | ItemUint64 v =>
          nvlist_find LittleEndian (Some Examples.bootenv_list) (Some Examples.bootonce)
            DATA_TYPE_STRING Examples.heap0
          = Done (0, Some 1, Some (ValUint64 (wrap64 v)), Examples.heap0)
      | ItemString s =>
          exists p,
            nvlist_find LittleEndian (Some Examples.bootenv_list) (Some Examples.bootonce)
              DATA_TYPE_STRING Examples.heap0
            = Done (0, Some 1, Some (ValString p (Z.of_nat (length s))), Examples.heap0) /\
            load32 LittleEndian (nv_mem Examples.bootenv_list) (p - 4)
            = Done (Z.of_nat (length s)) /\
            mem_read (nv_mem Examples.bootenv_list) p (Z.of_nat (length s) + 1)
            = Done (s ++ [Byte.x00])
      end
  end.
Proof.
  apply (X11_nvlist_find_gives_the_first_match LittleEndian Examples.bootenv_list
           NV_UNIQUE_NAME
           [uint64_item Examples.version 1; string_item Examples.bootonce Examples.tank]
           Examples.bootonce DATA_TYPE_STRING Examples.heap0).
  exact bootenv_list_laid_out.
Defined.

(** X12.  On a list made with [NV_UNIQUE_NAME], with memory for every
    request and names none of which is the beginning of another: after a
    sequence of add calls and one more call, [nvlist_find] for the name of
    that last call gives the value that [nvlist_add_uint64] has stored,
    the string that [nvlist_add_string] has stored, with its length word
    before it and a NUL behind it, or [ENOENT] after [nvlist_remove]. *)
Theorem X12_nvlist_find_sees_the_last_call :
  forall host flag ops o h nvl h1,
    unique_flag flag = true ->
    Forall op_in_range (ops ++ [o]) -> Forall is_add ops ->
    prefix_free (map op_name (ops ++ [o])) ->
    heap_plan h1 = [] ->
    nvlist_create host flag h = Done (Some nvl, h1) ->
    exists nvl' h',
      run_ops host (ops ++ [o]) nvl h1 = Done (nvl', h') /\
      laid_out host nvl' flag (pairs_after flag (ops ++ [o]) []) /\
      found_after host o nvl' h'.
Proof.
  intros host flag ops o h nvl h1 Hu Hr Hadd Hpf Hp Hc.
  destruct (create_laid_out host flag h nvl h1 Hc) as (Hl & _).
  destruct (run_ops_served host (ops ++ [o]) nvl flag [] h1 Hl Hr Hp)
    as (nvl' & h' & Hrun & Hl' & Hp').
  exists nvl', h'. split; [exact Hrun|]. split; [exact Hl'|].
  rewrite pairs_after_snoc in Hl'.
  set (names := map op_name (ops ++ [o])) in *.
  set (items := pairs_after flag ops []) in *.
  assert (Hk : keys_unique names items).
  { apply (pairs_steps_keys_unique names flag ops [] items Hu Hpf).
    - intros o' Ho'. unfold names. apply in_map, in_or_app. left. exact Ho'.
    - exact Hadd.
    - apply pairs_after_steps.
    - split; [constructor|]. intros it []. }
  assert (Hin : In (op_name o) names).
  { unfold names. apply in_map, in_or_app. right. left. reflexivity. }
  pose proof Hl' as (_ & _ & Hok' & _).
  assert (Hmiss : forall type,
            existsb (item_matches (op_name o) type) (uniq flag (op_name o) type items) = false).
  { intros type.
    destruct (uniq_keys_unique names flag (op_name o) type items Hu Hpf Hin Hk) as (Hk2 & Hno).
    eapply no_match; eassumption. }
  pose proof (find_first_match host nvl' flag (pairs_after_op flag o items) (op_name o))
    as Hfind.
  destruct o as [n v | n v | n t]; cbn [pairs_after_op found_after op_name] in *.
  - specialize (Hfind DATA_TYPE_UINT64 h' Hl').
    apply Forall_app in Hok'. destruct Hok' as [Hok1 _].
    rewrite (first_match_last host) in Hfind;
      [exact Hfind|exact Hok1|apply Hmiss|apply item_matches_own_uint64].
  - specialize (Hfind DATA_TYPE_STRING h' Hl').
    apply Forall_app in Hok'. destruct Hok' as [Hok1 _].
    rewrite (first_match_last host) in Hfind;
      [|exact Hok1|apply Hmiss|apply item_matches_own_string].
    cbn [string_item item_val] in Hfind. exact Hfind.
  - specialize (Hfind t h' Hl').
    specialize (Hmiss t). unfold uniq in Hmiss. rewrite Hu in Hmiss.
    rewrite first_match_none in Hfind by exact Hmiss. exact Hfind.
Qed.

Lemma X12_witness :
  exists nvl' h',
    run_ops LittleEndian ([AddUint64 Examples.version 1] ++
                          [AddString Examples.bootonce Examples.tank])
      Examples.empty_list Examples.heap2 = Done (nvl', h') /\
    laid_out LittleEndian nvl' NV_UNIQUE_NAME
      (pairs_after NV_UNIQUE_NAME
         ([AddUint64 Examples.version 1] ++ [AddString Examples.bootonce Examples.tank])
         []) /\
    found_after LittleEndian (AddString Examples.bootonce Examples.tank) nvl' h'.
Proof.
  apply (X12_nvlist_find_sees_the_last_call LittleEndian NV_UNIQUE_NAME
           [AddUint64 Examples.version 1] (AddString Examples.bootonce Examples.tank)
           Examples.heap0 Examples.empty_list Examples.heap2).
  - reflexivity.
  - repeat constructor; vm_compute; reflexivity.
  - repeat constructor.
  - intros a b Ha Hb. simpl in Ha, Hb.
    repeat (destruct Ha as [<-|Ha]; [|]); try contradiction;
      repeat (destruct Hb as [<-|Hb]; [|]); try contradiction;
      vm_compute; intros H; first [reflexivity|discriminate H].
  - reflexivity.
  - vm_compute. reflexivity.
Defined.

(** ** Sizes and blocks along a sequence of calls *)

Section Invariants.

Variable host : byte_order.

Lemma length_pairs_bytes_mod4 items :
  Forall item_ok items -> Z.of_nat (length (pairs_bytes host items)) mod 4 = 0.
Proof.
  induction 1 as [|it items Hit Hok IH]; [reflexivity|].
  rewrite pairs_bytes_cons, length_app, Nat2Z.inj_add, (length_pair_bytes host it Hit).
  pose proof (item_sizes host it Hit) as (_ & _ & _ & Hm & _).
  rewrite Z.add_mod, Hm, IH by lia. reflexivity.
Qed.

Lemma laid_out_bounds nvl flag items :
  laid_out host nvl flag items ->
  16 <= nv_size nvl <= nv_asize nvl /\
  nv_asize nvl = Z.of_nat (length (nv_mem nvl)) /\
  nv_size nvl mod 4 = 0.
Proof.
  intros (Hd & Ha & Hok & slack & Hm & Hs).
  pose proof (length_pairs_bytes_mod4 items Hok) as H4.
  rewrite Ha, Hs, Hm. rewrite !length_app, !length_native_split, len_zeros.
  unfold sizeof_nvs_data. repeat split; try lia.
  rewrite Z.add_mod, H4 by lia. reflexivity.
Qed.

Lemma run_op_keeps o nvl flag items h rv nvl' h' :
  laid_out host nvl flag items ->
  run_op host o nvl h = Done (rv, nvl', h') ->
  heap_live h' = heap_live h /\ nv_asize nvl <= nv_asize nvl'.
Proof.
  intros Hl H. destruct o as [name v | name v | name type]; cbn [run_op] in H.
  - apply add_uint64_keeps in H. tauto.
  - apply add_string_keeps in H. tauto.
  - destruct (remove_laid_out host nvl flag items name type Hl)
      as (rv1 & nvl1 & Hrun & _ & _ & Ha & _).
    rewrite Hrun in H. cbn [bind] in H. injection H as <- <- <-. split; [reflexivity|lia].
Qed.

Lemma run_ops_keeps ops : forall nvl flag items h nvl' h',
  laid_out host nvl flag items -> Forall op_in_range ops ->
  run_ops host ops nvl h = Done (nvl', h') ->
  heap_live h' = heap_live h /\ nv_asize nvl <= nv_asize nvl'.
Proof.
  induction ops as [|o ops IH]; intros nvl flag items h nvl' h' Hl Hr H.
  - injection H as <- <-. split; [reflexivity|lia].
  - inversion Hr as [|? ? Ho Hr']; subst. cbn [run_ops] in H.
    destruct (run_op_refines host o nvl flag items h Hl Ho)
      as (rv & nvl1 & h1 & items1 & Hrun & Hl1 & _ & _).
    rewrite Hrun in H. cbn [bind] in H.
    destruct (run_op_keeps _ _ _ _ _ _ _ _ Hl Hrun) as (K1 & K2).
    destruct (IH _ _ _ _ _ _ Hl1 Hr' H) as (K3 & K4).
    split; [congruence|lia].
Qed.

End Invariants.

(** X13.  After any sequence of add and remove calls on a list made by
    [nvlist_create], whether [realloc] fails or not: the used size is at
    least 16, a multiple of 4 and not more than the capacity, the capacity
    is the length of the block and has not gone down, and the number of
    live blocks is the same as after [nvlist_create]. *)
Theorem X13_calls_keep_the_used_part_within_the_block :
  forall host flag ops h nvl h1,
    Forall op_in_range ops ->
    nvlist_create host flag h = Done (Some nvl, h1) ->
    exists nvl' h',
      run_ops host ops nvl h1 = Done (nvl', h') /\
      16 <= nv_size nvl' <= nv_asize nvl' /\
      nv_asize nvl' = Z.of_nat (length (nv_mem nvl')) /\
      nv_size nvl' mod 4 = 0 /\
      nv_asize nvl <= nv_asize nvl' /\
      heap_live h' = heap_live h1.
Proof.
  intros host flag ops h nvl h1 Hr Hc.
  destruct (create_laid_out host flag h nvl h1 Hc) as (Hl & _).
  destruct (run_ops_refines host ops nvl flag [] h1 Hl Hr)
    as (nvl' & h' & items & Hrun & Hl' & _ & _).
  exists nvl', h'. split; [exact Hrun|].
  destruct (laid_out_bounds host nvl' flag items Hl') as (B1 & B2 & B3).
  destruct (run_ops_keeps host ops _ _ _ _ _ _ Hl Hr Hrun) as (K1 & K2).
  repeat split; try assumption; lia.
Qed.

Lemma X13_witness :
  exists nvl' h',
    run_ops LittleEndian Examples.bootenv_calls Examples.empty_list Examples.heap2
    = Done (nvl', h') /\
    16 <= nv_size nvl' <= nv_asize nvl' /\
    nv_asize nvl' = Z.of_nat (length (nv_mem nvl')) /\
    nv_size nvl' mod 4 = 0 /\
    nv_asize Examples.empty_list <= nv_asize nvl' /\
    heap_live h' = heap_live Examples.heap2.
Proof.
  apply (X13_calls_keep_the_used_part_within_the_block LittleEndian NV_UNIQUE_NAME
           Examples.bootenv_calls Examples.heap0 Examples.empty_list Examples.heap2).
  - repeat constructor; vm_compute; reflexivity.
  - vm_compute. reflexivity.
Defined.

(** X14.  When every allocation is served, a sequence of add and remove
    calls on a list made by [nvlist_create] leaves exactly the pairs of
    [pairs_after]: an add call appends its pair, after it has taken out
    the first matching pair under [NV_UNIQUE_NAME], and a remove call
    takes out the first matching pair; the used size is 16 plus the bytes
    of these pairs. *)
Theorem X14_calls_with_memory_give_pairs_after :
  forall host flag ops h nvl h1,
    Forall op_in_range ops -> heap_plan h1 = [] ->
    nvlist_create host flag h = Done (Some nvl, h1) ->
    exists nvl' h',
      run_ops host ops nvl h1 = Done (nvl', h') /\
      laid_out host nvl' flag (pairs_after flag ops []) /\
      nv_size nvl' = 16 + Z.of_nat (length (pairs_bytes host (pairs_after flag ops []))).
Proof.
  intros host flag ops h nvl h1 Hr Hp Hc.
  destruct (create_laid_out host flag h nvl h1 Hc) as (Hl & _).
  destruct (run_ops_served host ops nvl flag [] h1 Hl Hr Hp)
    as (nvl' & h' & Hrun & Hl' & _).
  exists nvl', h'. split; [exact Hrun|]. split; [exact Hl'|].
  destruct Hl' as (_ & _ & _ & slack & _ & Hs). exact Hs.
Qed.

Lemma X14_witness :
  exists nvl' h',
    run_ops LittleEndian Examples.bootenv_calls Examples.empty_list Examples.heap2
    = Done (nvl', h') /\
    laid_out LittleEndian nvl' NV_UNIQUE_NAME
      (pairs_after NV_UNIQUE_NAME Examples.bootenv_calls []) /\
    nv_size nvl'
    = 16 + Z.of_nat (length (pairs_bytes LittleEndian
                               (pairs_after NV_UNIQUE_NAME Examples.bootenv_calls []))).
Proof.
  apply (X14_calls_with_memory_give_pairs_after LittleEndian NV_UNIQUE_NAME
           Examples.bootenv_calls Examples.heap0 Examples.empty_list Examples.heap2).
  - repeat constructor; vm_compute; reflexivity.
  - reflexivity.
  - vm_compute. reflexivity.
Defined.

Section NextAndSize.

Variable host : byte_order.

Lemma size_loop_next_loop m : forall fuel pair p enc dec P,
  load32 host m pair = Done enc -> load32 host m (pair + 4) = Done dec ->
  p = pair + 8 ->
  nvlist_size_loop fuel (xdrmem host) m pair p enc dec = Done P ->
  nvlist_next_loop host fuel m pair = Done (P - 8) /\
  p <= P <= Z.of_nat (length m).
Proof.
  induction fuel as [|fuel IH]; intros pair p enc dec P Le Ld -> H;
    rewrite nvlist_next_loop_eq, Le; cbn [bind]; cbn [nvlist_size_loop] in H;
    pose proof (load32_bounds host _ _ _ Le) as Be;
    pose proof (load32_bounds host _ _ _ Ld) as Bd.
  - destruct (enc =? 0); cbn [negb andb] in H.
    + injection H as <-. split; [f_equal|]; lia.
    + rewrite Ld. cbn [bind]. destruct (dec =? 0); cbn [negb] in H; [|discriminate].
      injection H as <-. split; [f_equal|]; lia.
  - destruct (enc =? 0); cbn [negb andb] in H.
    + injection H as <-. split; [f_equal|]; lia.
    + rewrite Ld. cbn [bind]. destruct (dec =? 0); cbn [negb] in H.
      * injection H as <-. split; [f_equal|]; lia.
      * cbv zeta in H. rewrite !xdrmem_reads_host_words in H.
        bind_inv H. bind_inv E. injection E as <-. cbn [bind] in H.
        rewrite xdrmem_reads_host_words in H.
        bind_inv H. bind_inv E. injection E as <-. cbn [bind] in H.
        destruct (IH (pair + enc) (pair + enc + 4 + 4) _ _ P E0 E1 ltac:(lia) H) as (K1 & K2).
        split; [exact K1|lia].
Qed.

End NextAndSize.

(** X15.  [nvlist_next] and [nvlist_size] agree on where a list ends: on
    a view whose data pointer is at [data], when [nvlist_size] with the
    host's getters returns [s] for the list at [data], [nvlist_next]
    returns 0 and moves the data pointer to [data + s]; [s] is at least
    16. *)
Theorem X15_nvlist_next_moves_by_nvlist_size :
  forall host l data s,
    nv_asize l = 0 -> nv_data l = Some data -> 0 <= data ->
    Z.of_nat (length (nv_mem l)) < 2 ^ 31 ->
    nvlist_size (xdrmem host) (nv_mem l) data = Done s ->
    16 <= s /\
    nvlist_next host (Some l) = Done (0, Some (set_nv_data l (Some (data + s)))).
Proof.
  intros host l data s Ha Hd Hdata Hlen H.
  unfold nvlist_size, sizeof_unsigned in H. cbv zeta in H.
  rewrite xdrmem_reads_host_words in H. bind_inv H. bind_inv E. injection E as <-.
  cbn [bind] in H. rewrite xdrmem_reads_host_words in H.
  bind_inv H. bind_inv E. injection E as <-. cbn [bind] in H.
  bind_inv H. injection H as <-.
  destruct (size_loop_next_loop host (nv_mem l) _ (data + 2 * 4) (data + 2 * 4 + 4 + 4)
              _ _ _ E0 E1 ltac:(lia) E) as (Hn & Hb).
  rewrite to_int_small by lia. split; [lia|].
  unfold nvlist_next. rewrite Hd.
  replace (nv_asize l =? 0) with true by (symmetry; apply Z.eqb_eq; exact Ha).
  cbn [negb].
  unfold offsetof_nvl_pair, sizeof_nvp_header. change (2 * 4) with 8 in Hn.
  rewrite Hn. cbn [bind]. unfold set_nv_data.
  replace (a - 8 + 8) with (data + (a - data)) by lia. reflexivity.
Qed.

Lemma X15_witness :
  16 <= 16 /\
  nvlist_next LittleEndian (Some Examples.nested_view)
  = Done (0, Some (set_nv_data Examples.nested_view (Some (32 + 16)))).
Proof.
  apply (X15_nvlist_next_moves_by_nvlist_size LittleEndian Examples.nested_view 32 16).
  - reflexivity.
  - reflexivity.
  - lia.
  - vm_compute. reflexivity.
  - vm_compute. reflexivity.
Defined.

(** ** The results of a lookup *)

Section FindResult.

Variable host : byte_order.

Lemma pair_matches_type m nvp name type :
  pair_matches host m nvp name type = Done true ->
  exists nvp_data,
    pair_data_of host m nvp = Done nvp_data /\ load32 host m nvp_data = Done type.
Proof.
  unfold pair_matches. intros H. bind_inv H. bind_inv H. bind_inv H.
  destruct (a1 =? 0); [|discriminate]. bind_inv H. injection H as H.
  apply Z.eqb_eq in H. subst. exists a0. split; assumption.
Qed.

Lemma load64_bounds m off v : load64 host m off = Done v -> 0 <= v < 2 ^ 64.
Proof. intros H. destruct (load64_bytes host _ _ _ H) as (_ & _ & _ & _ & Hb). exact Hb. Qed.

Lemma find_loop_result fuel : forall nvl name type nvp h rv e v h',
  nvlist_find_loop host fuel nvl name type nvp h = Done (rv, e, v, h') ->
  match v with
  | None =>
      (rv = ENOENT \/ rv = ENOMEM \/ rv = EIO) /\ heap_live h' = heap_live h /\
      (rv = ENOMEM -> type = DATA_TYPE_NVLIST \/ type = DATA_TYPE_NVLIST_ARRAY) /\
      (rv = EIO -> type <> DATA_TYPE_UINT64 /\ type <> DATA_TYPE_STRING /\
                   type <> DATA_TYPE_NVLIST /\ type <> DATA_TYPE_NVLIST_ARRAY)
  | Some (ValUint64 x) => rv = 0 /\ type = DATA_TYPE_UINT64 /\ 0 <= x < 2 ^ 64 /\ h' = h
  | Some (ValString p size) =>
      rv = 0 /\ type = DATA_TYPE_STRING /\ h' = h /\
      exists n, load32 host (nv_mem nvl) (p - 4) = Done n /\ size = to_int n
  | Some (ValNvlist l) =>
      rv = 0 /\ (type = DATA_TYPE_NVLIST \/ type = DATA_TYPE_NVLIST_ARRAY) /\
      nv_mem l = nv_mem nvl /\ nv_header l = nv_header nvl /\
      nv_asize l = 0 /\ nv_size l = 0 /\ nv_idx l = None /\
      (exists value, nv_data l = Some value) /\
      heap_live h' = heap_live h + 1 /\
      heap_live (nvlist_destroy (Some l) h') = heap_live h
  end.
Proof.
  induction fuel as [|fuel IH]; intros nvl name type nvp h rv e v h' H;
    cbn [nvlist_find_loop] in H; cbv zeta in H.
  - bind_inv H. destruct (a =? 0).
    { injection H as <- <- <- <-. repeat split; try tauto; discriminate. }
    bind_inv H. destruct (a0 =? 0); [|discriminate].
    injection H as <- <- <- <-. repeat split; try tauto; discriminate.
  - bind_inv H. destruct (a =? 0).
    { injection H as <- <- <- <-. repeat split; try tauto; discriminate. }
    bind_inv H. destruct (a0 =? 0).
    { injection H as <- <- <- <-. repeat split; try tauto; discriminate. }
    bind_inv H. destruct a1; [|eapply IH, H].
    destruct (pair_matches_type _ _ _ _ E1) as (nvp_data & Hpd & Hty).
    rewrite Hpd in H. cbn [bind] in H. bind_inv H. rewrite Hty in H. cbn [bind] in H.
    unfold is_type in H.
    destruct (type =? DATA_TYPE_UINT64) eqn:T1.
    { bind_inv H. injection H as <- <- <- <-. apply Z.eqb_eq in T1.
      apply load64_bounds in E3. tauto. }
    destruct (type =? DATA_TYPE_STRING) eqn:T2.
    { bind_inv H. injection H as <- <- <- <-. apply Z.eqb_eq in T2.
      repeat split; try assumption; try reflexivity.
      exists a2. split; [|reflexivity].
      unfold offsetof_pair_data, offsetof_string_data.
      replace (nvp_data + 8 + 4 - 4) with (nvp_data + offsetof_pair_data)
        by (unfold offsetof_pair_data; lia). exact E3. }
    destruct ((type =? DATA_TYPE_NVLIST) || (type =? DATA_TYPE_NVLIST_ARRAY)) eqn:T3.
    { apply orb_true_iff in T3. rewrite !Z.eqb_eq in T3.
      destruct (alloc h) as [got h1] eqn:A. destruct got.
      - injection H as <- <- <- <-. apply alloc_live in A.
        cbn [nv_mem nv_header nv_asize nv_size nv_idx nv_data nvlist_destroy Z.ltb Z.compare].
        repeat split; try assumption; try reflexivity; try lia.
        + eexists. reflexivity.
        + cbn [free heap_live]. lia.
      - injection H as <- <- <- <-.
        unfold alloc, next_request in A. destruct (heap_plan h) as [|[|] ?]; try discriminate.
        injection A as <-. cbn [heap_live].
        repeat split; try tauto; discriminate. }
    apply orb_false_iff in T3. rewrite !Z.eqb_neq in T3. apply Z.eqb_neq in T1, T2.
    injection H as <- <- <- <-. repeat split; try tauto; discriminate.
Qed.

End FindResult.

(** X16.  Whatever the buffer holds, the results of [nvlist_find] are
    these.  Without a value the result is [ENOENT], [EINVAL], [ENOMEM] or
    [EIO] and no block has been allocated; [ENOMEM] comes for the two
    nvlist types only, and [EIO] only for a type that is none of
    [DATA_TYPE_UINT64], [DATA_TYPE_STRING], [DATA_TYPE_NVLIST] and
    [DATA_TYPE_NVLIST_ARRAY].  A number or a string leaves the heap as it
    is.  A list is a view: it shares the block and the header of its
    parent, has no capacity, costs one block, and [nvlist_destroy] of the
    view frees that block only. *)
Theorem X16_nvlist_find_result :
  forall host nvl name type h rv e v h',
    nvlist_find host nvl name type h = Done (rv, e, v, h') ->
    match v with
    | None =>
        (rv = ENOENT \/ rv = EINVAL \/ rv = ENOMEM \/ rv = EIO) /\
        heap_live h' = heap_live h /\
        (rv = ENOMEM -> type = DATA_TYPE_NVLIST \/ type = DATA_TYPE_NVLIST_ARRAY) /\
        (rv = EIO -> type <> DATA_TYPE_UINT64 /\ type <> DATA_TYPE_STRING /\
                     type <> DATA_TYPE_NVLIST /\ type <> DATA_TYPE_NVLIST_ARRAY)
    | Some (ValUint64 x) => rv = 0 /\ type = DATA_TYPE_UINT64 /\ 0 <= x < 2 ^ 64 /\ h' = h
    | Some (ValString p size) => rv = 0 /\ type = DATA_TYPE_STRING /\ h' = h
    | Some (ValNvlist l) =>
        rv = 0 /\ (type = DATA_TYPE_NVLIST \/ type = DATA_TYPE_NVLIST_ARRAY) /\
        (exists parent, nvl = Some parent /\
           nv_mem l = nv_mem parent /\ nv_header l = nv_header parent) /\
        nv_asize l = 0 /\ nv_size l = 0 /\
        heap_live h' = heap_live h + 1 /\
        heap_live (nvlist_destroy (Some l) h') = heap_live h
    end.
Proof.
  intros host nvl name type h rv e v h' H. unfold nvlist_find in H.
  destruct nvl as [l0|]; [destruct name as [n|]; [destruct (nv_data l0) as [data|]|]|].
  2-4: injection H as <- <- <- <-; repeat split; try tauto; discriminate.
  apply find_loop_result in H.
  destruct v as [[x|p size|l]|].
  - exact H.
  - tauto.
  - destruct H as (H1 & H2 & H3 & H4 & H5 & H6 & H7 & H8 & H9 & H10).
    repeat split; try assumption. exists l0. repeat split; assumption.
  - destruct H as (H1 & H2 & H3 & H4). repeat split; try tauto.
Qed.

Lemma X16_witness :
  0 = 0 /\ (DATA_TYPE_NVLIST = DATA_TYPE_NVLIST \/ DATA_TYPE_NVLIST = DATA_TYPE_NVLIST_ARRAY) /\
  (exists parent, Some Examples.nested_list = Some parent /\
     nv_mem Examples.nested_view = nv_mem parent /\
     nv_header Examples.nested_view = nv_header parent) /\
  nv_asize Examples.nested_view = 0 /\ nv_size Examples.nested_view = 0 /\
  heap_live Examples.heap1 = heap_live Examples.heap0 + 1 /\
  heap_live (nvlist_destroy (Some Examples.nested_view) Examples.heap1)
  = heap_live Examples.heap0.
Proof.
  apply (X16_nvlist_find_result LittleEndian (Some Examples.nested_list)
           (Some Examples.nested_name) DATA_TYPE_NVLIST Examples.heap0 0 (Some 1)
           (Some (ValNvlist Examples.nested_view)) Examples.heap1).
  vm_compute. reflexivity.
Defined.

(** ** Copies of strings *)

Section StringCopy.

Variable host : byte_order.


Lemma nvstring_get_copy m nvs h n s :
  load32 host m nvs = Done n -> n + 1 < 2 ^ 32 ->
  mem_read m (nvs + 4) (n + 1) = Done (s ++ [Byte.x00]) ->
  nvstring_get host m nvs h =
  Done (if fst (alloc h) then Some (s ++ [Byte.x00]) else None, snd (alloc h)).
Proof.
  intros Hn Hsmall Hr. unfold nvstring_get. rewrite Hn. cbn [bind].
  destruct (alloc h) as [got h1]. cbn [fst snd]. destruct got; cbn [negb]; [|reflexivity].
  pose proof (load32_bounds host _ _ _ Hn) as (_ & _ & Hb).
  pose proof (mem_read_bounds _ _ _ _ Hr) as (B0 & B1 & B2 & B3).
  rewrite length_app in B3. cbn [length] in B3.
  assert (Hd : mem_read m (nvs + offsetof_string_data) n = Done s).
  { destruct (mem_read_parts _ _ _ _ Hr) as (a & c & -> & Ha & _).
    unfold offsetof_string_data. rewrite mem_read_app_r by lia.
    rewrite <- app_assoc. apply mem_read_here; lia. }
  rewrite Hd. cbn [bind].
  unfold to_uint, wrap32. rewrite Z.mod_small by lia.
  replace (Z.to_nat (n + 1)) with (length s + 1)%nat by lia.
  rewrite repeat_app.
  pose proof (mem_write_at [] (repeat (heap_junk h) (length s) ++ repeat (heap_junk h) 1)
                s 0 eq_refl) as Hw.
  cbn [app] in Hw. rewrite Hw by (rewrite ?length_app, ?repeat_length; cbn; lia).
  cbn [app bind]. rewrite skipn_app, repeat_length.
  rewrite skipn_all2 by (rewrite repeat_length; lia).
  rewrite Nat.sub_diag. cbn [skipn app repeat].
  unfold store8.
  rewrite (mem_write_at s _ [byte.of_Z 0] n) by (cbn [length]; lia).
  reflexivity.
Qed.

End StringCopy.

(** X17.  On a list that the add and remove functions have written, when
    [nvlist_find] has found a string at [p], [nvstring_get] of the
    [nv_string_t] that ends at [p] returns a new block with the bytes of
    the string of the first matching pair and a NUL behind them, or null
    when [malloc] fails. *)
Theorem X17_nvstring_get_copies_the_found_string :
  forall host nvl flag items name h e p size h2,
    laid_out host nvl flag items ->
    nvlist_find host (Some nvl) (Some name) DATA_TYPE_STRING h
    = Done (0, e, Some (ValString p size), h) ->
    exists it s,
      In it items /\ item_matches name DATA_TYPE_STRING it = true /\
      item_val it = ItemString s /\ size = Z.of_nat (length s) /\
      nvstring_get host (nv_mem nvl) (p - offsetof_string_data) h2
      = Done (if fst (alloc h2) then Some (s ++ [Byte.x00]) else None, snd (alloc h2)).
Proof.
  intros host nvl flag items name h e p size h2 Hl Hfind.
  pose proof (find_first_match host nvl flag items name DATA_TYPE_STRING h Hl) as H.
  pose proof Hl as (_ & _ & Hok & _).
  pose proof (first_match_split host (item_matches name DATA_TYPE_STRING) items 8 Hok) as Hs.
  destruct (first_match (item_matches name DATA_TYPE_STRING) 8 items) as [[it off]|].
  2:{ rewrite H in Hfind. discriminate. }
  destruct Hs as (l1 & l2 & -> & Hm & _ & _ & _).
  assert (Hit : item_ok it).
  { rewrite Forall_forall in Hok. apply Hok, in_or_app. right. left. reflexivity. }
  destruct (item_val it) as [v|s] eqn:Hv.
  { rewrite H in Hfind. discriminate. }
  destruct H as (p' & Hf & Hsz & Hbytes). rewrite Hf in Hfind.
  injection Hfind as _ <- <-.
  exists it, s. split; [apply in_or_app; right; left; reflexivity|].
  split; [exact Hm|]. split; [exact Hv|]. split; [reflexivity|].
  unfold offsetof_string_data.
  apply nvstring_get_copy with (n := Z.of_nat (length s)).
  - exact Hsz.
  - destruct Hit as (_ & _ & Hlen). unfold item_valuelen in Hlen. rewrite Hv in Hlen.
    change (2 ^ 30) with 1073741824 in Hlen. change (2 ^ 32) with 4294967296. lia.
  - replace (p' - 4 + 4) with p' by lia. exact Hbytes.
Qed.

Lemma X17_witness :
  exists it s,
    In it [uint64_item Examples.version 1; string_item Examples.bootonce Examples.tank] /\
    item_matches Examples.bootonce DATA_TYPE_STRING it = true /\
    item_val it = ItemString s /\ 9 = Z.of_nat (length s) /\
    nvstring_get LittleEndian (nv_mem Examples.bootenv_list) (96 - offsetof_string_data)
      Examples.heap0
    = Done (if fst (alloc Examples.heap0) then Some (s ++ [Byte.x00]) else None,
            snd (alloc Examples.heap0)).
Proof.
  apply (X17_nvstring_get_copies_the_found_string LittleEndian Examples.bootenv_list
           NV_UNIQUE_NAME
           [uint64_item Examples.version 1; string_item Examples.bootonce Examples.tank]
           Examples.bootonce Examples.heap0 (Some 1) 96 9 Examples.heap0).
  - exact bootenv_list_laid_out.
  - vm_compute. reflexivity.
Defined.

(** ** Translation on a big-endian host *)

Lemma load32_total host m off :
  0 <= off -> off + 4 <= Z.of_nat (length m) -> exists v, load32 host m off = Done v.
Proof.
  intros H0 H1. unfold load32, mem_read. rewrite in_bounds_true by lia.
  eexists. reflexivity.
Qed.

Lemma load32_zeros_mid host a k c off :
  Z.of_nat (length a) <= off -> off + 4 <= Z.of_nat (length a) + Z.of_nat k ->
  load32 host (a ++ zeros k ++ c) off = Done 0.
Proof.
  intros H0 H1. rewrite load32_skip by exact H0.
  set (j := Z.to_nat (off - Z.of_nat (length a))).
  replace k with (j + (4 + (k - j - 4)))%nat by lia.
  rewrite !zeros_app, <- !app_assoc.
  rewrite load32_skip by (rewrite len_zeros; lia). rewrite len_zeros.
  replace (zeros 4) with (native_split host 4 0) by (destruct host; reflexivity).
  rewrite load32_here by lia. reflexivity.
Qed.

(** On a big-endian host the two translations leave a word as it is. *)
Section BigEndianWalk.

Variable x : xdr_t.
Hypothesis Hx : xdr_codec x.

Lemma be_word m idx v :
  load32 BigEndian m idx = Done v ->
  be32enc m idx v = Done m /\ be32dec m idx = Done v /\
  store32 BigEndian m idx v = Done m /\ 0 <= v < 2 ^ 32.
Proof.
  intros H. pose proof (load32_bounds BigEndian _ _ _ H) as (_ & _ & Hb).
  unfold load32 in H. bind_inv H. injection H as <-.
  pose proof (mem_read_bounds _ _ _ _ E) as (_ & _ & _ & Hl).
  assert (Hs : be_split 4 (be_combine a) = a).
  { replace 4%nat with (length a) by lia. apply (native_split_combine BigEndian). }
  unfold be32enc, be32dec, store32. cbn [native_split]. rewrite Hs, E. cbn [bind].
  repeat split; try (eapply mem_write_same; exact E); try reflexivity; lia.
Qed.

Lemma be_u_int m idx v :
  load32 BigEndian m idx = Done v ->
  xdr_u_int BigEndian x m idx v = Done (m, 4, v).
Proof.
  intros H. destruct (be_word m idx v H) as (He & Hd & Hs & Hb).
  unfold xdr_u_int. destruct Hx as [-> | ->];
    cbn [xdr_op xdr_encode xdr_decode xdr_putuint xdr_getuint call_put call_get];
    unfold _putuint, _getuint.
  - rewrite He. reflexivity.
  - rewrite Hd. cbn [bind]. unfold to_uint. rewrite wrap32_small by exact Hb.
    rewrite Hs. reflexivity.
Qed.

Lemma be_string m s n :
  load32 BigEndian m s = Done n -> n < 2 ^ 30 ->
  xdr_string BigEndian x m s s = Done (m, 4 + NV_ALIGN4 n).
Proof.
  intros H Hn. destruct (be_word m s n H) as (He & Hd & Hs & Hb).
  pose proof (NV_ALIGN4_bounds n) as [? ?].
  change (2 ^ 30) with 1073741824 in Hn.
  assert (Ha : NV_ALIGN4 (n + 4) = 4 + NV_ALIGN4 n).
  { rewrite Z.add_comm. apply NV_ALIGN4_shift. reflexivity. }
  unfold xdr_string. destruct Hx as [-> | ->];
    cbn [xdr_op xdr_encode xdr_decode xdr_putuint xdr_getuint call_put call_get];
    unfold _putuint, _getuint.
  - rewrite H. cbn [bind]. rewrite He. cbn [bind].
    rewrite (to_int_small n) by (change (2 ^ 31) with 2147483648; lia).
    rewrite (to_int_small (n + 4)) by (change (2 ^ 31) with 2147483648; lia).
    rewrite Ha, to_int_small by (change (2 ^ 31) with 2147483648; lia). reflexivity.
  - rewrite Hd. cbn [bind]. unfold to_uint. rewrite (wrap32_small n) by exact Hb.
    rewrite Hs. cbn [bind]. rewrite H. cbn [bind].
    rewrite wrap32_small by (change (2 ^ 32) with 4294967296; lia).
    rewrite (Z.add_comm 4 n), Ha, to_int_small by (change (2 ^ 31) with 2147483648; lia).
    reflexivity.
Qed.

Lemma be_uint64 m p v :
  load64 BigEndian m p = Done v ->
  xdr_uint64 BigEndian x m p p = Done (m, 8).
Proof.
  intros H.
  destruct (wide_round_trip BigEndian m p v H) as (m1 & He & _ & Hr & _ & Hd & _).
  assert (m1 = m) as ->.
  { destruct (load64_bytes BigEndian _ _ _ H) as (bs & Hbs & Hlen & Hc & _).
    destruct (encode64 BigEndian m p v (to_int (to_uint (Z.shiftr v 32)))
                (to_int (to_uint (Z.land v (2 ^ 32 - 1)))) H) as (m2 & He2 & Hw & _).
    { rewrite to_int_mod. unfold to_uint, wrap32. apply Z.mod_mod. lia. }
    { rewrite to_int_mod. unfold to_uint, wrap32. rewrite Z.mod_mod by lia.
      change (2 ^ 32 - 1) with (Z.ones 32). rewrite Z.land_ones by lia.
      apply Z.mod_mod. lia. }
    unfold xdr_uint64 in He. cbn [xdr_op xdr_encode] in He. rewrite H in He.
    cbn [bind] in He. rewrite He2 in He. injection He as <-.
    assert (Hs : be_split 8 v = bs).
    { rewrite <- Hc. replace 8%nat with (length bs) by lia.
      apply (native_split_combine BigEndian). }
    rewrite Hs in Hw. rewrite (mem_write_same _ _ _ _ Hbs) in Hw. congruence. }
  destruct Hx as [-> | ->]; assumption.
Qed.

Lemma be_pair_header m idx e d :
  load32 BigEndian m idx = Done e -> load32 BigEndian m (idx + 4) = Done d ->
  xdr_pair_header BigEndian x m idx idx = Done (m, idx + 4 + 4, e, d).
Proof.
  intros He Hd.
  destruct (be_word m idx e He) as (E1 & E2 & E3 & E4).
  destruct (be_word m (idx + 4) d Hd) as (D1 & D2 & D3 & D4).
  unfold xdr_pair_header. destruct Hx as [-> | ->];
    cbn [xdr_op xdr_encode xdr_decode xdr_putuint xdr_getuint call_put call_get];
    unfold _putuint, _getuint.
  - rewrite He. cbn [bind]. rewrite Hd. cbn [bind]. rewrite E1. cbn [bind].
    rewrite D1. reflexivity.
  - rewrite E2. cbn [bind]. unfold to_uint. rewrite (wrap32_small e) by exact E4.
    rewrite E3. cbn [bind]. rewrite D2. cbn [bind]. rewrite (wrap32_small d) by exact D4.
    rewrite D3. cbn [bind]. rewrite He. cbn [bind]. rewrite Hd. reflexivity.
Qed.

(** The difference between the [encoded_size] of a pair and the bytes
    that the translation of its fields steps over. *)
Lemma gap_cases V :
  0 <= V ->
  NV_ALIGN (V + 1) - NV_ALIGN4 V = 0 \/ NV_ALIGN (V + 1) - NV_ALIGN4 V = 4 \/
  NV_ALIGN (V + 1) - NV_ALIGN4 V = 8.
Proof.
  intros HV. rewrite NV_ALIGN_div, NV_ALIGN4_div.
  assert (exists q r, V = 8 * q + r /\ 0 <= r < 8) as (q & r & -> & Hr).
  { exists (V / 8), (V mod 8). split; [apply Z.div_mod; lia|apply Z.mod_pos_bound; lia]. }
  replace (8 * q + r + 1 + 7) with (r + (q + 1) * 8) by lia.
  replace (8 * q + r + 3) with (r + 3 + (2 * q) * 4) by lia.
  rewrite !Z.div_add by lia.
  rewrite (Z.div_small r 8) by lia.
  assert (r = 0 \/ r = 1 \/ r = 2 \/ r = 3 \/ r = 4 \/ r = 5 \/ r = 6 \/ r = 7) as Hc by lia.
  destruct Hc as [-> | [-> | [-> | [-> | [-> | [-> | [-> | ->]]]]]]];
    match goal with |- context [(?a + 3) / 4] =>
      let v := eval cbv in ((a + 3) / 4) in change ((a + 3) / 4) with v end; lia.
Qed.

(** The translation of the fields of one pair. *)
Lemma be_nvp fuel pre it rest :
  item_ok it ->
  let m := pre ++ pair_bytes BigEndian it ++ rest in
  let walked := 20 + NV_ALIGN4 (item_namelen it)
                + NV_ALIGN4 (Z.of_nat (length (item_payload BigEndian it))) in
  nvlist_xdr_nvp BigEndian (S fuel) x m (Z.of_nat (length pre) + 8)
  = Done (m, Z.of_nat (length pre) + walked, 0) /\
  walked <= item_encoded_size it /\
  (item_encoded_size it - walked = 0 \/ item_encoded_size it - walked = 4 \/
   item_encoded_size it - walked = 8 \/ item_encoded_size it - walked = 12) /\
  exists body,
    pair_bytes BigEndian it
    = body ++ zeros (Z.to_nat (item_encoded_size it - 20 - NV_ALIGN4 (item_namelen it))
                     - length (item_payload BigEndian it)) /\
    Z.of_nat (length body) <= walked.
Proof.
  intros Hit m walked.
  pose proof (item_sizes BigEndian it Hit) as (? & ? & ? & ? & ? & Hp).
  pose proof (NV_ALIGN4_bounds (item_namelen it)) as [? ?].
  pose proof (NV_ALIGN_bounds (item_valuelen it + 1)) as [? ?].
  destruct (pair_fields BigEndian it rest Hit) as (_ & _ & Hnl & _ & Hty).
  destruct (pair_value_fields BigEndian it rest Hit) as (Hne & Hval).
  pose proof Hit as (_ & Hn30 & Hv30).
  assert (Hm : forall off, 0 <= off ->
            load32 BigEndian m (Z.of_nat (length pre) + off)
            = load32 BigEndian (pair_bytes BigEndian it ++ rest) off).
  { intros off Hoff. unfold m. rewrite load32_skip by lia. f_equal. lia. }
  assert (Hm64 : forall off, 0 <= off ->
            load64 BigEndian m (Z.of_nat (length pre) + off)
            = load64 BigEndian (pair_bytes BigEndian it ++ rest) off).
  { intros off Hoff. unfold m. rewrite load64_skip by lia. f_equal. lia. }
  set (P := Z.of_nat (length pre)) in *.
  set (A := NV_ALIGN4 (item_namelen it)) in *.
  assert (L1 : load32 BigEndian m (P + 8) = Done (item_namelen it))
    by (rewrite Hm by lia; exact Hnl).
  assert (L2 : load32 BigEndian m (P + 8 + (4 + A)) = Done (item_type it)).
  { replace (P + 8 + (4 + A)) with (P + (12 + A)) by lia. rewrite Hm by lia. exact Hty. }
  assert (L3 : load32 BigEndian m (P + 8 + (4 + A) + offsetof_nv_nelem) = Done 1).
  { unfold offsetof_nv_nelem.
    replace (P + 8 + (4 + A) + 4) with (P + (12 + A + 4)) by lia.
    rewrite Hm by lia. exact Hne. }
  change (2 ^ 30) with 1073741824 in *.
  split.
  - cbn [nvlist_xdr_nvp]. cbv zeta.
    rewrite (be_string m (P + 8) (item_namelen it) L1)
      by (change (2 ^ 30) with 1073741824; lia).
    cbn [bind]. fold A. rewrite L2. cbn [bind]. rewrite L3. cbn [bind].
    rewrite (be_u_int m _ _ L2). cbn [bind].
    unfold offsetof_nv_nelem in L3. rewrite (be_u_int m _ _ L3). cbn [bind].
    unfold offsetof_pair_data, walked, item_payload, item_type, item_valuelen in *.
    destruct (item_val it) as [v|s0]; unfold is_type.
    + change (DATA_TYPE_UINT64 =? DATA_TYPE_NVLIST) with false.
      change (DATA_TYPE_UINT64 =? DATA_TYPE_NVLIST_ARRAY) with false.
      change (DATA_TYPE_UINT64 =? DATA_TYPE_BOOLEAN) with false.
      change (DATA_TYPE_UINT64 =? DATA_TYPE_BYTE) with false.
      change (DATA_TYPE_UINT64 =? DATA_TYPE_INT8) with false.
      change (DATA_TYPE_UINT64 =? DATA_TYPE_UINT8) with false.
      change (DATA_TYPE_UINT64 =? DATA_TYPE_INT16) with false.
      change (DATA_TYPE_UINT64 =? DATA_TYPE_UINT16) with false.
      change (DATA_TYPE_UINT64 =? DATA_TYPE_BOOLEAN_VALUE) with false.
      change (DATA_TYPE_UINT64 =? DATA_TYPE_INT32) with false.
      change (DATA_TYPE_UINT64 =? DATA_TYPE_UINT32) with false.
      change (DATA_TYPE_UINT64 =? DATA_TYPE_INT64) with false.
      change (DATA_TYPE_UINT64 =? DATA_TYPE_UINT64) with true.
      cbn [orb]. cbv iota.
      assert (L4 : load64 BigEndian m (P + 8 + (4 + A) + 8) = Done (wrap64 v)).
      { replace (P + 8 + (4 + A) + 8) with (P + (12 + A + 8)) by lia.
        rewrite Hm64 by lia. exact Hval. }
      rewrite (be_uint64 m _ _ L4). cbn [bind].
      rewrite length_native_split. change (NV_ALIGN4 (Z.of_nat 8)) with 8.
      do 3 f_equal. lia.
    + change (DATA_TYPE_STRING =? DATA_TYPE_NVLIST) with false.
      change (DATA_TYPE_STRING =? DATA_TYPE_NVLIST_ARRAY) with false.
      change (DATA_TYPE_STRING =? DATA_TYPE_BOOLEAN) with false.
      change (DATA_TYPE_STRING =? DATA_TYPE_BYTE) with false.
      change (DATA_TYPE_STRING =? DATA_TYPE_INT8) with false.
      change (DATA_TYPE_STRING =? DATA_TYPE_UINT8) with false.
      change (DATA_TYPE_STRING =? DATA_TYPE_INT16) with false.
      change (DATA_TYPE_STRING =? DATA_TYPE_UINT16) with false.
      change (DATA_TYPE_STRING =? DATA_TYPE_BOOLEAN_VALUE) with false.
      change (DATA_TYPE_STRING =? DATA_TYPE_INT32) with false.
      change (DATA_TYPE_STRING =? DATA_TYPE_UINT32) with false.
      change (DATA_TYPE_STRING =? DATA_TYPE_INT64) with false.
      change (DATA_TYPE_STRING =? DATA_TYPE_UINT64) with false.
      change (DATA_TYPE_STRING =? DATA_TYPE_STRING) with true.
      cbn [orb]. cbv iota.
      assert (L4 : load32 BigEndian m (P + 8 + (4 + A) + 8) = Done (Z.of_nat (length s0))).
      { replace (P + 8 + (4 + A) + 8) with (P + (12 + A + 8)) by lia.
        rewrite Hm by lia. exact Hval. }
      rewrite (be_string m _ _ L4) by lia. cbn [bind].
      rewrite length_app, length_native_split, Nat2Z.inj_add.
      rewrite (NV_ALIGN4_shift (Z.of_nat 4)) by reflexivity.
      do 3 f_equal. lia.
  - unfold walked, pair_bytes, item_encoded_size, item_payload, item_valuelen in *.
    destruct (item_val it) as [v|s0].
    + rewrite length_native_split. change (NV_ALIGN4 (Z.of_nat 8)) with 8.
      change (NV_ALIGN (8 + 1)) with 16.
      split; [lia|]. split; [lia|].
      eexists. split; [rewrite !app_assoc; reflexivity|].
      rewrite !length_app, !length_native_split, len_zeros. unfold item_namelen in *. lia.
    + rewrite length_app, length_native_split, Nat2Z.inj_add.
      rewrite (NV_ALIGN4_shift (Z.of_nat 4)) by reflexivity.
      pose proof (gap_cases (Z.of_nat (length s0)) ltac:(lia)) as Hg.
      pose proof (NV_ALIGN4_bounds (Z.of_nat (length s0))) as [? ?].
      split; [lia|]. split; [lia|].
      eexists. split; [rewrite !app_assoc; reflexivity|].
      rewrite !length_app, !length_native_split, len_zeros. unfold item_namelen in *. lia.
Qed.

(** The loop over the pairs: the memory stays as it is, whether the loop
    ends at the terminator or in the zero bytes that end a pair. *)
Lemma be_pairs : forall items pre fuel slack,
  Forall item_ok items -> (length items < fuel)%nat ->
  let m := pre ++ pairs_bytes BigEndian items ++ zeros 8 ++ slack in
  exists enc dec idx',
    load32 BigEndian m (Z.of_nat (length pre)) = Done enc /\
    load32 BigEndian m (Z.of_nat (length pre) + 4) = Done dec /\
    nvlist_xdr_pairs BigEndian fuel x m (Z.of_nat (length pre) + 4 + 4) enc dec
    = Done (m, idx', 0).
Proof.
  induction items as [|it items IH]; intros pre fuel slack Hok Hfuel m; subst m.
  - change (pairs_bytes BigEndian []) with (@nil byte). rewrite app_nil_l.
    exists 0, 0, (Z.of_nat (length pre) + 4 + 4).
    rewrite (load32_zeros_mid BigEndian pre 8 slack) by lia.
    rewrite (load32_zeros_mid BigEndian pre 8 slack) by lia.
    split; [reflexivity|]. split; [reflexivity|].
    destruct fuel; reflexivity.
  - inversion Hok as [|? ? Hit Hok']; subst.
    destruct fuel as [|[|fuel]]; try (simpl in Hfuel; lia).
    pose proof (item_sizes BigEndian it Hit) as (? & ? & ? & ? & ? & ?).
    pose proof (length_pair_bytes BigEndian it Hit) as Hlen.
    set (rest := pairs_bytes BigEndian items ++ zeros 8 ++ slack) in *.
    destruct (pair_fields BigEndian it rest Hit) as (Henc & Hdec & _).
    assert (Hm' : pre ++ pairs_bytes BigEndian (it :: items) ++ zeros 8 ++ slack
                  = pre ++ pair_bytes BigEndian it ++ rest).
    { unfold rest. rewrite pairs_bytes_cons, <- !app_assoc. reflexivity. }
    rewrite Hm'. set (m := pre ++ pair_bytes BigEndian it ++ rest).
    destruct (be_nvp fuel pre it rest Hit) as (Hnvp & Hle & Hgap & body & Hbody & Hbl).
    fold m in Hnvp.
    set (walked := 20 + NV_ALIGN4 (item_namelen it)
                   + NV_ALIGN4 (Z.of_nat (length (item_payload BigEndian it)))) in *.
    set (k := (Z.to_nat (item_encoded_size it - 20 - NV_ALIGN4 (item_namelen it))
               - length (item_payload BigEndian it))%nat) in *.
    exists (item_encoded_size it), (item_decoded_size it).
    assert (Hrest : 8 <= Z.of_nat (length rest)).
    { unfold rest. rewrite !length_app, len_zeros. lia. }
    (* the header that the loop reads after the pair *)
    assert (Hnext : exists e d idx',
              load32 BigEndian m (Z.of_nat (length pre) + walked) = Done e /\
              load32 BigEndian m (Z.of_nat (length pre) + walked + 4) = Done d /\
              nvlist_xdr_pairs BigEndian (S fuel) x m
                (Z.of_nat (length pre) + walked + 4 + 4) e d = Done (m, idx', 0)).
    { destruct (Z.eq_dec (item_encoded_size it - walked) 0) as [Hz|Hnz].
      - destruct (IH (pre ++ pair_bytes BigEndian it) (S fuel) slack Hok'
                    ltac:(simpl in Hfuel; lia)) as (e & d & idx' & Le & Ld & Hp).
        rewrite length_app, Nat2Z.inj_add, Hlen in Le, Ld, Hp.
        rewrite <- app_assoc in Le, Ld, Hp. fold rest in Le, Ld, Hp. fold m in Le, Ld, Hp.
        replace (Z.of_nat (length pre) + item_encoded_size it)
          with (Z.of_nat (length pre) + walked) in Le, Ld, Hp by lia.
        exists e, d, idx'. repeat split; assumption.
      - assert (Hk : Z.of_nat (length body) + Z.of_nat k = item_encoded_size it).
        { rewrite <- Hlen, Hbody, length_app, len_zeros. lia. }
        assert (Le : load32 BigEndian m (Z.of_nat (length pre) + walked) = Done 0).
        { unfold m. rewrite Hbody, <- app_assoc, app_assoc.
          apply load32_zeros_mid; rewrite length_app; lia. }
        destruct (load32_total BigEndian m (Z.of_nat (length pre) + walked + 4))
          as (d & Ld).
        { lia. }
        { unfold m. rewrite !length_app. lia. }
        exists 0, d, (Z.of_nat (length pre) + walked + 4 + 4).
        split; [exact Le|]. split; [exact Ld|]. reflexivity. }
    destruct Hnext as (e & d & idx' & Le & Ld & Hp).
    exists idx'.
    unfold m at 1 2. rewrite load32_skip, Z.sub_diag, Henc by lia.
    rewrite load32_skip by lia.
    replace (Z.of_nat (length pre) + 4 - Z.of_nat (length pre)) with 4 by lia.
    rewrite Hdec. split; [reflexivity|]. split; [reflexivity|].
    cbn [nvlist_xdr_pairs].
    destruct (item_encoded_size it =? 0) eqn:E0; [apply Z.eqb_eq in E0; lia|].
    destruct (item_decoded_size it =? 0) eqn:E1; [apply Z.eqb_eq in E1; lia|].
    cbn [negb andb].
    replace (Z.of_nat (length pre) + 4 + 4) with (Z.of_nat (length pre) + 8) by lia.
    rewrite Hnvp. cbn [bind Z.eqb negb].
    rewrite (be_pair_header m _ e d Le Ld). cbn [bind].
    exact Hp.
Qed.

(** [nvlist_xdr_nvlist] on the buffer of a list. *)
Lemma be_nvlist items flag slack fuel :
  Forall item_ok items -> (S (length items) < fuel)%nat ->
  let m := (native_split BigEndian 4 NV_VERSION ++ native_split BigEndian 4 flag ++
            pairs_bytes BigEndian items) ++ zeros 8 ++ slack in
  exists idx', nvlist_xdr_nvlist BigEndian fuel x m 0 = Done (m, idx', 0).
Proof.
  intros Hok Hfuel m.
  destruct fuel as [|fuel]; [lia|].
  destruct (be_pairs items (native_split BigEndian 4 NV_VERSION ++ native_split BigEndian 4 flag)
              fuel slack Hok ltac:(lia)) as (enc & dec & idx' & Le & Ld & Hp).
  rewrite length_app, !length_native_split in Le, Ld, Hp.
  assert (Hm : (native_split BigEndian 4 NV_VERSION ++ native_split BigEndian 4 flag) ++
               pairs_bytes BigEndian items ++ zeros 8 ++ slack = m)
    by (unfold m; rewrite <- !app_assoc; reflexivity).
  rewrite Hm in Le, Ld, Hp.
  assert (Lv : load32 BigEndian m 0 = Done (wrap32 NV_VERSION)).
  { unfold m. rewrite <- !app_assoc. apply load32_here. reflexivity. }
  assert (Lf : load32 BigEndian m (0 + 4) = Done (wrap32 flag)).
  { unfold m. rewrite <- !app_assoc. rewrite load32_skip by (len_simpl; lia). len_simpl.
    apply load32_here. reflexivity. }
  exists idx'. cbn [nvlist_xdr_nvlist]. cbv zeta.
  unfold offsetof_nvl_nvflag, offsetof_nvl_pair.
  destruct (be_word m 0 _ Lv) as (V1 & V2 & V3 & V4).
  destruct (be_word m (0 + 4) _ Lf) as (F1 & F2 & F3 & F4).
  change (Z.of_nat (4 + 4)) with (0 + 8) in Le, Ld, Hp.
  pose proof (be_pair_header m (0 + 8) enc dec Le Ld) as Hph.
  pose proof Hx as Hx'.
  destruct Hx' as [Hc | Hc]; rewrite Hc in Hph, Hp |- *;
    cbn [xdr_op xdr_encode xdr_decode xdr_putuint xdr_getuint call_put call_get];
    unfold _putuint, _getuint.
  - rewrite Lv. cbn [bind]. rewrite V1. cbn [bind]. rewrite Lf. cbn [bind].
    rewrite F1. cbn [bind]. change (0 + 4 + 4) with (0 + 8).
    rewrite Hph. cbn [bind]. exact Hp.
  - rewrite V2. cbn [bind]. unfold to_uint. rewrite (wrap32_small (wrap32 NV_VERSION)) by exact V4.
    rewrite V3. cbn [bind]. rewrite F2. cbn [bind].
    rewrite (wrap32_small (wrap32 flag)) by exact F4. rewrite F3. cbn [bind].
    destruct (be_word m (0 + 8) _ Le) as (A1 & A2 & A3 & A4).
    destruct (be_word m (0 + 8 + 4) _ Ld) as (B1 & B2 & B3 & B4).
    change (0 + 4 + 4) with (0 + 8).
    rewrite A2. cbn [bind]. rewrite (wrap32_small enc) by exact A4. rewrite A3. cbn [bind].
    rewrite B2. cbn [bind]. rewrite (wrap32_small dec) by exact B4. rewrite B3. cbn [bind].
    rewrite Le. cbn [bind]. rewrite Ld. cbn [bind]. exact Hp.
Qed.

End BigEndianWalk.

(** ** Export and import on a big-endian host *)

Lemma used_bytes_laid host nvl flag items :
  laid_out host nvl flag items ->
  used_bytes nvl = (native_split host 4 NV_VERSION ++ native_split host 4 flag ++
                    pairs_bytes host items) ++ zeros 8.
Proof.
  intros (_ & _ & _ & slack & Hm & Hs). unfold used_bytes. rewrite Hm, Hs.
  rewrite (app_assoc _ (zeros 8)).
  rewrite firstn_app.
  replace (Z.to_nat (sizeof_nvs_data + Z.of_nat (length (pairs_bytes host items))))
    with (length ((native_split host 4 NV_VERSION ++ native_split host 4 flag ++
                   pairs_bytes host items) ++ zeros 8))
    by (rewrite !length_app, !length_native_split, len_zeros; unfold sizeof_nvs_data; lia).
  rewrite firstn_all, Nat.sub_diag, firstn_O, app_nil_r. reflexivity.
Qed.

Lemma create_header host flag h nvl h1 :
  nvlist_create host flag h = Done (Some nvl, h1) ->
  nv_header nvl = {| nvh_encoding := Byte.x01; nvh_endian := NVH_ENDIAN host;
                     nvh_reserved1 := Byte.x00; nvh_reserved2 := Byte.x00 |}.
Proof.
  unfold nvlist_create.
  destruct (alloc h) as [ok ha]. destruct ok; cbn [negb]; [|discriminate].
  destruct (alloc ha) as [ok hb]. destruct ok; cbn [negb]; [|discriminate].
  intros H. bind_inv H. bind_inv H. injection H as <- _. reflexivity.
Qed.

Lemma load8_app_l a c off :
  0 <= off -> off + 1 <= Z.of_nat (length a) -> load8 (a ++ c) off = load8 a off.
Proof. intros. unfold load8. rewrite mem_read_app_l by lia. reflexivity. Qed.

Lemma be32dec_app_l a c off :
  0 <= off -> off + 4 <= Z.of_nat (length a) -> be32dec (a ++ c) off = be32dec a off.
Proof. intros. unfold be32dec. rewrite mem_read_app_l by lia. reflexivity. Qed.

(** [check_head] reads the first twelve bytes only. *)
Lemma check_head_prefix p t :
  length p = 12%nat -> check_head (p ++ t) = check_head p.
Proof.
  intros Hl. unfold check_head.
  rewrite !load8_app_l, !be32dec_app_l by lia. reflexivity.
Qed.

Lemma decode_reads_host_words : reads_host_words BigEndian xdr_decode.
Proof.
  intros m p. cbn [xdr_decode xdr_getuint call_get]. unfold _getuint.
  change (be32dec m p) with (load32 BigEndian m p).
  destruct (load32 BigEndian m p) as [v| |] eqn:E; cbn [bind]; try reflexivity.
  apply load32_bounds in E. unfold to_uint. rewrite wrap32_small by lia. reflexivity.
Qed.

Lemma be_export nvl flag items fuel :
  laid_out BigEndian nvl flag items ->
  byte.unsigned (nvh_encoding (nv_header nvl)) = NV_ENCODE_XDR ->
  (S (length items) < fuel)%nat ->
  exists idx,
    nvlist_export BigEndian fuel nvl
    = Done (0, {| nv_header := nv_header nvl; nv_asize := nv_asize nvl;
                  nv_size := nv_size nvl; nv_mem := nv_mem nvl;
                  nv_data := nv_data nvl; nv_idx := Some idx |}).
Proof.
  intros (Hd & Ha & Hok & slack & Hm & Hs) He Hfuel.
  destruct (be_nvlist xdr_encode (or_introl eq_refl) items flag slack fuel Hok Hfuel)
    as (idx & Hw).
  exists idx. unfold nvlist_export. rewrite He. cbn [Z.eqb NV_ENCODE_XDR Pos.eqb negb].
  rewrite Hd. cbn [deref bind]. rewrite Hm at 1. rewrite Hw. cbn [bind].
  rewrite <- Hm. reflexivity.
Qed.

Lemma be_import nvl flag items fuel h :
  laid_out BigEndian nvl flag items ->
  check_head (firstn 12 (nvlist_stream nvl)) = Done true ->
  nv_size nvl < 2 ^ 31 -> (S (length items) < fuel)%nat -> heap_plan h = [] ->
  exists h',
    nvlist_import BigEndian fuel (nvlist_stream nvl) h
    = Done (Some {| nv_header := nv_header nvl; nv_asize := nv_size nvl;
                    nv_size := nv_size nvl; nv_mem := used_bytes nvl;
                    nv_data := Some 0; nv_idx := Some 0 |}, h').
Proof.
  intros Hl Hhead Hsmall Hfuel Hp.
  pose proof (used_bytes_laid BigEndian nvl flag items Hl) as Hu.
  pose proof Hl as (Hd & Ha & Hok & slack & Hm & Hs).
  set (hd := nv_header nvl) in *.
  set (A := native_split BigEndian 4 NV_VERSION) in *.
  set (B := native_split BigEndian 4 flag) in *.
  set (pairs := pairs_bytes BigEndian items) in *.
  assert (Hstream : nvlist_stream nvl = (header_bytes hd ++ A ++ B) ++ pairs ++ zeros 8 ++ []).
  { unfold nvlist_stream. rewrite Hu, app_nil_r, <- !app_assoc. reflexivity. }
  assert (Hpre : length (header_bytes hd ++ A ++ B) = 12%nat).
  { unfold A, B. rewrite !length_app, !length_native_split. reflexivity. }
  assert (Hhead' : check_head (nvlist_stream nvl) = Done true).
  { rewrite <- Hhead. rewrite Hstream at 2.
    rewrite firstn_app, Hpre, Nat.sub_diag, firstn_O, app_nil_r.
    rewrite firstn_all2 by lia. rewrite Hstream. apply check_head_prefix, Hpre. }
  unfold nvlist_import. rewrite Hhead'. cbn [bind negb].
  unfold alloc at 1, next_request. rewrite Hp. cbn [negb].
  assert (Hb : load8 (nvlist_stream nvl) 0 = Done (nvh_encoding hd) /\
               load8 (nvlist_stream nvl) 1 = Done (nvh_endian hd) /\
               load8 (nvlist_stream nvl) 2 = Done (nvh_reserved1 hd) /\
               load8 (nvlist_stream nvl) 3 = Done (nvh_reserved2 hd)).
  { unfold nvlist_stream. fold hd.
    rewrite !load8_app_l by (cbn [header_bytes length]; lia).
    repeat split; reflexivity. }
  destruct Hb as (Hb0 & Hb1 & Hb2 & Hb3).
  rewrite Hb0, Hb1, Hb2, Hb3. cbn [bind].
  (* the size walk *)
  destruct (size_loop_laid BigEndian xdr_decode decode_reads_host_words items
              (header_bytes hd ++ A ++ B) (length (nvlist_stream nvl)) [] Hok)
    as (enc & dec & Le & Ld & Hloop).
  { rewrite Hstream, !length_app. pose proof (length_items_le BigEndian items).
    fold pairs in H. lia. }
  fold pairs in Le, Ld, Hloop. rewrite <- Hstream, Hpre in Le, Ld, Hloop.
  unfold nvlist_size, sizeof_unsigned. cbv zeta.
  change (4 + 2 * 4) with (Z.of_nat 12).
  rewrite decode_reads_host_words, Le. cbn [bind].
  rewrite decode_reads_host_words, Ld. cbn [bind].
  rewrite Hloop by lia. cbn [bind].
  assert (Hsz : Z.of_nat 12 + Z.of_nat (length pairs) + 8 - 4 = nv_size nvl).
  { rewrite Hs. unfold sizeof_nvs_data. lia. }
  rewrite Hsz. rewrite to_int_small by (rewrite Hs; unfold sizeof_nvs_data; lia).
  unfold to_size_t, wrap64.
  rewrite Z.mod_small by (rewrite Hs; unfold sizeof_nvs_data; lia).
  unfold alloc, next_request. cbn [heap_plan negb].
  assert (Hread : mem_read (nvlist_stream nvl) 4 (nv_size nvl) = Done (used_bytes nvl)).
  { unfold nvlist_stream. rewrite mem_read_app_r by (cbn [header_bytes length]; lia).
    cbn [header_bytes length]. rewrite <- (app_nil_r (used_bytes nvl)) at 1.
    apply mem_read_here; [lia|].
    rewrite Hu, Hs. unfold A, B, pairs, sizeof_nvs_data.
    rewrite !length_app, !length_native_split, len_zeros. lia. }
  rewrite Hread. cbn [bind].
  destruct (be_nvlist xdr_decode (or_intror eq_refl) items flag [] fuel Hok Hfuel)
    as (idx & Hw).
  fold A B pairs in Hw. rewrite app_nil_r in Hw. rewrite <- Hu in Hw.
  rewrite Hw. cbn [bind Z.eqb].
  eexists. clear. clearbody hd. destruct hd. reflexivity.
Qed.

(** X18.  On a big-endian host, for every list made by [nvlist_create]
    with [NV_UNIQUE_NAME] and a sequence of add and remove calls:
    [nvlist_export] returns 0 and changes no byte of the buffer, and
    [nvlist_import] of the stream returns a list with the same header, the
    same used size, the used bytes as its block, and the same pairs. *)
Theorem X18_big_endian_export_import_round_trip :
  forall ops h nvl h1 nvl1 h1' fuel h2,
    Forall op_in_range ops ->
    nvlist_create BigEndian NV_UNIQUE_NAME h = Done (Some nvl, h1) ->
    run_ops BigEndian ops nvl h1 = Done (nvl1, h1') ->
    nv_size nvl1 < 2 ^ 31 -> (Z.to_nat (nv_size nvl1) <= fuel)%nat ->
    heap_plan h2 = [] ->
    exists nvl_e nvl_i h3 items,
      nvlist_export BigEndian fuel nvl1 = Done (0, nvl_e) /\
      nv_mem nvl_e = nv_mem nvl1 /\
      nvlist_import BigEndian fuel (nvlist_stream nvl_e) h2 = Done (Some nvl_i, h3) /\
      nv_header nvl_i = nv_header nvl1 /\
      nv_size nvl_i = nv_size nvl1 /\
      nv_asize nvl_i = nv_size nvl1 /\
      nv_mem nvl_i = used_bytes nvl1 /\
      laid_out BigEndian nvl1 NV_UNIQUE_NAME items /\
      laid_out BigEndian nvl_i NV_UNIQUE_NAME items.
Proof.
  intros ops h nvl h1 nvl1 h1' fuel h2 Hr Hc Hrun Hsmall Hfuel Hp.
  destruct (create_laid_out BigEndian _ h nvl h1 Hc) as (Hl & _).
  pose proof (create_header BigEndian _ h nvl h1 Hc) as Hh.
  destruct (run_ops_refines BigEndian ops nvl _ [] h1 Hl Hr)
    as (nvl' & h' & items & Hrun' & Hl' & Hh' & _).
  rewrite Hrun in Hrun'. injection Hrun' as <- <-.
  rewrite Hh in Hh'.
  assert (Hf : (S (length items) < fuel)%nat).
  { pose proof Hl' as (_ & _ & Hok & _ & _ & Hs).
    assert (Hn : forall l, Forall item_ok l ->
                   24 * Z.of_nat (length l) <= Z.of_nat (length (pairs_bytes BigEndian l))).
    { induction 1 as [|it l Hit _ IH]; [cbn; lia|].
      rewrite pairs_bytes_cons, length_app, Nat2Z.inj_add, (length_pair_bytes _ it Hit).
      pose proof (item_sizes BigEndian it Hit) as (_ & _ & ? & _). cbn [length]. lia. }
    specialize (Hn items Hok). unfold sizeof_nvs_data in Hs. lia. }
  destruct (be_export nvl1 _ items fuel Hl') as (idx & He); [rewrite Hh'; reflexivity|exact Hf|].
  eexists. rewrite He.
  set (nvl_e := {| nv_header := nv_header nvl1; nv_asize := nv_asize nvl1;
                   nv_size := nv_size nvl1; nv_mem := nv_mem nvl1;
                   nv_data := nv_data nvl1; nv_idx := Some idx |}).
  assert (Hstream : nvlist_stream nvl_e = nvlist_stream nvl1) by reflexivity.
  destruct (be_import nvl1 _ items fuel h2 Hl') as (h3 & Hi); try assumption.
  { pose proof (used_bytes_laid BigEndian nvl1 _ items Hl') as Hu.
    unfold nvlist_stream. rewrite Hu, Hh'. reflexivity. }
  rewrite Hstream, Hi. eexists _, h3, items.
  do 7 (split; [reflexivity|]). split; [exact Hl'|].
  pose proof (used_bytes_laid BigEndian nvl1 _ items Hl') as Hu.
  pose proof Hl' as (_ & _ & Hok & _ & _ & Hs).
  unfold laid_out. cbn [nv_data nv_asize nv_size nv_mem].
  split; [reflexivity|]. split.
  { rewrite Hu, Hs, !length_app, !length_native_split, len_zeros.
    unfold sizeof_nvs_data. lia. }
  split; [exact Hok|]. exists []. split; [rewrite Hu; reflexivity|exact Hs].
Qed.

Lemma X18_witness :
  exists nvl_e nvl_i h3 items,
    nvlist_export BigEndian 120 Examples.bootenv_list_be = Done (0, nvl_e) /\
    nv_mem nvl_e = nv_mem Examples.bootenv_list_be /\
    nvlist_import BigEndian 120 (nvlist_stream nvl_e) Examples.heap0
    = Done (Some nvl_i, h3) /\
    nv_header nvl_i = nv_header Examples.bootenv_list_be /\
    nv_size nvl_i = nv_size Examples.bootenv_list_be /\
    nv_asize nvl_i = nv_size Examples.bootenv_list_be /\
    nv_mem nvl_i = used_bytes Examples.bootenv_list_be /\
    laid_out BigEndian Examples.bootenv_list_be NV_UNIQUE_NAME items /\
    laid_out BigEndian nvl_i NV_UNIQUE_NAME items.
Proof.
  apply (X18_big_endian_export_import_round_trip Examples.scenario_calls Examples.heap0
           Examples.empty_list_be Examples.heap2 Examples.bootenv_list_be Examples.heap2
           120 Examples.heap0).
  - repeat constructor; vm_compute; reflexivity.
  - vm_compute. reflexivity.
  - vm_compute. reflexivity.
  - vm_compute. reflexivity.
  - vm_compute. lia.
  - reflexivity.
Defined.

(** ** The printer *)

Lemma take_str_name s : forall tl,
  no_nul s -> take_str (s ++ tl) (length s) = Done s.
Proof.
  induction s as [|b s IH]; intros tl Hn; [reflexivity|].
  inversion Hn as [|? ? Hb Hn']; subst. cbn [app length take_str].
  rewrite Hb, IH by exact Hn'. reflexivity.
Qed.

Lemma take_str_value s : forall tl,
  take_str (s ++ Byte.x00 :: tl) (length s) = Done (cstr s).
Proof.
  induction s as [|b s IH]; intros tl; [reflexivity|].
  cbn [app length take_str cstr]. destruct (is_nul b); [reflexivity|].
  rewrite IH. reflexivity.
Qed.

Lemma mem_read_from m off n bs :
  mem_read m off n = Done bs -> exists tl, mem_from m off = bs ++ tl.
Proof.
  intros H. destruct (mem_read_parts _ _ _ _ H) as (a & c & -> & Ha & _).
  exists c. rewrite mem_from_app_r by lia. apply mem_from_0. lia.
Qed.

Section Printer.

Variable host : byte_order.

Lemma print_pairs_laid indent : forall items pre fuel slack,
  Z.of_nat (length pre) mod 4 = 0 ->
  Forall item_ok items -> (length items <= fuel)%nat ->
  nvlist_print_pairs host fuel (pre ++ pairs_bytes host items ++ zeros 8 ++ slack)
    (Z.of_nat (length pre)) indent
  = Done (concat (map (item_line indent) items)).
Proof.
  induction items as [|it items IH]; intros pre fuel slack Hal Hok Hfuel.
  - change (pairs_bytes host []) with (@nil byte). rewrite app_nil_l.
    destruct fuel; cbn [nvlist_print_pairs];
      rewrite load32_skip, Z.sub_diag, load32_zeros8 by lia; reflexivity.
  - inversion Hok as [|? ? Hit Hok']; subst.
    destruct fuel as [|fuel]; [simpl in Hfuel; lia|].
    pose proof (item_sizes host it Hit) as (? & ? & ? & ? & ? & ?).
    pose proof (length_pair_bytes host it Hit) as Hlen.
    pose proof (NV_ALIGN4_bounds (item_namelen it)) as [HA4 _].
    set (rest := pairs_bytes host items ++ zeros 8 ++ slack) in *.
    destruct (pair_fields host it rest Hit) as (Henc & Hdec & Hnl & (tl & Hname) & Hty).
    destruct (pair_value_fields host it rest Hit) as (Hne & Hval).
    assert (Hm' : pre ++ pairs_bytes host (it :: items) ++ zeros 8 ++ slack
                  = pre ++ pair_bytes host it ++ rest).
    { unfold rest. rewrite pairs_bytes_cons, <- !app_assoc. reflexivity. }
    rewrite Hm'. set (m := pre ++ pair_bytes host it ++ rest).
    set (P := Z.of_nat (length pre)) in *.
    assert (Hm : forall off, 0 <= off ->
              load32 host m (P + off) = load32 host (pair_bytes host it ++ rest) off).
    { intros off Hoff. unfold m, P. rewrite load32_skip by lia. f_equal. lia. }
    cbn [nvlist_print_pairs]. cbv zeta.
    unfold sizeof_nvp_header, offsetof_string_data, offsetof_nv_nelem, offsetof_pair_data.
    replace P with (P + 0) at 1 by lia. rewrite Hm, Henc by lia. cbn [bind].
    destruct (item_encoded_size it =? 0) eqn:E0; [apply Z.eqb_eq in E0; lia|].
    rewrite Hm, Hdec by lia. cbn [bind].
    destruct (item_decoded_size it =? 0) eqn:E1; [apply Z.eqb_eq in E1; lia|].
    rewrite Hm, Hnl by lia. cbn [bind].
    assert (Hpd : pair_data_of host m P = Done (P + (12 + NV_ALIGN4 (item_namelen it)))).
    { unfold pair_data_of, sizeof_nvp_header, offsetof_string_data.
      rewrite Hm, Hnl by lia. cbn [bind]. f_equal.
      replace (P + 8 + 4 + item_namelen it) with (P + (12 + item_namelen it)) by lia.
      rewrite NV_ALIGN4_shift by assumption.
      rewrite (NV_ALIGN4_shift 12) by reflexivity. reflexivity. }
    rewrite Hpd. cbn [bind].
    rewrite Hm, Hty by lia. cbn [bind].
    replace (P + (12 + NV_ALIGN4 (item_namelen it)) + 4)
      with (P + (12 + NV_ALIGN4 (item_namelen it) + 4)) by lia.
    rewrite Hm, Hne by lia. cbn [bind].
    (* the name *)
    assert (Hpn : print_str m (P + 8 + 4) (to_int (item_namelen it)) = Done (item_name it)).
    { destruct Hit as (Hnn & Hn30 & _). change (2 ^ 30) with 1073741824 in Hn30.
      unfold print_str.
      rewrite to_int_small by (change (2 ^ 31) with 2147483648; lia).
      replace (item_namelen it <? 0) with false by (symmetry; apply Z.ltb_ge; lia).
      unfold m, P. rewrite mem_from_app_r by lia.
      replace (Z.of_nat (length pre) + 8 + 4 - Z.of_nat (length pre)) with 12 by lia.
      rewrite Hname. unfold item_namelen. rewrite Nat2Z.id.
      apply take_str_name, Hnn. }
    rewrite Hpn.
    (* the rest of the list *)
    assert (Hrest : nvlist_print_pairs host fuel m (P + item_encoded_size it) indent
                    = Done (concat (map (item_line indent) items))).
    { specialize (IH (pre ++ pair_bytes host it) fuel slack).
      rewrite length_app, Nat2Z.inj_add, Hlen, <- app_assoc in IH.
      apply IH.
      - fold P. rewrite Z.add_mod, Hal by lia.
        replace (item_encoded_size it mod 4) with 0 by lia. reflexivity.
      - assumption.
      - simpl in Hfuel. lia. }
    cbn [map concat]. unfold item_line at 1.
    unfold item_type, typename, item_valuelen in *.
    pose proof Hit as (_ & _ & Hv30). unfold item_valuelen in Hv30.
    change (2 ^ 30) with 1073741824 in Hv30.
    destruct (item_val it) as [v|s0] eqn:Hv; unfold is_type.
    + change (nth_error Text.typenames (Z.to_nat DATA_TYPE_UINT64))
        with (Some Text.chars_uint64).
      cbn [bind]. change (DATA_TYPE_UINT64 =? DATA_TYPE_UINT64) with true. cbv iota.
      assert (L4 : load64 host m (P + (12 + NV_ALIGN4 (item_namelen it)) + 8)
                   = Done (wrap64 v)).
      { unfold m, P. rewrite load64_skip by lia.
        replace (Z.of_nat (length pre) + (12 + NV_ALIGN4 (item_namelen it)) + 8
                 - Z.of_nat (length pre))
          with (12 + NV_ALIGN4 (item_namelen it) + 8) by lia.
        exact Hval. }
      rewrite L4. cbn [bind]. rewrite Hrest. cbn [bind].
      rewrite (to_int_small 1) by (change (2 ^ 31) with 2147483648; lia).
      rewrite <- !app_assoc. reflexivity.
    + change (nth_error Text.typenames (Z.to_nat DATA_TYPE_STRING))
        with (Some Text.chars_string).
      cbn [bind]. change (DATA_TYPE_STRING =? DATA_TYPE_UINT64) with false.
      change (DATA_TYPE_STRING =? DATA_TYPE_STRING) with true. cbv iota.
      replace (P + (12 + NV_ALIGN4 (item_namelen it)) + 8)
        with (P + (12 + NV_ALIGN4 (item_namelen it) + 8)) by lia.
      rewrite Hm, Hval by lia. cbn [bind].
      assert (Hps : print_str m (P + (12 + NV_ALIGN4 (item_namelen it) + 8) + 4)
                      (to_int (Z.of_nat (length s0))) = Done (cstr s0)).
      { unfold print_str.
        rewrite to_int_small by (change (2 ^ 31) with 2147483648; lia).
        replace (Z.of_nat (length s0) <? 0) with false by (symmetry; apply Z.ltb_ge; lia).
        pose proof (pair_string_bytes host it s0 rest Hit Hv) as Hb.
        apply mem_read_from in Hb. destruct Hb as (tl' & Hb).
        unfold m, P. rewrite mem_from_app_r by lia.
        replace (Z.of_nat (length pre) + (12 + NV_ALIGN4 (item_namelen it) + 8) + 4
                 - Z.of_nat (length pre))
          with (24 + NV_ALIGN4 (item_namelen it)) by lia.
        rewrite Hb, <- app_assoc. cbn [app]. rewrite Nat2Z.id. apply take_str_value. }
      rewrite Hps. cbn [bind]. rewrite Hrest. cbn [bind].
      rewrite (to_int_small 1) by (change (2 ^ 31) with 2147483648; lia).
      rewrite <- !app_assoc. reflexivity.
Qed.

End Printer.

(** X19.  On a list that the add and remove functions have written,
    [nvlist_print] writes one line for each pair, in the order of the
    buffer: the indent, the name of the type, the element count 1 in
    brackets, the name, and then the number in hexadecimal after [0x], or
    the string between quotes; the last line is the indent and "End of
    nvlist". *)
Theorem X19_nvlist_print_writes_a_line_for_each_pair :
  forall host nvl flag items indent fuel,
    laid_out host nvl flag items -> 0 <= indent < 2 ^ 31 - 13 ->
    (length items < fuel)%nat ->
    nvlist_print host fuel (nv_mem nvl) 0 indent
    = Done (concat (map (item_line indent) items) ++
            spaces indent ++ Text.end_of_nvlist ++ Text.newline).
Proof.
  intros host nvl flag items indent fuel (Hd & Ha & Hok & slack & Hm & Hs) Hi Hfuel.
  destruct fuel as [|fuel]; [lia|]. cbn [nvlist_print]. unfold offsetof_nvl_pair.
  pose proof (print_pairs_laid host indent items
                (native_split host 4 NV_VERSION ++ native_split host 4 flag)
                fuel slack) as H.
  rewrite length_app, !length_native_split in H.
  rewrite Hm, <- !app_assoc. rewrite <- !app_assoc in H.
  change (Z.of_nat (4 + 4)) with (0 + 8) in H.
  rewrite H; [|reflexivity|assumption|lia]. cbn [bind].
  unfold padded. rewrite to_int_small by (change (2 ^ 31) with 2147483648 in *; lia).
  replace (0 <=? indent + 13) with true by (symmetry; apply Z.leb_le; lia).
  change (Z.of_nat (length Text.end_of_nvlist)) with 13.
  replace (indent + 13 - 13) with indent by lia.
  rewrite <- !app_assoc. reflexivity.
Qed.

Lemma X19_witness :
  nvlist_print LittleEndian 3 (nv_mem Examples.bootenv_list) 0 2
  = Done (concat (map (item_line 2)
                    [uint64_item Examples.version 1;
                     string_item Examples.bootonce Examples.tank]) ++
          spaces 2 ++ Text.end_of_nvlist ++ Text.newline).
Proof.
  apply (X19_nvlist_print_writes_a_line_for_each_pair LittleEndian Examples.bootenv_list
           NV_UNIQUE_NAME
           [uint64_item Examples.version 1; string_item Examples.bootonce Examples.tank]
           2 3).
  - exact bootenv_list_laid_out.
  - lia.
  - simpl. lia.
Defined.

(** ** The name of the boot device *)

Lemma cstr_fixed s : no_nul s -> cstr s = s.
Proof.
  induction 1 as [|b s Hb Hs IH]; [reflexivity|].
  cbn [cstr]. rewrite Hb, IH. reflexivity.
Qed.

Lemma no_nul_app a b : no_nul a -> no_nul b -> no_nul (a ++ b).
Proof. intros Ha Hb. apply Forall_app. split; assumption. Qed.

Lemma prefixb_app a b : prefixb a (a ++ b) = true.
Proof.
  induction a as [|x a IH]; [reflexivity|].
  cbn [app prefixb]. rewrite Z.eqb_refl, IH. reflexivity.
Qed.

(** X20.  For a device name that is not empty and does not begin with
    "zfs:", [lzbe_set_boot_device] stores [zfs:<device>:], and
    [lzbe_get_boot_device] gives the device name back for that value;
    storing the stored value again stores it as it is. *)
Theorem X20_boot_device_name_is_read_back :
  forall d,
    cstr d <> [] ->
    prefixb Bootenv.zfs_prefix (cstr d) = false ->
    exists value,
      lzbe_set_boot_device_update (Some d) true = BootonceSet value /\
      value = Bootenv.zfs_prefix ++ cstr d ++ [Bootenv.colon] /\
      lzbe_get_boot_device_name value true = Done (Some (cstr d)) /\
      lzbe_set_boot_device_update (Some value) true = BootonceSet value.
Proof.
  intros d Hne Hp. eexists. split; [|split; [reflexivity|]].
  - unfold lzbe_set_boot_device_update. destruct (cstr d) as [|b t] eqn:E; [contradiction|].
    rewrite Hp. reflexivity.
  - assert (Hn : no_nul (Bootenv.zfs_prefix ++ cstr d ++ [Bootenv.colon])).
    { apply no_nul_app; [repeat constructor|].
      apply no_nul_app; [apply cstr_no_nul|repeat constructor]. }
    split.
    + unfold lzbe_get_boot_device_name. rewrite (cstr_fixed _ Hn), prefixb_app.
      cbn [negb]. rewrite skipn_app.
      change (skipn 4 Bootenv.zfs_prefix) with (@nil byte).
      change (4 - length Bootenv.zfs_prefix)%nat with 0%nat. cbn [skipn app].
      rewrite rev_app_distr. cbn [rev app]. rewrite Z.eqb_refl, rev_involutive.
      reflexivity.
    + unfold lzbe_set_boot_device_update. rewrite (cstr_fixed _ Hn), prefixb_app.
      reflexivity.
Qed.

Lemma X20_witness :
  exists value,
    lzbe_set_boot_device_update (Some Examples.dataset) true = BootonceSet value /\
    value = Bootenv.zfs_prefix ++ cstr Examples.dataset ++ [Bootenv.colon] /\
    lzbe_get_boot_device_name value true = Done (Some (cstr Examples.dataset)) /\
    lzbe_set_boot_device_update (Some value) true = BootonceSet value.
Proof.
  apply (X20_boot_device_name_is_read_back Examples.dataset).
  - vm_compute. discriminate.
  - vm_compute. reflexivity.
Defined.

Lemma prefixb_split a : forall t, prefixb a t = true -> exists r, t = a ++ r.
Proof.
  induction a as [|x a IH]; intros t H; [exists t; reflexivity|].
  destruct t as [|y t]; [discriminate|]. cbn [prefixb] in H.
  apply andb_true_iff in H. destruct H as [Hxy Ht].
  apply Z.eqb_eq, byte.unsigned_inj in Hxy. subst y.
  destruct (IH t Ht) as (r & ->). exists r. reflexivity.
Qed.

(** X21.  When [strdup] has given a block, [lzbe_get_boot_device] reads
    [val[len - 1]] with [len = 0], the byte before that block, exactly
    when the stored value is empty or is "zfs:" alone. *)
Theorem X21_lzbe_get_boot_device_reads_before_an_empty_name :
  forall val,
    lzbe_get_boot_device_name val true = Fault <->
    cstr val = [] \/ cstr val = Bootenv.zfs_prefix.
Proof.
  intros val. unfold lzbe_get_boot_device_name. cbn [negb]. split.
  - destruct (prefixb Bootenv.zfs_prefix (cstr val)) eqn:Hp.
    + destruct (prefixb_split _ _ Hp) as (r & Hr). rewrite Hr.
      rewrite skipn_app. change (skipn 4 Bootenv.zfs_prefix) with (@nil byte).
      change (4 - length Bootenv.zfs_prefix)%nat with 0%nat. cbn [skipn app].
      destruct (rev r) as [|c t] eqn:Er; [|discriminate].
      intros _. right. apply (f_equal (@rev byte)) in Er.
      rewrite rev_involutive in Er. rewrite Er. apply app_nil_r.
    + destruct (rev (cstr val)) as [|c t] eqn:Er; [|discriminate].
      intros _. left. apply (f_equal (@rev byte)) in Er.
      rewrite rev_involutive in Er. exact Er.
  - intros [H | H]; rewrite H; reflexivity.
Qed.
